(** * gobwmon: the bandwidth monitor's sample record, bucket store engine,
      interface sampler and live fan-out, embedded from the Go sources.

    Conventions of the embedding.
    - Go's [uint64] and [int64] are [Z] with the wrap-around written out
      ([u64], [i64]).
    - A [time.Time] is the instant it denotes, in nanoseconds since the Unix
      epoch, as an unbounded [Z]: Go stores seconds and nanoseconds apart and
      covers far more than an [int64] of nanoseconds, which is why
      [UnixNano] wraps.  Locations are taken as UTC and monotonic clock
      readings are dropped, so [==] on times is equality of instants.
    - The bolt store is a finite map from bucket names to buckets, a bucket
      a finite map from keys to values; a transaction is a state-and-error
      computation over the store, [Batch] commits its result or leaves the
      store as it was. *)

From Stdlib Require Import ZArith Lia List Bool.
From Stdlib Require Import Strings.Byte Strings.Ascii Strings.String.
From stdpp Require Import base tactics option list sorting gmap strings fin_maps.

Local Open Scope Z_scope.

(** ** Machine integers *)

Definition u64 (z : Z) : Z := z mod 2 ^ 64.
Definition i64 (z : Z) : Z := (z + 2 ^ 63) mod 2 ^ 64 - 2 ^ 63.

Definition is_u64 (z : Z) : Prop := 0 <= z < 2 ^ 64.
Definition is_i64 (z : Z) : Prop := - 2 ^ 63 <= z < 2 ^ 63.

(** ** Bytes and the native (little-endian) layout of a 64-bit word *)

Definition Z_of_byte (b : byte) : Z := Z.of_N (Byte.to_N b).

Definition byte_of_Z (z : Z) : byte :=
  match Byte.of_N (Z.to_N (z mod 256)) with
  | Some b => b
  | None => Byte.x00
  end.

(** [putLE n v]: the [n] low bytes of [v], least significant first, as a
    store through [unsafe.Pointer] writes them on a little-endian host. *)
Fixpoint putLE (n : nat) (v : Z) : list byte :=
  match n with
  | O => []
  | S n' => byte_of_Z (v mod 256) :: putLE n' (v / 256)
  end.

(** [getLE l]: the unsigned value of the bytes [l], least significant first. *)
Fixpoint getLE (l : list byte) : Z :=
  match l with
  | [] => 0
  | b :: l' => Z_of_byte b + 256 * getLE l'
  end.

(** ** Errors *)

Inductive StoreOp : Type :=
  | OpCreateBucket (name : string)
  | OpPut (name key : string)
  | OpDelete (name key : string)
  | OpCommit.

Inductive error : Type :=
  | errNotOpen
  | errInvalidTimestamp
  | errCorruptValue
  | errNoBucket
  | errBWTypeConversion
  | errInvalidBufferSize
  | errStorage (op : StoreOp).

(** ** Time: the parts of Go's [time] package the program uses *)

Definition Time := Z.

Definition Nanosecond : Z := 1.
Definition Second : Z := 1000000000 * Nanosecond.
Definition Minute : Z := 60 * Second.
Definition Hour : Z := 60 * Minute.

(** The zero [time.Time]: January 1, year 1, 00:00:00 UTC. *)
Definition zeroTime : Time := -62135596800 * Second.

Definition Before (t u : Time) : bool := t <? u.
Definition TimeEq (t u : Time) : bool := t =? u.
Definition TimeAdd (t : Time) (d : Z) : Time := t + d.

(** [t.UnixNano()]: computed in [int64], so it wraps outside 1678..2262. *)
Definition UnixNano (t : Time) : Z := i64 t.

(** [time.Unix(0, nsec)]. *)
Definition Unix0 (nsec : Z) : Time := nsec.

(** *** Calendar (proleptic Gregorian, UTC) *)

(** Year, month (1..12) and day of month of the day numbered [z] from
    1970-01-01. *)
Definition civil_from_days (z : Z) : Z * Z * Z :=
  let z := z + 719468 in
  let era := z / 146097 in
  let doe := z - era * 146097 in
  let yoe := (doe - doe / 1460 + doe / 36524 - doe / 146096) / 365 in
  let doy := doe - (365 * yoe + yoe / 4 - yoe / 100) in
  let mp := (5 * doy + 2) / 153 in
  let d := doy - (153 * mp + 2) / 5 + 1 in
  let m := if mp <? 10 then mp + 3 else mp - 9 in
  let y := yoe + era * 400 in
  (if m <=? 2 then y + 1 else y, m, d).

(** The day number of year [y], month [m], day [d]. *)
Definition days_from_civil (y m d : Z) : Z :=
  let y := if m <=? 2 then y - 1 else y in
  let era := y / 400 in
  let yoe := y - era * 400 in
  let mp := if m <=? 2 then m + 9 else m - 3 in
  let doy := (153 * mp + 2) / 5 + d - 1 in
  let doe := yoe * 365 + yoe / 4 - yoe / 100 + doy in
  era * 146097 + doe - 719468.

Definition isLeap (y : Z) : bool :=
  (y mod 4 =? 0) && (negb (y mod 100 =? 0) || (y mod 400 =? 0)).

Definition daysIn (m y : Z) : Z :=
  if m =? 2 then (if isLeap y then 29 else 28)
  else if (m =? 4) || (m =? 6) || (m =? 9) || (m =? 11) then 30 else 31.

Definition secondsPerDay : Z := 86400.

Definition unixSec (t : Time) : Z := t / Second.
Definition unixDay (t : Time) : Z := unixSec t / secondsPerDay.
Definition secOfDay (t : Time) : Z := unixSec t mod secondsPerDay.

(** [t.Year()], [t.Month()], [t.Day()], [t.Hour()], [t.Minute()]. *)
Definition YearOf (t : Time) : Z := (civil_from_days (unixDay t)).1.1.
Definition MonthOf (t : Time) : Z := (civil_from_days (unixDay t)).1.2.
Definition DayOf (t : Time) : Z := (civil_from_days (unixDay t)).2.
Definition HourOf (t : Time) : Z := secOfDay t / 3600.
Definition MinuteOf (t : Time) : Z := secOfDay t mod 3600 / 60.

(** [time.Date(year, month, day, hour, min, 0, 0, time.UTC)] on fields that
    are in range. *)
Definition Date (year month day hour min : Z) : Time :=
  ((days_from_civil year month day * secondsPerDay) + hour * 3600 + min * 60)
  * Second.

(** *** Layouts

    Go cuts a layout string into standard chunks; the layouts of this
    program are cut as follows.
    - [010220061504] is 01, 02, 2006, 15, 04;
    - [0102200615] is 01, 02, 2006, 15;
    - [01022006] is 01, 02, 2006;
    - [012006] is 01, 2006;
    - [2006-01] is 2006, the text "-", 01. *)

Inductive Chunk : Type :=
  | stdZeroMonth          (* 01 *)
  | stdZeroDay            (* 02 *)
  | stdLongYear           (* 2006 *)
  | stdHour               (* 15 *)
  | stdZeroMinute         (* 04 *)
  | stdText (s : string).

Definition Layout := list Chunk.

Definition minFmt : Layout :=
  [stdZeroMonth; stdZeroDay; stdLongYear; stdHour; stdZeroMinute].
Definition hourFmt : Layout := [stdZeroMonth; stdZeroDay; stdLongYear; stdHour].
Definition dayFmt : Layout := [stdZeroMonth; stdZeroDay; stdLongYear].
Definition monFmt : Layout := [stdZeroMonth; stdLongYear].
Definition yearMonthFmt : Layout := [stdLongYear; stdText "-"; stdZeroMonth].

Definition digitChar (d : Z) : ascii := ascii_of_N (48 + Z.to_N d).

(** The decimal digits of [u >= 0], most significant first. *)
Fixpoint decimal_go (fuel : nat) (u : Z) (acc : string) : string :=
  match fuel with
  | O => acc
  | S fuel' =>
      let acc' := String (digitChar (u mod 10)) acc in
      if u <? 10 then acc' else decimal_go fuel' (u / 10) acc'
  end.

Definition decimal (u : Z) : string :=
  decimal_go (S (Z.to_nat (Z.log2 u))) u EmptyString.

Fixpoint zeros (n : nat) : string :=
  match n with
  | O => EmptyString
  | S n' => String "0"%char (zeros n')
  end.

(** [appendInt(b, x, width)] of package time: a sign, then the digits padded
    with zeros to [width]. *)
Definition appendInt (x : Z) (width : nat) : string :=
  let ds := decimal (Z.abs x) in
  (if x <? 0 then "-"%string else ""%string)
  +:+ zeros (width - String.length ds) +:+ ds.

(** [fmt.Sprintf("%0<width>d", x)]: the sign counts in the width. *)
Definition sprintf0d (width : nat) (x : Z) : string :=
  let ds := decimal (Z.abs x) in
  if x <? 0
  then "-"%string +:+ zeros (width - 1 - String.length ds) +:+ ds
  else zeros (width - String.length ds) +:+ ds.

Definition formatChunk (c : Chunk) (t : Time) : string :=
  match c with
  | stdZeroMonth => appendInt (MonthOf t) 2
  | stdZeroDay => appendInt (DayOf t) 2
  | stdLongYear => appendInt (YearOf t) 4
  | stdHour => appendInt (HourOf t) 2
  | stdZeroMinute => appendInt (MinuteOf t) 2
  | stdText s => s
  end.

(** [t.Format(layout)]. *)
Fixpoint Format (layout : Layout) (t : Time) : string :=
  match layout with
  | [] => EmptyString
  | c :: layout' => formatChunk c t +:+ Format layout' t
  end.

Definition isDigit (c : ascii) : bool :=
  let n := N_of_ascii c in (48 <=? n)%N && (n <=? 57)%N.

Definition digitVal (c : ascii) : Z := Z.of_N (N_of_ascii c) - 48.

(** [getnum(s, fixed)] of package time: one or two digits; two are required
    when [fixed]. *)
Definition getnum (s : string) (fixed : bool) : option (Z * string) :=
  match s with
  | String c0 rest =>
      if isDigit c0 then
        match rest with
        | String c1 rest' =>
            if isDigit c1 then Some (digitVal c0 * 10 + digitVal c1, rest')
            else if fixed then None else Some (digitVal c0, rest)
        | EmptyString => if fixed then None else Some (digitVal c0, rest)
        end
      else None
  | EmptyString => None
  end.

(** The four-digit year of [stdLongYear]. *)
Definition getyear (s : string) : option (Z * string) :=
  match s with
  | String c0 (String c1 (String c2 (String c3 rest))) =>
      if isDigit c0 && isDigit c1 && isDigit c2 && isDigit c3
      then Some (((digitVal c0 * 10 + digitVal c1) * 10 + digitVal c2) * 10
                 + digitVal c3, rest)
      else None
  | _ => None
  end.

Fixpoint skipPrefix (p s : string) : option string :=
  match p with
  | EmptyString => Some s
  | String a p' =>
      match s with
      | String b s' => if Ascii.eqb a b then skipPrefix p' s' else None
      | EmptyString => None
      end
  end.

Record Parsed : Type := mkParsed {
  pYear : Z; pMonth : Z; pDay : Z; pHour : Z; pMin : Z
}.

(** What [time.Parse] starts from: year 0, month and day 1 when the layout
    names none, midnight. *)
Definition parsed0 : Parsed := mkParsed 0 1 1 0 0.

Definition parseChunk (c : Chunk) (p : Parsed) (value : string)
  : option (Parsed * string) :=
  match c with
  | stdZeroMonth =>
      match getnum value true with
      | Some (m, rest) =>
          if (m <=? 0) || (12 <? m) then None
          else Some (mkParsed (pYear p) m (pDay p) (pHour p) (pMin p), rest)
      | None => None
      end
  | stdZeroDay =>
      match getnum value true with
      | Some (d, rest) =>
          Some (mkParsed (pYear p) (pMonth p) d (pHour p) (pMin p), rest)
      | None => None
      end
  | stdLongYear =>
      match getyear value with
      | Some (y, rest) =>
          Some (mkParsed y (pMonth p) (pDay p) (pHour p) (pMin p), rest)
      | None => None
      end
  | stdHour =>
      match getnum value false with
      | Some (h, rest) =>
          if (h <? 0) || (24 <=? h) then None
          else Some (mkParsed (pYear p) (pMonth p) (pDay p) h (pMin p), rest)
      | None => None
      end
  | stdZeroMinute =>
      match getnum value true with
      | Some (mi, rest) =>
          if (mi <? 0) || (60 <=? mi) then None
          else Some (mkParsed (pYear p) (pMonth p) (pDay p) (pHour p) mi, rest)
      | None => None
      end
  | stdText s =>
      match skipPrefix s value with
      | Some rest => Some (p, rest)
      | None => None
      end
  end.

Fixpoint parseChunks (layout : Layout) (p : Parsed) (value : string)
  : option Parsed :=
  match layout with
  | [] => match value with EmptyString => Some p | _ => None end
  | c :: layout' =>
      match parseChunk c p value with
      | Some (p', rest) => parseChunks layout' p' rest
      | None => None
      end
  end.

(** [time.Parse(layout, value)], [None] for its error. *)
Definition Parse (layout : Layout) (value : string) : option Time :=
  match parseChunks layout parsed0 value with
  | Some p =>
      if (pDay p <? 1) || (daysIn (pMonth p) (pYear p) <? pDay p) then None
      else Some (Date (pYear p) (pMonth p) (pDay p) (pHour p) (pMin p))
  | None => None
  end.

(** [tn, _ := time.Parse(..)]: the zero time when parsing fails. *)
Definition ParseOrZero (layout : Layout) (value : string) : Time :=
  match Parse layout value with
  | Some t => t
  | None => zeroTime
  end.

(** ** bwsample.go *)

Definition bwSampleSize : nat := (8 * 3)%nat.

Record BWSample : Type := mkBWSample {
  Ts : Time;
  BytesUp : Z;
  BytesDown : Z
}.

(** The [uint64] fields hold values of their type. *)
Definition sample_ok (s : BWSample) : Prop :=
  is_u64 (BytesUp s) /\ is_u64 (BytesDown s).

Definition NewBwSample : BWSample := mkBWSample zeroTime 0 0.

Module Sample.

Definition After (s : BWSample) (ts : Time) : bool := negb (Before (Ts s) ts).

(** The type assertion on [sn] always succeeds here: [BWSample] is the
    only implementation of the interface. The timestamp is left alone. *)
Definition Add (s sn : BWSample) : error + BWSample :=
  inr (mkBWSample (Ts s)
                  (u64 (BytesUp s + BytesUp sn))
                  (u64 (BytesDown s + BytesDown sn))).

Definition Decode (s : BWSample) (b : list byte) : error + BWSample :=
  if negb (Nat.eqb (length b) bwSampleSize) then inl errInvalidBufferSize
  else inr (mkBWSample (Unix0 (i64 (getLE (take 8 b))))
                       (getLE (take 8 (drop 8 b)))
                       (getLE (take 8 (drop 16 b)))).

Definition Encode (s : BWSample) : list byte :=
  putLE 8 (UnixNano (Ts s)) ++ putLE 8 (BytesUp s) ++ putLE 8 (BytesDown s).

Definition TimeLabel (s : BWSample) (fmt : Layout) : string := Format fmt (Ts s).

Definition TS (s : BWSample) : Time := Ts s.

Definition SetTS (s : BWSample) (t : Time) : BWSample :=
  mkBWSample t (BytesUp s) (BytesDown s).

End Sample.


(** ** The bolt store

    A bucket maps keys to values, the store maps bucket names to buckets.
    [bolt] may fail on any write (I/O, a closed or read-only transaction);
    which calls fail is left open: [fault op] says whether [op] does. *)

Abbreviation Bucket := (gmap string (list byte)).
Abbreviation Store := (gmap string (gmap string (list byte))).

(** A transaction body: it reads and changes the store it is run on, or
    stops with an error. *)
Definition Tx (A : Type) : Type := Store -> error + (A * Store).

Definition tx_ret {A : Type} (a : A) : Tx A := fun st => inr (a, st).

Definition tx_fail {A : Type} (e : error) : Tx A := fun _ => inl e.

Definition tx_bind {A B : Type} (m : Tx A) (k : A -> Tx B) : Tx B :=
  fun st =>
    match m st with
    | inl e => inl e
    | inr (a, st') => k a st'
    end.

Notation "x <- m ;; k" := (tx_bind m (fun x => k))
  (at level 100, m at next level, right associativity).
Notation "m ;;; k" := (tx_bind m (fun _ => k))
  (at level 100, right associativity).

Definition bucketOf (st : Store) (name : string) : Bucket :=
  default ∅ (st !! name).

(** Byte-wise order of keys, the order a bolt cursor walks a bucket in. *)
Definition key_le (x y : string * list byte) : Prop :=
  String.leb x.1 y.1 = true.

#[global] Instance key_le_dec (x y : string * list byte)
  : Decision (key_le x y) := decide (String.leb x.1 y.1 = true).

Definition entries (b : Bucket) : list (string * list byte) :=
  merge_sort key_le (map_to_list b).

Definition name_le (x y : string) : Prop := String.leb x y = true.

#[global] Instance name_le_dec (x y : string) : Decision (name_le x y) :=
  decide (String.leb x y = true).

(** The names of the buckets, in the order [tx.ForEach] walks them. *)
Definition bucketNames (st : Store) : list string :=
  merge_sort name_le (map_to_list st).*1.

Module bolt.
Section Faults.

Variable fault : StoreOp -> bool.

Definition guard (op : StoreOp) : Tx unit :=
  if fault op then tx_fail (errStorage op) else tx_ret tt.

(** [tx.CreateBucketIfNotExists(name)]. *)
Definition CreateBucketIfNotExists (name : string) : Tx unit :=
  guard (OpCreateBucket name) ;;;
  fun st =>
    match st !! name with
    | Some _ => inr (tt, st)
    | None => inr (tt, <[name := ∅]> st)
    end.

(** [bkt.Get(key)]: [None] for Go's nil. *)
Definition Get (bkt key : string) : Tx (option (list byte)) :=
  fun st => inr (bucketOf st bkt !! key, st).

(** [bkt.Put(key, value)]. *)
Definition Put (bkt key : string) (value : list byte) : Tx unit :=
  guard (OpPut bkt key) ;;;
  fun st => inr (tt, <[bkt := <[key := value]> (bucketOf st bkt)]> st).

(** [bkt.Delete(key)]. *)
Definition Delete (bkt key : string) : Tx unit :=
  guard (OpDelete bkt key) ;;;
  fun st => inr (tt, <[bkt := delete key (bucketOf st bkt)]> st).

(** The body of [bkt.ForEach(fn)] over the pairs [l]; [a] is what the Go
    closure keeps in captured variables from one call to the next. *)
Fixpoint forEachList {A : Type} (fn : A -> string -> list byte -> Tx A)
    (l : list (string * list byte)) (a : A) : Tx A :=
  match l with
  | [] => tx_ret a
  | (k, v) :: l' => a' <- fn a k v ;; forEachList fn l' a'
  end.

(** [bkt.ForEach(fn)]: the pairs of the bucket as they are when the walk
    starts, in key order; [fn] deletes from the bucket only the key it is
    called with. *)
Definition ForEach {A : Type} (bkt : string)
    (fn : A -> string -> list byte -> Tx A) (a : A) : Tx A :=
  fun st => forEachList fn (entries (bucketOf st bkt)) a st.

(** [db.Batch(fn)]: all of [fn]'s writes, or none. *)
Definition Batch (fn : Tx unit) (st : Store) : Store * option error :=
  match fn st with
  | inl e => (st, Some e)
  | inr (_, st') =>
      if fault OpCommit then (st, Some (errStorage OpCommit)) else (st', None)
  end.

End Faults.
End bolt.

Definition noFault : StoreOp -> bool := fun _ => false.

(** ** The aggregation engine (bwdb) *)

Definition defaultHistSize : Z := 60.

Definition bktMin : string := "min".
Definition bktHour : string := "hour".
Definition bktDay : string := "day".
Definition bktMon : string := "mon".

(** The factory every caller hands to [NewBwDb]. *)
Definition newVar : BWSample := NewBwSample.

Module Bwdb.

Record bwdb : Type := mkBwdb {
  open : bool;
  db : Store;
  hist : list BWSample;
  histSize : Z;
  last : Time
}.

Definition set_db (d : bwdb) (st : Store) : bwdb :=
  mkBwdb (open d) st (hist d) (histSize d) (last d).
Definition set_hist (d : bwdb) (h : list BWSample) : bwdb :=
  mkBwdb (open d) (db d) h (histSize d) (last d).
Definition set_last (d : bwdb) (t : Time) : bwdb :=
  mkBwdb (open d) (db d) (hist d) (histSize d) t.
Definition set_open (d : bwdb) (o : bool) : bwdb :=
  mkBwdb o (db d) (hist d) (histSize d) (last d).

(** [NewBwDb(path, liveSize, nv)]; [opened] is what [bolt.Open(path)] gave. *)
Definition NewBwDb (opened : error + Store) (liveSize : Z) : error + bwdb :=
  match opened with
  | inl err => inl err
  | inr st =>
      let liveSize := if liveSize <=? 0 then defaultHistSize else liveSize in
      inr (mkBwdb true st [] liveSize zeroTime)
  end.

(** The trim loop of [Add]: drop from the back while the ring is too long. *)
Fixpoint trim (fuel : nat) (h : list BWSample) (size : Z) : list BWSample :=
  match fuel with
  | O => h
  | S fuel' =>
      if Z.of_nat (length h) >? size then trim fuel' (removelast h) size else h
  end.

(** [prevHour], [prevDay], [prevMon]. *)
Definition prevHour (ts : Time) : Time :=
  TimeAdd (ParseOrZero hourFmt (Format hourFmt ts)) Hour.

Definition prevDay (ts : Time) : Time :=
  TimeAdd (ParseOrZero dayFmt (Format dayFmt ts)) (24 * Hour).

Definition prevMon (ts : Time) : Time :=
  let year := YearOf ts in
  let month := MonthOf ts in
  let '(year, month) :=
    if month =? 1 then (year - 1, 12) else (year, month - 1) in
  ParseOrZero yearMonthFmt (sprintf0d 4 year +:+ "-" +:+ sprintf0d 2 month).

Section Faults.

Variable fault : StoreOp -> bool.

Abbreviation CreateBucketIfNotExists := (bolt.CreateBucketIfNotExists fault).
Abbreviation Put := (bolt.Put fault).
Abbreviation Delete := (bolt.Delete fault).
Abbreviation Batch := (bolt.Batch fault).

Definition updateVal (bkt key : string) (s : BWSample) : Tx unit :=
  v <- bolt.Get bkt key ;;
  match v with
  | None => Put bkt key (Sample.Encode s)
  | Some v =>
      match Sample.Decode newVar v with
      | inl err => tx_fail err
      | inr sold =>
          let sold :=
            match Sample.Add sold s with inr x => x | inl _ => sold end in
          Put bkt key (Sample.Encode sold)
      end
  end.

Definition sumAndShift (pullBkt putBkt putKey : string) : Tx unit :=
  s <- bolt.ForEach pullBkt
         (fun s k v =>
            match Sample.Decode newVar v with
            | inl err => tx_fail err
            | inr sx =>
                match Sample.Add s sx with
                | inl err => tx_fail err
                | inr s =>
                    let s := Sample.SetTS s (Sample.TS sx) in
                    Delete pullBkt k ;;; tx_ret s
                end
            end)
         newVar ;;
  updateVal putBkt putKey s.

(** The closure [shiftIfOlder] hands to [ForEach]; [s] is the sample it
    decodes into, shared by all its calls. *)
Definition shiftEntry (srcBktKey dstBktKey : string) (tcheck : Time)
    (keyFmt : Layout) (s : BWSample) (k : string) (v : list byte)
  : Tx BWSample :=
  match Sample.Decode s v with
  | inl err => tx_fail err
  | inr s =>
      if Before (Sample.TS s) tcheck then
        Delete srcBktKey k ;;;
        updateVal dstBktKey (Format keyFmt (Sample.TS s)) s ;;;
        tx_ret s
      else tx_ret s
  end.

Definition shiftIfOlder (srcBktKey dstBktKey : string) (tcheck : Time)
    (keyFmt : Layout) (st : Store) : Store * option error :=
  Batch
    (CreateBucketIfNotExists srcBktKey ;;;
     CreateBucketIfNotExists dstBktKey ;;;
     bolt.ForEach srcBktKey (shiftEntry srcBktKey dstBktKey tcheck keyFmt)
       newVar ;;;
     tx_ret tt)
    st.

Definition Rebase (d : bwdb) (ts : Time) : bwdb * option error :=
  if negb (open d) then (d, Some errNotOpen) else
  match shiftIfOlder bktMin bktHour (prevHour ts) hourFmt (db d) with
  | (st, Some err) => (set_db d st, Some err)
  | (st, None) =>
      match shiftIfOlder bktHour bktDay (prevDay ts) dayFmt st with
      | (st, Some err) => (set_db d st, Some err)
      | (st, None) =>
          match shiftIfOlder bktDay bktMon (prevMon ts) monFmt st with
          | (st, Some err) => (set_db d st, Some err)
          | (st, None) => (set_db d st, None)
          end
      end
  end.

Definition addOutOfOrder (d : bwdb) (s : BWSample) : bwdb * option error :=
  if negb (open d) then (d, Some errNotOpen) else
  let '(st, err) :=
    Batch
      (if MinuteOf (Sample.TS s) =? MinuteOf (last d) then
         CreateBucketIfNotExists bktMin ;;;
         updateVal bktMin (Sample.TimeLabel s minFmt) s
       else if HourOf (Sample.TS s) =? HourOf (last d) then
         CreateBucketIfNotExists bktHour ;;;
         updateVal bktHour (Sample.TimeLabel s hourFmt) s
       else if DayOf (Sample.TS s) =? DayOf (last d) then
         CreateBucketIfNotExists bktDay ;;;
         updateVal bktDay (Sample.TimeLabel s dayFmt) s
       else
         CreateBucketIfNotExists bktMon ;;;
         updateVal bktMon (Sample.TimeLabel s monFmt) s)
      (db d) in
  (set_db d st, err).

Definition AddRand (d : bwdb) (s : BWSample) : bwdb * option error :=
  addOutOfOrder d s.

(** The function [Add] hands to [Batch]; [last] is [db.last] as it is when
    the batch runs. *)
Definition addBatch (last : Time) (s : BWSample) : Tx unit :=
  let minLbl := Sample.TimeLabel s minFmt in
  let hourLbl := Sample.TimeLabel s hourFmt in
  let dayLbl := Sample.TimeLabel s dayFmt in
  let monLbl := Sample.TimeLabel s monFmt in
  CreateBucketIfNotExists bktMin ;;;
  CreateBucketIfNotExists bktHour ;;;
  CreateBucketIfNotExists bktDay ;;;
  CreateBucketIfNotExists bktMon ;;;
  (if negb (String.eqb hourLbl (Format hourFmt last))
   then sumAndShift bktMin bktHour (Format hourFmt last) else tx_ret tt) ;;;
  (if negb (String.eqb dayLbl (Format dayFmt last))
   then sumAndShift bktHour bktDay (Format dayFmt last) else tx_ret tt) ;;;
  (if negb (String.eqb monLbl (Format monFmt last))
   then sumAndShift bktDay bktMon (Format monFmt last) else tx_ret tt) ;;;
  updateVal bktMin minLbl s ;;;
  updateVal bktHour hourLbl s ;;;
  updateVal bktDay dayLbl s ;;;
  updateVal bktMon monLbl s.

Definition Add (d : bwdb) (s : BWSample) : bwdb * option error :=
  if negb (open d) then (d, Some errNotOpen) else
  if negb (Sample.After s (last d)) then addOutOfOrder d s else
  let h := s :: hist d in
  let d := set_hist d (trim (length h) h (histSize d)) in
  let d := if TimeEq (last d) zeroTime then set_last d (Sample.TS s) else d in
  match Batch (addBatch (last d) s) (db d) with
  | (_, Some err) => (d, Some err)
  | (st, None) => (set_last (set_db d st) (Sample.TS s), None)
  end.

(** [purge]: [tx.ForEach] walks the buckets by name, the inner [ForEach]
    deletes every key. The test on the length of the emptied ring cannot
    fail. *)
Definition purge (d : bwdb) : bwdb * option error :=
  if negb (open d) then (d, Some errNotOpen) else
  let d := set_last d zeroTime in
  let d := set_hist d [] in
  let '(st, err) :=
    Batch
      (fun st =>
         foldr
           (fun name (rest : Tx unit) =>
              bolt.ForEach name (fun _ k _ => Delete name k) tt ;;; rest)
           (tx_ret tt)
           (bucketNames st)
           st)
      (db d) in
  (set_db d st, err).

(** [Close]; the store's own close succeeds unless [closeErr] is given. *)
Definition Close (d : bwdb) (closeErr : option error) : bwdb * option error :=
  if negb (open d) then (d, Some errNotOpen) else
  match closeErr with
  | Some err => (d, Some err)
  | None => (set_open (set_hist d []) false, None)
  end.

Definition LiveSet (d : bwdb) : error + list BWSample :=
  if negb (open d) then inl errNotOpen else inr (hist d).

(** [pullSet]: a read-only transaction; a bucket that was never made is
    [errNoBucket]. *)
Definition pullSet (d : bwdb) (bktName : string) : error + list BWSample :=
  if negb (open d) then inl errNotOpen else
  match db d !! bktName with
  | None => inl errNoBucket
  | Some _ =>
      match bolt.ForEach bktName
              (fun ss _ v =>
                 match Sample.Decode newVar v with
                 | inl err => tx_fail err
                 | inr s => tx_ret (ss ++ [s])
                 end)
              [] (db d) with
      | inl err => inl err
      | inr (ss, _) => inr ss
      end
  end.

Definition Minutes (d : bwdb) : error + list BWSample := pullSet d bktMin.
Definition Hours (d : bwdb) : error + list BWSample := pullSet d bktHour.
Definition Days (d : bwdb) : error + list BWSample := pullSet d bktDay.
Definition Months (d : bwdb) : error + list BWSample := pullSet d bktMon.

End Faults.
End Bwdb.

(** Calls on an engine, and a run of them. *)
Inductive Call : Type :=
  | CallAdd (s : BWSample)
  | CallAddRand (s : BWSample)
  | CallRebase (ts : Time)
  | CallPurge
  | CallClose (closeErr : option error).

Definition call (fault : StoreOp -> bool) (d : Bwdb.bwdb) (c : Call)
  : Bwdb.bwdb * option error :=
  match c with
  | CallAdd s => Bwdb.Add fault d s
  | CallAddRand s => Bwdb.AddRand fault d s
  | CallRebase ts => Bwdb.Rebase fault d ts
  | CallPurge => Bwdb.purge fault d
  | CallClose e => Bwdb.Close d e
  end.

Definition calls (fault : StoreOp -> bool) (d : Bwdb.bwdb) (cs : list Call)
  : Bwdb.bwdb :=
  foldl (fun d c => (call fault d c).1) d cs.

(** [ss] added one after the other, each in order and each without error. *)
Fixpoint addInOrder (fault : StoreOp -> bool) (d : Bwdb.bwdb)
    (ss : list BWSample) : option Bwdb.bwdb :=
  match ss with
  | [] => Some d
  | s :: ss' =>
      if Bwdb.open d && Sample.After s (Bwdb.last d) then
        match Bwdb.Add fault d s with
        | (d', None) => addInOrder fault d' ss'
        | (_, Some _) => None
        end
      else None
  end.

(** Insert-or-sum of each sample of [ops] under its key, in one bucket. *)
Fixpoint updateAll (fault : StoreOp -> bool) (bkt : string)
    (ops : list (string * BWSample)) : Tx unit :=
  match ops with
  | [] => tx_ret tt
  | (key, s) :: ops' =>
      Bwdb.updateVal fault bkt key s ;;; updateAll fault bkt ops'
  end.

(** The samples of [ops] written under [key]. *)
Definition writtenTo (key : string) (ops : list (string * BWSample))
  : list BWSample :=
  (filter (fun o => o.1 = key) ops).*2.

Definition sumUp (l : list BWSample) : Z := foldr (fun s a => BytesUp s + a) 0 l.
Definition sumDown (l : list BWSample) : Z :=
  foldr (fun s a => BytesDown s + a) 0 l.
Definition maxTs (l : list BWSample) : Z :=
  foldr (fun s a => Z.max (Ts s) a) (- 2 ^ 63) l.

(** Period starts, in UTC. *)
Definition startOfHour (t : Time) : Time := t / Hour * Hour.
Definition startOfDay (t : Time) : Time := t / (24 * Hour) * (24 * Hour).
Definition startOfMonth (t : Time) : Time := Date (YearOf t) (MonthOf t) 1 0 0.
Definition startOfPrevMonth (t : Time) : Time :=
  if MonthOf t =? 1 then Date (YearOf t - 1) 12 1 0 0
  else Date (YearOf t) (MonthOf t - 1) 1 0 0.

(** Every value of bucket [bkt] decodes to a sample stamped [cutoff] or later. *)
Definition residentSince (st : Store) (bkt : string) (cutoff : Time) : Prop :=
  forall k v, bucketOf st bkt !! k = Some v ->
    exists s, Sample.Decode newVar v = inr s /\ cutoff <= Sample.TS s.

(** ** The interface sampler (Iface) *)

Module Ifmon.

Inductive ioerror : Type :=
  | ErrInvalidInterface
  | ErrClosed
  | ErrInterfaceOpen
  | ErrFailedSeek
  | ErrInvalidData
  | ErrInvalid              (* os.ErrInvalid: a call on a nil [*os.File] *)
  | ErrSyntax               (* strconv *)
  | ErrRange                (* strconv *)
  | ErrOS (code : Z).

(** An open [*os.File]. *)
Definition File := Z.

(** What the operating system answers at the time of a call. *)
Record World : Type := mkWorld {
  os_Open : string -> option File;
  file_Seek : File -> ioerror + Z;
  file_Read : File -> ioerror + list byte;
  file_Close : File -> option ioerror
}.

Record Iface : Type := mkIface {
  name : string;
  alias : string;
  fioSend : option File;
  fioRecv : option File;
  lastSend : Z;
  lastRecv : Z;
  open : bool
}.

Definition sysClassPath : string := "/sys/class/net/".
Definition sysClassRxPath : string := "/statistics/rx_bytes".
Definition sysClassTxPath : string := "/statistics/tx_bytes".

Definition isNil {A : Type} (o : option A) : bool :=
  match o with Some _ => false | None => true end.

(** [reopenInterfaces]. *)
Definition reopenInterfaces (w : World) (iface : Iface)
  : Iface * option ioerror :=
  if negb (isNil (fioSend iface)) || negb (isNil (fioRecv iface))
  then (iface, Some ErrInterfaceOpen) else
  match os_Open w (sysClassPath +:+ name iface +:+ sysClassRxPath) with
  | None => (iface, Some ErrInvalidInterface)
  | Some fioRx =>
      match os_Open w (sysClassPath +:+ name iface +:+ sysClassTxPath) with
      | None => (iface, Some ErrInvalidInterface)
      | Some fioTx =>
          (mkIface (name iface) (alias iface) (Some fioTx) (Some fioRx)
                   (lastSend iface) (lastRecv iface) (open iface), None)
      end
  end.

(** [NewIfmon]: a failed first open is logged and retried later. *)
Definition NewIfmon (w : World) (name alias : string) : Iface :=
  (reopenInterfaces w (mkIface name alias None None 0 0 true)).1.

(** [closeInterfaces]. *)
Definition closeInterfaces (iface : Iface) : Iface :=
  mkIface (name iface) (alias iface) None None 0 0 (open iface).

Definition closeFile (w : World) (fio : option File) : option ioerror :=
  match fio with
  | None => Some ErrInvalid
  | Some f => file_Close w f
  end.

(** [Close]: the handles are dropped, the last counters are kept. *)
Definition Close (w : World) (iface : Iface) : Iface * option ioerror :=
  if negb (open iface) then (iface, Some ErrClosed) else
  match closeFile w (fioSend iface) with
  | Some err => (iface, Some err)
  | None =>
      match closeFile w (fioRecv iface) with
      | Some err => (iface, Some err)
      | None =>
          (mkIface (name iface) (alias iface) None None
                   (lastSend iface) (lastRecv iface) false, None)
      end
  end.

(** [strconv.ParseUint(v, 10, 64)]. *)
Fixpoint parseDigits (l : list byte) (acc : Z) : ioerror + Z :=
  match l with
  | [] => inr acc
  | b :: l' =>
      let c := Z_of_byte b in
      if (48 <=? c) && (c <=? 57) then
        let acc' := acc * 10 + (c - 48) in
        if 2 ^ 64 <=? acc' then inl ErrRange else parseDigits l' acc'
      else inl ErrSyntax
  end.

Definition ParseUint (v : list byte) : ioerror + Z :=
  match v with
  | [] => inl ErrSyntax
  | _ => parseDigits v 0
  end.

(** [getFioInt]. A read of a non-empty buffer that gives no error gives at
    least one byte, so [bt[rn-1]] is inside the buffer. *)
Definition getFioInt (w : World) (fio : option File) : ioerror + Z :=
  match fio with
  | None => inl ErrInvalid
  | Some f =>
      match file_Seek w f with
      | inl err => inl err
      | inr n =>
          if negb (n =? 0) then inl ErrFailedSeek else
          match file_Read w f with
          | inl err => inl err
          | inr bytes =>
              let bt := take 64 bytes in
              let rn := length bt in
              if negb (Z_of_byte (List.last bt Byte.x00) =? 10)
                 || (rn <? 2)%nat
              then inl ErrInvalidData
              else ParseUint (take (rn - 1) bt)
          end
      end
  end.

(** [GetStats]: send bytes, receive bytes, error. *)
Definition GetStats (w : World) (iface : Iface)
  : Iface * (Z * Z * option ioerror) :=
  let '(iface, reopenErr) :=
    if isNil (fioSend iface) || isNil (fioRecv iface)
    then reopenInterfaces w iface else (iface, None) in
  match reopenErr with
  | Some _ => (iface, (0, 0, None))
  | None =>
      match getFioInt w (fioRecv iface) with
      | inl _ => (closeInterfaces iface, (0, 0, None))
      | inr rx =>
          match getFioInt w (fioSend iface) with
          | inl _ => (closeInterfaces iface, (0, 0, None))
          | inr tx =>
              let sendInt := u64 (tx - lastSend iface) in
              let recvInt := u64 (rx - lastRecv iface) in
              let sendInt := if lastSend iface =? 0 then 0 else sendInt in
              let recvInt := if lastRecv iface =? 0 then 0 else recvInt in
              (mkIface (name iface) (alias iface) (fioSend iface)
                       (fioRecv iface) tx rx (open iface),
               (sendInt, recvInt, None))
          end
      end
  end.

(** A call of [GetStats] that gets as far as reading both counters: the
    handles are there, or are reopened, and both reads parse. *)
Definition readsCounters (w : World) (iface : Iface) (rx tx : Z) : Prop :=
  exists iface',
    (if isNil (fioSend iface) || isNil (fioRecv iface)
     then reopenInterfaces w iface else (iface, None)) = (iface', None)
    /\ getFioInt w (fioRecv iface') = inr rx
    /\ getFioInt w (fioSend iface') = inr tx.

End Ifmon.

(** ** The live fan-out (live.go) *)

Module Live.

(** The [LiveConsumer] interface; a consumer is the state behind the
    pointer, the methods give its next state and their error. *)
Class LiveConsumer (C : Type) : Type := {
  Write : C -> string -> BWSample -> C * option error;
  Close : C -> C * option error
}.

(** A call made on the consumer registered as [id], with its result. *)
Inductive Event : Type :=
  | EvWrite (id : Z) (err : option error)
  | EvClose (id : Z) (err : option error).

Section Feeder.

Context {C : Type} `{LiveConsumer C}.

Record LiveFeeder : Type := mkLiveFeeder {
  liveIds : Z;
  liveConsumers : gmap Z C
}.

Definition NewLiveFeeder : LiveFeeder := mkLiveFeeder 0 ∅.

Definition RegisterLiveFeeder (lf : LiveFeeder) (lc : C)
  : LiveFeeder * (Z * option error) :=
  let ids := i64 (liveIds lf + 1) in
  (mkLiveFeeder ids (<[ids := lc]> (liveConsumers lf)), (ids, None)).

Definition DeregisterLiveFeeder (lf : LiveFeeder) (id : Z)
  : LiveFeeder * list Event * option error :=
  match liveConsumers lf !! id with
  | None => (lf, [], None)
  | Some lc =>
      (mkLiveFeeder (liveIds lf) (delete id (liveConsumers lf)),
       [EvClose id (Close lc).2], (Close lc).2)
  end.

(** One turn of the [range] loop of [ServiceLiveFeeders], at key [k]:
    a key that is no longer in the map is not visited. *)
Definition serviceOne (name : string) (s : BWSample)
    (acc : gmap Z C * list Event) (k : Z) : gmap Z C * list Event :=
  match acc.1 !! k with
  | None => acc
  | Some v =>
      match Write v name s with
      | (v', Some err) =>
          (delete k acc.1, acc.2 ++ [EvWrite k (Some err); EvClose k (Close v').2])
      | (v', None) => (<[k := v']> acc.1, acc.2 ++ [EvWrite k None])
      end
  end.

(** [ServiceLiveFeeders]; Go leaves the order of a [range] over a map open,
    [order] is the one taken. The result lists the calls made on consumers. *)
Definition ServiceLiveFeeders (order : list Z) (lf : LiveFeeder)
    (name : string) (s : BWSample) : LiveFeeder * list Event * option error :=
  let '(m, evs) := foldl (serviceOne name s) (liveConsumers lf, []) order in
  (mkLiveFeeder (liveIds lf) m, evs, None).

(** [order] walks every key of the map once. *)
Definition rangeOrder (order : list Z) (lf : LiveFeeder) : Prop :=
  NoDup order /\ forall k, k ∈ order <-> is_Some (liveConsumers lf !! k).

End Feeder.

Arguments LiveFeeder C : clear implicits.

End Live.

(** ** Notions the statements below are written in *)

(** The value insert-or-sum leaves under a key that held [old]. *)
Definition merged (old : option (list byte)) (s : BWSample)
  : error + list byte :=
  match old with
  | None => inr (Sample.Encode s)
  | Some v =>
      match Sample.Decode newVar v with
      | inl err => inl err
      | inr sold =>
          inr (Sample.Encode
                 (mkBWSample (Ts sold)
                             (u64 (BytesUp sold + BytesUp s))
                             (u64 (BytesDown sold + BytesDown s))))
      end
  end.

(** The bucket an out-of-order sample goes to, with the layout of its keys:
    same minute of the hour as [last], else same hour of the day, else same
    day of the month, else the month bucket. *)
Definition outOfOrderTarget (s : BWSample) (last : Time) : string * Layout :=
  if MinuteOf (Ts s) =? MinuteOf last then (bktMin, minFmt)
  else if HourOf (Ts s) =? HourOf last then (bktHour, hourFmt)
  else if DayOf (Ts s) =? DayOf last then (bktDay, dayFmt)
  else (bktMon, monFmt).

(** A subscriber that takes [n] more samples and then fails. *)
#[local] Instance countdown_consumer : Live.LiveConsumer nat := {|
  Live.Write n _ _ :=
    match n with
    | O => (O, Some errNotOpen)
    | S n' => (n', None)
    end;
  Live.Close n := (n, None)
|}.

(** Checks over an initial segment of the integers. *)
Fixpoint allBelow (n : nat) (P : Z -> bool) : bool :=
  match n with
  | O => true
  | S n' => P (Z.of_nat n') && allBelow n' P
  end.

(** [appendInt n 2] is two digits that read back as [n]. *)
Definition twoDigits (n : Z) : bool :=
  match appendInt n 2 with
  | String c0 (String c1 EmptyString) =>
      isDigit c0 && isDigit c1 && (digitVal c0 * 10 + digitVal c1 =? n)
  | _ => false
  end.

(** [appendInt n 4] is four digits that read back as [n]. *)
Definition fourDigits (n : Z) : bool :=
  match appendInt n 4 with
  | String c0 (String c1 (String c2 (String c3 EmptyString))) =>
      isDigit c0 && isDigit c1 && isDigit c2 && isDigit c3
      && (((digitVal c0 * 10 + digitVal c1) * 10 + digitVal c2) * 10
          + digitVal c3 =? n)
  | _ => false
  end.

(** Range tests that fail, rewritten to [false]. *)
Ltac range_false :=
  repeat match goal with
  | |- context [?a <=? ?b] =>
      replace (a <=? b) with false by (symmetry; apply Z.leb_gt; lia)
  | |- context [?a <? ?b] =>
      replace (a <? b) with false by (symmetry; apply Z.ltb_ge; lia)
  end.

(** ** The scenarios of the repository's tests *)

(** [n] samples, [step] apart, the first at [t], each carrying what [bytes]
    makes of its timestamp. *)
Fixpoint samplesFrom (n : nat) (t step : Z) (bytes : Time -> Z)
  : list BWSample :=
  match n with
  | O => []
  | S n' => mkBWSample t (bytes t) (bytes t) :: samplesFrom n' (t + step) step bytes
  end.

(** A fresh engine with a ring of 20 on an empty store, as [TestCreate]. *)
Definition testDb : Bwdb.bwdb := Bwdb.mkBwdb true ∅ [] 20 zeroTime.

(** [TestDbAddSeconds]: 119 samples a second apart from the epoch, each
    carrying the minute of its timestamp. *)
Definition afterAddSeconds : Bwdb.bwdb :=
  calls noFault testDb (CallAdd <$> samplesFrom 119 Second Second MinuteOf).

(** [TestRollover]: after a purge, 60 samples of (1, 1) a minute apart from
    2016-01-01 01:00:00, then one of (1000, 1000) at 02:00:00. *)
Definition afterRollover : Bwdb.bwdb :=
  calls noFault testDb
    ((CallAdd <$> samplesFrom 60 (Date 2016 1 1 1 0) Minute (fun _ => 1))
       ++ [CallAdd (mkBWSample (Date 2016 1 1 2 0) 1000 1000)]).

(** ** The websocket subscriber of the web server

    The channel of a [liveWSFeeder]: what is queued, whether it was closed,
    and whether a send or a close hit it after it was closed (Go panics). *)

Module WS.

Definition chanBufferSize : nat := 8.

Record namedBwSample : Type := mkNamed {
  Name : string;
  Data : BWSample
}.

Record liveWSFeeder : Type := mkFeeder {
  ch : list namedBwSample;
  closed : bool;
  panicked : bool
}.

(** [&liveWSFeeder{ch: make(chan namedBwSample, chanBufferSize)}]. *)
Definition newFeeder : liveWSFeeder := mkFeeder [] false false.

(** [Write]: the type assertion holds for every sample here; the [select]
    sends when the channel has room and gives up at once when it has not. *)
Definition Write (wsf : liveWSFeeder) (name : string) (s : BWSample)
  : liveWSFeeder * option error :=
  if closed wsf then (mkFeeder (ch wsf) true true, None)
  else if (length (ch wsf) <? chanBufferSize)%nat
  then (mkFeeder (ch wsf ++ [mkNamed name s]) false (panicked wsf), None)
  else (wsf, None).

(** [Close]: [close(wsf.ch)]. *)
Definition Close (wsf : liveWSFeeder) : liveWSFeeder * option error :=
  if closed wsf then (mkFeeder (ch wsf) true true, None)
  else (mkFeeder (ch wsf) true (panicked wsf), None).

End WS.

#[global] Instance liveWSFeeder_consumer : Live.LiveConsumer WS.liveWSFeeder := {|
  Live.Write := WS.Write;
  Live.Close := WS.Close
|}.

(** Samples added one after the other into [a], as [a.Add(x)] does. *)
Definition addAll (a : BWSample) (l : list BWSample) : BWSample :=
  foldl (fun a x => match Sample.Add a x with inr r => r | inl _ => a end) a l.

(** The four buckets, each with the layout of its keys. *)
Definition fourBuckets : list (string * Layout) :=
  [(bktMin, minFmt); (bktHour, hourFmt); (bktDay, dayFmt); (bktMon, monFmt)].

(** The sample falls in the hour, day and month of [t]: the three label
    tests of [Add] find nothing to roll up. *)
Definition samePeriod (s : BWSample) (t : Time) : Prop :=
  Sample.TimeLabel s hourFmt = Format hourFmt t
  /\ Sample.TimeLabel s dayFmt = Format dayFmt t
  /\ Sample.TimeLabel s monFmt = Format monFmt t.

(** [es] is what the pairs [l] decode to, one by one. *)
Definition decodesTo (l : list (string * list byte)) (es : list BWSample)
  : Prop :=
  Forall2 (fun kv e => Sample.Decode newVar kv.2 = inr e) l es.

(** The sample sum-and-shift has accumulated after the samples [es]: their
    sums, stamped as the last of them (as the factory's sample when there is
    none). *)
Definition accumulated (es : list BWSample) : BWSample :=
  mkBWSample (default zeroTime (Ts <$> last es))
             (u64 (sumUp es)) (u64 (sumDown es)).

(** The byte counts a stored value stands for (none when it does not
    decode), and their totals over a bucket and over the four buckets. *)
Definition upOf (v : list byte) : Z :=
  match Sample.Decode newVar v with inr s => BytesUp s | inl _ => 0 end.

Definition downOf (v : list byte) : Z :=
  match Sample.Decode newVar v with inr s => BytesDown s | inl _ => 0 end.

Definition bucketSum (f : list byte -> Z) (b : Bucket) : Z :=
  foldr (fun kv a => f kv.2 + a) 0 (map_to_list b).

Definition storeSum (f : list byte -> Z) (st : Store) : Z :=
  bucketSum f (bucketOf st bktMin) + bucketSum f (bucketOf st bktHour)
  + bucketSum f (bucketOf st bktDay) + bucketSum f (bucketOf st bktMon).

(** The start of the minute of a time. *)
Definition startOfMinute (t : Time) : Time := t / Minute * Minute.

(** Calls on a sampler, each with what the operating system answers while
    it runs, and a run of them. *)
Inductive IfCall : Type :=
  | IfGetStats
  | IfClose.

Definition ifcall (iface : Ifmon.Iface) (wc : Ifmon.World * IfCall)
  : Ifmon.Iface :=
  match wc.2 with
  | IfGetStats => (Ifmon.GetStats wc.1 iface).1
  | IfClose => (Ifmon.Close wc.1 iface).1
  end.

Definition ifcalls (iface : Ifmon.Iface) (wcs : list (Ifmon.World * IfCall))
  : Ifmon.Iface :=
  foldl ifcall iface wcs.

(** Both files are held, or none is; the last counters are [uint64]s. *)
Definition sampler_ok (iface : Ifmon.Iface) : Prop :=
  Ifmon.isNil (Ifmon.fioSend iface) = Ifmon.isNil (Ifmon.fioRecv iface)
  /\ is_u64 (Ifmon.lastSend iface) /\ is_u64 (Ifmon.lastRecv iface).

(** The ids in use are positive and at most the last id handed out. *)
Definition idsInUse {C : Type} (lf : Live.LiveFeeder C) : Prop :=
  0 <= Live.liveIds lf
  /\ forall k, is_Some (Live.liveConsumers lf !! k) -> 0 < k <= Live.liveIds lf.

(** One receive of the [for s := range wsf.ch] loop of the web server's
    live handler: the oldest queued sample, if there is one. *)
Definition wsRecv (wsf : WS.liveWSFeeder)
  : option WS.namedBwSample * WS.liveWSFeeder :=
  match WS.ch wsf with
  | [] => (None, wsf)
  | x :: rest => (Some x, WS.mkFeeder rest (WS.closed wsf) (WS.panicked wsf))
  end.

(** What happens to a websocket subscriber: samples written to it, samples
    taken by its handler. *)
Inductive WsStep : Type :=
  | WsWrite (name : string) (s : BWSample)
  | WsRecv.

Definition wsStep (wsf : WS.liveWSFeeder) (st : WsStep) : WS.liveWSFeeder :=
  match st with
  | WsWrite name s => (WS.Write wsf name s).1
  | WsRecv => (wsRecv wsf).2
  end.

(** A subscriber's channel is open, was never hit after a close, and holds
    no more than its capacity. *)
Definition wsOpen (wsf : WS.liveWSFeeder) : Prop :=
  WS.closed wsf = false /\ WS.panicked wsf = false
  /\ (length (WS.ch wsf) <= WS.chanBufferSize)%nat.

(** Every stored value has the size of an encoded sample. *)
Definition wellSized (st : Store) : Prop :=
  forall b k v, bucketOf st b !! k = Some v -> length v = bwSampleSize.

(** A transaction body that keeps the store well sized when it returns. *)
Definition keepsSized {A : Type} (m : Tx A) : Prop :=
  forall st a st', m st = inr (a, st') -> wellSized st -> wellSized st'.

(** A transaction body that, on a well sized store, returns without error
    and leaves a well sized store. *)
Definition runsSized {A : Type} (m : Tx A) : Prop :=
  forall st, wellSized st -> exists a st', m st = inr (a, st') /\ wellSized st'.

(** [GetStats] called once for each of the worlds [ws], with what it
    reported each time: bytes sent, bytes received. *)
Fixpoint getStatsAll (iface : Ifmon.Iface) (ws : list Ifmon.World)
  : Ifmon.Iface * list (Z * Z) :=
  match ws with
  | [] => (iface, [])
  | w :: ws' =>
      let r := Ifmon.GetStats w iface in
      let r' := getStatsAll r.1 ws' in
      (r'.1, r.2.1 :: r'.2)
  end.

(** Each call of the run reads both counters, [rx] and [tx], neither 0. *)
Fixpoint readsAll (iface : Ifmon.Iface)
    (steps : list (Ifmon.World * (Z * Z))) : Prop :=
  match steps with
  | [] => True
  | (w, (rx, tx)) :: rest =>
      Ifmon.readsCounters w iface rx tx /\ 0 < rx /\ 0 < tx
      /\ readsAll (Ifmon.GetStats w iface).1 rest
  end.

Definition sumZ (l : list Z) : Z := foldr Z.add 0 l.

(** The count a bucket holds under a key, 0 when the key is absent. *)
Definition keyCount (f : list byte -> Z) (st : Store) (b k : string) : Z :=
  default 0 (f <$> bucketOf st b !! k).

(** The sum of a count over samples. *)
Definition sumOf (g : BWSample -> Z) (l : list BWSample) : Z :=
  foldr (fun s a => g s + a) 0 l.

(** What the pairs [l] of a source bucket bring under the destination key
    [K] when [shiftIfOlder] walks them: the counts of the entries stamped
    before the cutoff whose timestamp formats to [K]. *)
Definition movedCount (f : list byte -> Z) (tcheck : Time) (keyFmt : Layout)
    (K : string) (l : list (string * list byte)) : Z :=
  foldr
    (fun kv a =>
       match Sample.Decode newVar kv.2 with
       | inr s =>
           if Before (Sample.TS s) tcheck
              && String.eqb (Format keyFmt (Sample.TS s)) K
           then f kv.2 + a else a
       | inl _ => a
       end)
    0 l.

(** What the store holds after samples counting [n] were added, all in the
    hour of [t1]: [n] in the minute bucket as a whole, and [n] under the
    hour's key and under the day's key; [last] is unset or in that hour. *)
Definition holdsHour (f : list byte -> Z) (t1 : Time) (d : Bwdb.bwdb) (n : Z)
  : Prop :=
  Bwdb.open d = true
  /\ (Bwdb.last d = zeroTime \/ samePeriod (mkBWSample (Bwdb.last d) 0 0) t1)
  /\ u64 (bucketSum f (bucketOf (Bwdb.db d) bktMin)) = u64 n
  /\ u64 (keyCount f (Bwdb.db d) bktHour (Format hourFmt t1)) = u64 n
  /\ u64 (keyCount f (Bwdb.db d) bktDay (Format dayFmt t1)) = u64 n.

(** * Properties *)

(** ** Facts on bytes and words *)

Lemma Z_of_byte_range (b : byte) : 0 <= Z_of_byte b < 256.
Proof.
  unfold Z_of_byte. pose proof (Byte.to_N_bounded b). lia.
Qed.

Lemma Z_of_byte_of_Z (z : Z) : Z_of_byte (byte_of_Z z) = z mod 256.
Proof.
  unfold Z_of_byte, byte_of_Z.
  assert (Hr : 0 <= z mod 256 < 256) by (apply Z.mod_pos_bound; lia).
  destruct (Byte.of_N (Z.to_N (z mod 256))) as [b|] eqn:E.
  - apply Byte.to_of_N in E. rewrite E. lia.
  - apply Byte.of_N_None_iff in E. lia.
Qed.

Lemma byte_of_Z_of_byte (b : byte) : byte_of_Z (Z_of_byte b) = b.
Proof.
  unfold byte_of_Z. pose proof (Z_of_byte_range b) as Hr.
  rewrite Z.mod_small by lia. unfold Z_of_byte.
  rewrite N2Z.id, Byte.of_to_N. reflexivity.
Qed.

Lemma length_putLE (n : nat) (v : Z) : length (putLE n v) = n.
Proof. revert v. induction n as [|n IH]; intros v; simpl; [done|]. by rewrite IH. Qed.

Lemma getLE_range (l : list byte) : 0 <= getLE l < 256 ^ Z.of_nat (length l).
Proof.
  induction l as [|b l IH]; simpl getLE.
  - simpl. lia.
  - pose proof (Z_of_byte_range b).
    replace (Z.of_nat (length (b :: l))) with (Z.succ (Z.of_nat (length l)))
      by (simpl length; lia).
    rewrite Z.pow_succ_r by lia. lia.
Qed.

Lemma getLE_putLE (n : nat) (v : Z) :
  getLE (putLE n v) = v mod 256 ^ Z.of_nat n.
Proof.
  revert v. induction n as [|n IH]; intros v.
  - simpl. by rewrite Z.mod_1_r.
  - cbn [putLE getLE]. rewrite Z_of_byte_of_Z, IH, Z.mod_mod by lia.
    replace (Z.of_nat (S n)) with (Z.succ (Z.of_nat n)) by lia.
    rewrite Z.pow_succ_r by lia.
    rewrite (Z.rem_mul_r v 256 (256 ^ Z.of_nat n)) by lia. reflexivity.
Qed.

Lemma putLE_getLE (l : list byte) : putLE (length l) (getLE l) = l.
Proof.
  induction l as [|b l IH]; [done|].
  cbn [length putLE getLE]. pose proof (Z_of_byte_range b) as Hb.
  rewrite <- (Z.mod_unique_pos _ 256 (getLE l) (Z_of_byte b)) by lia.
  rewrite <- (Z.div_unique_pos _ 256 (getLE l) (Z_of_byte b)) by lia.
  by rewrite byte_of_Z_of_byte, IH.
Qed.

Lemma putLE_mod (n : nat) (v : Z) : putLE n (v mod 256 ^ Z.of_nat n) = putLE n v.
Proof.
  rewrite <- (getLE_putLE n v).
  rewrite <- (length_putLE n v) at 1. apply putLE_getLE.
Qed.

Lemma u64_small (z : Z) : is_u64 z -> u64 z = z.
Proof. unfold is_u64, u64. intros H. by apply Z.mod_small. Qed.

Lemma u64_range (z : Z) : is_u64 (u64 z).
Proof. unfold is_u64, u64. apply Z.mod_pos_bound. lia. Qed.

Lemma i64_small (z : Z) : is_i64 z -> i64 z = z.
Proof. unfold is_i64, i64. intros H. rewrite Z.mod_small; lia. Qed.

Lemma i64_range (z : Z) : is_i64 (i64 z).
Proof.
  unfold is_i64, i64.
  pose proof (Z.mod_pos_bound (z + 2 ^ 63) (2 ^ 64)). lia.
Qed.

Lemma i64_mod (z : Z) : i64 z mod 2 ^ 64 = z mod 2 ^ 64.
Proof.
  unfold i64.
  rewrite <- Zminus_mod_idemp_l, Z.mod_mod by lia.
  rewrite Zminus_mod_idemp_l. f_equal. lia.
Qed.

Lemma i64_u64 (z : Z) : i64 (z mod 2 ^ 64) = i64 z.
Proof.
  unfold i64. rewrite Zplus_mod_idemp_l. reflexivity.
Qed.

(** ** The sample record: encode and decode *)

Lemma length_Encode (s : BWSample) : length (Sample.Encode s) = bwSampleSize.
Proof. unfold Sample.Encode. by rewrite !length_app, !length_putLE. Qed.

Lemma Decode_Encode (r s : BWSample) :
  Sample.Decode r (Sample.Encode s)
  = inr (mkBWSample (i64 (Ts s)) (u64 (BytesUp s)) (u64 (BytesDown s))).
Proof.
  unfold Sample.Decode. rewrite length_Encode. simpl negb. cbv iota.
  unfold Sample.Encode, UnixNano, Unix0.
  rewrite take_app_length' by (by rewrite length_putLE).
  replace 16%nat with (8 + 8)%nat by done.
  rewrite <- drop_drop.
  rewrite !drop_app_length' by (by rewrite length_putLE).
  rewrite take_app_length' by (by rewrite length_putLE).
  rewrite firstn_all2 by (rewrite length_putLE; lia).
  rewrite !getLE_putLE.
  change (256 ^ Z.of_nat 8) with (2 ^ 64).
  rewrite i64_u64, (i64_small (i64 _)) by apply i64_range.
  reflexivity.
Qed.

Lemma Decode_length (r : BWSample) (b : list byte) :
  length b = bwSampleSize -> exists s, Sample.Decode r b = inr s.
Proof.
  intros Hl. unfold Sample.Decode. rewrite Hl. simpl. eauto.
Qed.

Lemma Decode_inr_length (r s : BWSample) (b : list byte) :
  Sample.Decode r b = inr s -> length b = bwSampleSize.
Proof.
  unfold Sample.Decode. destruct (Nat.eqb_spec (length b) bwSampleSize); [done|].
  simpl. discriminate.
Qed.

Lemma Decode_receiver (r r' : BWSample) (b : list byte) :
  Sample.Decode r b = Sample.Decode r' b.
Proof. reflexivity. Qed.

(** Re-encoding what a stored value decodes to gives the stored bytes back. *)
Lemma Encode_Decode (r s : BWSample) (b : list byte) :
  Sample.Decode r b = inr s -> Sample.Encode s = b.
Proof.
  intros Hd. pose proof (Decode_inr_length _ _ _ Hd) as Hl.
  unfold Sample.Decode in Hd. rewrite Hl in Hd. simpl in Hd.
  injection Hd as <-. unfold Sample.Encode, UnixNano, Unix0.
  cbn [Ts BytesUp BytesDown].
  rewrite (i64_small (i64 _)) by apply i64_range.
  assert (H8 : forall l : list byte, length l = 8%nat ->
                 putLE 8 (getLE l) = l).
  { intros l Hl8. rewrite <- Hl8 at 1. apply putLE_getLE. }
  assert (H8i : forall l : list byte, length l = 8%nat ->
                  putLE 8 (i64 (getLE l)) = l).
  { intros l Hl8. rewrite <- (putLE_mod 8). change (256 ^ Z.of_nat 8) with (2 ^ 64).
    rewrite i64_mod. change (2 ^ 64) with (256 ^ Z.of_nat 8).
    rewrite putLE_mod. by apply H8. }
  unfold bwSampleSize in Hl.
  rewrite H8i, !H8 by (rewrite ?length_take, ?length_drop; lia).
  transitivity (take 8 b ++ drop 8 b); [|apply take_drop]. f_equal.
  transitivity (take 8 (drop 8 b) ++ drop 8 (drop 8 b)); [|apply take_drop].
  f_equal. rewrite drop_drop. change (8 + 8)%nat with 16%nat.
  apply firstn_all2. rewrite length_drop. lia.
Qed.

(** C5, as stated, fails at the sample the factory makes: its timestamp, the
    zero time of year 1, is outside what [UnixNano] can hold. *)
Lemma C5_roundtrip_fails_at_zero_time :
  Sample.Decode newVar (Sample.Encode NewBwSample) <> inr NewBwSample.
Proof. vm_compute. discriminate. Qed.

(** C5 (amended): decoding an encoded sample gives the sample back, byte
    counts and nanosecond timestamp, when the timestamp is an [int64] count of
    nanoseconds (years 1678 to 2262); a buffer of any length but 24 is
    refused with [errInvalidBufferSize], a buffer of length 24 is decoded. *)
Theorem C5_roundtrip_in_range (r s : BWSample) (b : list byte) :
  sample_ok s ->
  is_i64 (Ts s) ->
  Sample.Decode r (Sample.Encode s) = inr s
  /\ (length b <> 24%nat -> Sample.Decode r b = inl errInvalidBufferSize)
  /\ (length b = 24%nat -> exists s', Sample.Decode r b = inr s').
Proof.
  intros [Hup Hdown] Hts. split; [|split].
  - rewrite Decode_Encode, i64_small, !u64_small by done. by destruct s.
  - intros Hl. unfold Sample.Decode.
    destruct (Nat.eqb_spec (length b) bwSampleSize) as [E|E]; [done|done].
  - apply Decode_length.
Qed.

Lemma C5_roundtrip_in_range_witness :
  let s := mkBWSample (Date 2016 1 1 1 0 + 123456789) 1000 (2 ^ 64 - 1) in
  Sample.Decode newVar (Sample.Encode s) = inr s
  /\ (length [Byte.x00] <> 24%nat ->
      Sample.Decode newVar [Byte.x00] = inl errInvalidBufferSize)
  /\ (length [Byte.x00] = 24%nat ->
      exists s', Sample.Decode newVar [Byte.x00] = inr s').
Proof.
  apply (C5_roundtrip_in_range newVar
           (mkBWSample (Date 2016 1 1 1 0 + 123456789) 1000 (2 ^ 64 - 1))
           [Byte.x00]).
  - unfold sample_ok, is_u64; simpl; lia.
  - unfold is_i64; vm_compute; split; [discriminate | reflexivity].
Defined.

(** ** The store *)

Lemma bucketOf_insert (st : Store) (b : string) (x : Bucket) :
  bucketOf (<[b := x]> st) b = x.
Proof. unfold bucketOf. by rewrite lookup_insert_eq. Qed.

Lemma bucketOf_insert_ne (st : Store) (b b' : string) (x : Bucket) :
  b <> b' -> bucketOf (<[b := x]> st) b' = bucketOf st b'.
Proof. intros Hne. unfold bucketOf. by rewrite lookup_insert_ne. Qed.

Lemma bucketOf_create (st : Store) (b b' : string) :
  bucketOf (match st !! b with Some _ => st | None => <[b := ∅]> st end) b'
  = bucketOf st b'.
Proof.
  destruct (st !! b) eqn:E; [done|].
  destruct (decide (b = b')) as [->|Hne].
  - rewrite bucketOf_insert. unfold bucketOf. by rewrite E.
  - by apply bucketOf_insert_ne.
Qed.

Lemma entries_empty : entries ∅ = [].
Proof. unfold entries. by rewrite map_to_list_empty. Qed.

Lemma entries_perm (b : Bucket) : entries b ≡ₚ map_to_list b.
Proof. unfold entries. apply merge_sort_Permutation. Qed.

Lemma elem_of_entries (b : Bucket) (k : string) (v : list byte) :
  (k, v) ∈ entries b <-> b !! k = Some v.
Proof. rewrite entries_perm. apply elem_of_map_to_list. Qed.

Section EngineFacts.

Variable fault : StoreOp -> bool.

Lemma CreateBucketIfNotExists_eq (b : string) (st : Store) :
  bolt.CreateBucketIfNotExists fault b st
  = if fault (OpCreateBucket b) then inl (errStorage (OpCreateBucket b))
    else inr (tt, match st !! b with Some _ => st | None => <[b := ∅]> st end).
Proof.
  unfold bolt.CreateBucketIfNotExists, bolt.guard, tx_bind, tx_fail, tx_ret.
  destruct (fault _); [done|]. by destruct (st !! b).
Qed.

Lemma Put_eq (b k : string) (v : list byte) (st : Store) :
  bolt.Put fault b k v st
  = if fault (OpPut b k) then inl (errStorage (OpPut b k))
    else inr (tt, <[b := <[k := v]> (bucketOf st b)]> st).
Proof.
  unfold bolt.Put, bolt.guard, tx_bind, tx_fail, tx_ret. by destruct (fault _).
Qed.

Lemma Delete_eq (b k : string) (st : Store) :
  bolt.Delete fault b k st
  = if fault (OpDelete b k) then inl (errStorage (OpDelete b k))
    else inr (tt, <[b := delete k (bucketOf st b)]> st).
Proof.
  unfold bolt.Delete, bolt.guard, tx_bind, tx_fail, tx_ret. by destruct (fault _).
Qed.

(** Insert-or-sum, in one equation. *)
Lemma updateVal_eq (b k : string) (s : BWSample) (st : Store) :
  Bwdb.updateVal fault b k s st
  = match merged (bucketOf st b !! k) s with
    | inl err => inl err
    | inr v =>
        if fault (OpPut b k) then inl (errStorage (OpPut b k))
        else inr (tt, <[b := <[k := v]> (bucketOf st b)]> st)
    end.
Proof.
  unfold Bwdb.updateVal, bolt.Get, merged. unfold tx_bind at 1.
  destruct (bucketOf st b !! k) as [v|]; [|apply Put_eq].
  destruct (Sample.Decode newVar v) as [err|sold]; [done|].
  apply Put_eq.
Qed.

Lemma updateVal_inr (b k : string) (s : BWSample) (st st' : Store) (u : unit) :
  Bwdb.updateVal fault b k s st = inr (u, st') ->
  exists v, merged (bucketOf st b !! k) s = inr v
            /\ st' = <[b := <[k := v]> (bucketOf st b)]> st.
Proof.
  rewrite updateVal_eq.
  destruct (merged _ s) as [err|v]; [done|].
  destruct (fault _); [done|]. intros [= <-]. eauto.
Qed.

(** ** Insert-or-sum, over a run of writes *)

Lemma Decode_ranges (r a : BWSample) (b : list byte) :
  Sample.Decode r b = inr a ->
  is_i64 (Ts a) /\ is_u64 (BytesUp a) /\ is_u64 (BytesDown a).
Proof.
  intros Hd. pose proof (Decode_inr_length _ _ _ Hd) as Hl.
  unfold Sample.Decode in Hd. rewrite Hl in Hd. simpl in Hd.
  injection Hd as <-. cbn [Ts BytesUp BytesDown]. unfold Unix0.
  assert (H8 : forall l : list byte, length l = 8%nat -> is_u64 (getLE l)).
  { intros l Hl8. pose proof (getLE_range l) as Hr. rewrite Hl8 in Hr.
    exact Hr. }
  unfold bwSampleSize in Hl.
  split; [apply i64_range|].
  split; apply H8; rewrite length_take, length_drop; lia.
Qed.

Lemma writtenTo_cons_eq (key : string) (s : BWSample)
    (ops : list (string * BWSample)) :
  writtenTo key ((key, s) :: ops) = s :: writtenTo key ops.
Proof. unfold writtenTo. rewrite filter_cons_True by done. done. Qed.

Lemma writtenTo_cons_ne (key k : string) (s : BWSample)
    (ops : list (string * BWSample)) :
  k <> key -> writtenTo key ((k, s) :: ops) = writtenTo key ops.
Proof. intros Hne. unfold writtenTo. by rewrite filter_cons_False. Qed.

Lemma sumUp_cons (s : BWSample) (l : list BWSample) :
  sumUp (s :: l) = BytesUp s + sumUp l.
Proof. reflexivity. Qed.

Lemma sumDown_cons (s : BWSample) (l : list BWSample) :
  sumDown (s :: l) = BytesDown s + sumDown l.
Proof. reflexivity. Qed.

Lemma u64_add_l (a b : Z) : u64 (u64 a + b) = u64 (a + b).
Proof. unfold u64. by rewrite Zplus_mod_idemp_l. Qed.

Lemma updateAll_cons_inr (bkt k : string) (s : BWSample)
    (ops : list (string * BWSample)) (st st' : Store) :
  updateAll fault bkt ((k, s) :: ops) st = inr (tt, st') ->
  exists v, merged (bucketOf st bkt !! k) s = inr v
    /\ updateAll fault bkt ops (<[bkt := <[k := v]> (bucketOf st bkt)]> st)
       = inr (tt, st').
Proof.
  cbn [updateAll]. unfold tx_bind at 1.
  destruct (Bwdb.updateVal fault bkt k s st) as [err|[u st1]] eqn:E; [done|].
  apply updateVal_inr in E as (v & Hm & ->). eauto.
Qed.

(** A key that holds a sample: the writes add to its byte counts and leave
    its timestamp. *)
Lemma updateAll_some (bkt key : string) (ops : list (string * BWSample)) :
  forall (st st' : Store) (v0 : list byte) (a : BWSample),
    bucketOf st bkt !! key = Some v0 ->
    Sample.Decode newVar v0 = inr a ->
    updateAll fault bkt ops st = inr (tt, st') ->
    exists v, bucketOf st' bkt !! key = Some v
      /\ Sample.Decode newVar v
         = inr (mkBWSample (Ts a)
                  (u64 (BytesUp a + sumUp (writtenTo key ops)))
                  (u64 (BytesDown a + sumDown (writtenTo key ops)))).
Proof.
  induction ops as [|[k s] ops IH]; intros st st' v0 a Hlk Hd Hrun.
  - injection Hrun as <-. exists v0. split; [done|]. rewrite Hd.
    apply Decode_ranges in Hd as (_ & Hu & Hdn).
    cbn [writtenTo filter list_filter fmap list_fmap sumUp sumDown foldr].
    rewrite !Z.add_0_r, !u64_small by done. by destruct a.
  - apply updateAll_cons_inr in Hrun as (v & Hm & Hrun).
    destruct (decide (k = key)) as [->|Hne].
    + rewrite Hlk in Hm. cbn [merged] in Hm. rewrite Hd in Hm.
      injection Hm as <-.
      set (a' := mkBWSample (Ts a) (u64 (BytesUp a + BytesUp s))
                            (u64 (BytesDown a + BytesDown s))) in *.
      assert (Hd1 : Sample.Decode newVar (Sample.Encode a') = inr a').
      { rewrite Decode_Encode. subst a'. cbn [Ts BytesUp BytesDown].
        apply Decode_ranges in Hd as (Ht & _ & _).
        rewrite (i64_small _ Ht), !(u64_small (u64 _)) by apply u64_range.
        reflexivity. }
      destruct (IH _ st' _ a' (eq_trans (f_equal (fun m => m !! key)
                  (bucketOf_insert st bkt _)) (lookup_insert_eq _ _ _)) Hd1 Hrun)
        as (v' & Hlk' & Hd').
      exists v'. split; [exact Hlk'|]. rewrite Hd'.
      rewrite writtenTo_cons_eq, sumUp_cons, sumDown_cons. subst a'.
      cbn [Ts BytesUp BytesDown].
      rewrite !u64_add_l, !Z.add_assoc. reflexivity.
    + rewrite writtenTo_cons_ne by done.
      eapply IH; [|exact Hd|exact Hrun].
      rewrite bucketOf_insert. by rewrite lookup_insert_ne.
Qed.

(** A key that holds nothing: the first write makes the entry, with that
    sample's timestamp. *)
Lemma updateAll_none (bkt key : string) (ops : list (string * BWSample)) :
  forall (st st' : Store),
    bucketOf st bkt !! key = None ->
    updateAll fault bkt ops st = inr (tt, st') ->
    match writtenTo key ops with
    | [] => bucketOf st' bkt !! key = None
    | s1 :: _ =>
        exists v, bucketOf st' bkt !! key = Some v
          /\ Sample.Decode newVar v
             = inr (mkBWSample (i64 (Ts s1))
                      (u64 (sumUp (writtenTo key ops)))
                      (u64 (sumDown (writtenTo key ops))))
    end.
Proof.
  induction ops as [|[k s] ops IH]; intros st st' Hlk Hrun.
  - injection Hrun as <-. done.
  - apply updateAll_cons_inr in Hrun as (v & Hm & Hrun).
    destruct (decide (k = key)) as [->|Hne].
    + rewrite Hlk in Hm. cbn [merged] in Hm. injection Hm as <-.
      rewrite writtenTo_cons_eq.
      destruct (updateAll_some bkt key ops _ st' _ _
                  (eq_trans (f_equal (fun m => m !! key)
                     (bucketOf_insert st bkt _)) (lookup_insert_eq _ _ _))
                  (Decode_Encode newVar s) Hrun) as (v' & Hlk' & Hd').
      exists v'. split; [exact Hlk'|]. rewrite Hd'.
      rewrite sumUp_cons, sumDown_cons. cbn [Ts BytesUp BytesDown].
      by rewrite !u64_add_l.
    + rewrite writtenTo_cons_ne by done.
      eapply IH; [|exact Hrun].
      rewrite bucketOf_insert. by rewrite lookup_insert_ne.
Qed.

(** With no failing write, insert-or-sum into a bucket of well-sized values
    goes through. *)
Lemma updateAll_total (bkt : string) (ops : list (string * BWSample)) :
  (forall k, fault (OpPut bkt k) = false) ->
  forall st : Store,
    (forall k v, bucketOf st bkt !! k = Some v -> length v = bwSampleSize) ->
    exists st', updateAll fault bkt ops st = inr (tt, st').
Proof.
  intros Hf. induction ops as [|[k s] ops IH]; intros st Hwf.
  - by exists st.
  - cbn [updateAll]. unfold tx_bind at 1. rewrite updateVal_eq, Hf.
    assert (Hm : exists v, merged (bucketOf st bkt !! k) s = inr v
                           /\ length v = bwSampleSize).
    { unfold merged. destruct (bucketOf st bkt !! k) as [v0|] eqn:E.
      - destruct (Decode_length newVar v0 (Hwf _ _ E)) as [a ->].
        eexists. split; [done|]. apply length_Encode.
      - eexists. split; [done|]. apply length_Encode. }
    destruct Hm as (v & -> & Hlen). apply IH.
    intros k' v'. rewrite bucketOf_insert.
    destruct (decide (k = k')) as [->|Hne].
    + rewrite lookup_insert_eq. by intros [= <-].
    + rewrite lookup_insert_ne by done. apply Hwf.
Qed.

End EngineFacts.

(** C2, as stated, fails on two samples of one minute: the stored timestamp
    is the one of the first sample written, not the latest. *)
Lemma C2_stored_timestamp_is_not_the_latest :
  let s1 := mkBWSample (Date 2016 1 1 1 0 + 1 * Second) 10 20 in
  let s2 := mkBWSample (Date 2016 1 1 1 0 + 2 * Second) 1 2 in
  let key := Sample.TimeLabel s1 minFmt in
  Sample.TimeLabel s2 minFmt = key
  /\ maxTs [s1; s2] = Ts s2
  /\ exists st' v s,
       updateAll noFault bktMin [(key, s1); (key, s2)] ∅ = inr (tt, st')
       /\ bucketOf st' bktMin !! key = Some v
       /\ Sample.Decode newVar v = inr s
       /\ BytesUp s = 11 /\ BytesDown s = 22
       /\ Ts s = Ts s1
       /\ Ts s <> maxTs [s1; s2].
Proof.
  intros s1 s2 key. split; [by vm_compute|]. split; [by vm_compute|].
  destruct (updateAll_total noFault bktMin [(key, s1); (key, s2)]
              (fun _ => eq_refl) ∅) as [st' Hrun].
  { intros k v. unfold bucketOf. rewrite lookup_empty. simpl.
    by rewrite lookup_empty. }
  pose proof (updateAll_none noFault bktMin key _ ∅ st' eq_refl Hrun) as Hk.
  rewrite !writtenTo_cons_eq in Hk. destruct Hk as (v & Hlk & Hd).
  exists st', v, (mkBWSample (Ts s1) 11 22).
  split; [exact Hrun|]. split; [exact Hlk|]. split; [exact Hd|].
  repeat split. by vm_compute.
Qed.

(** C2 (amended): after a run of insert-or-sum writes into a bucket, a key
    that held nothing before the run holds nothing if no write named it, and
    otherwise a value that decodes to the component-wise sum, modulo 2^64, of
    the byte counts of the samples written under it, stamped with the
    timestamp (as [int64] nanoseconds) of the first of them. *)
Theorem C2_insert_or_sum (fault : StoreOp -> bool) (bkt key : string)
    (ops : list (string * BWSample)) (st st' : Store) :
  bucketOf st bkt !! key = None ->
  updateAll fault bkt ops st = inr (tt, st') ->
  match writtenTo key ops with
  | [] => bucketOf st' bkt !! key = None
  | s1 :: _ =>
      exists v s,
        bucketOf st' bkt !! key = Some v
        /\ Sample.Decode newVar v = inr s
        /\ BytesUp s = u64 (sumUp (writtenTo key ops))
        /\ BytesDown s = u64 (sumDown (writtenTo key ops))
        /\ Ts s = i64 (Ts s1)
  end.
Proof.
  intros Hlk Hrun.
  pose proof (updateAll_none fault bkt key ops st st' Hlk Hrun) as Hk.
  destruct (writtenTo key ops) as [|s1 w]; [done|].
  destruct Hk as (v & Hlk' & Hd). eauto 10.
Qed.

Lemma C2_insert_or_sum_witness :
  let s1 := mkBWSample (Date 2016 1 1 1 0 + 1 * Second) 10 20 in
  let s2 := mkBWSample (Date 2016 1 1 1 0 + 2 * Second) 1 2 in
  let s3 := mkBWSample (Date 2016 1 1 1 1) 7 7 in
  let key := Sample.TimeLabel s1 minFmt in
  let ops := [(key, s1); (Sample.TimeLabel s3 minFmt, s3); (key, s2)] in
  exists st',
    updateAll noFault bktMin ops ∅ = inr (tt, st')
    /\ exists v s,
        bucketOf st' bktMin !! key = Some v
        /\ Sample.Decode newVar v = inr s
        /\ BytesUp s = u64 (sumUp (writtenTo key ops))
        /\ BytesDown s = u64 (sumDown (writtenTo key ops))
        /\ Ts s = i64 (Ts s1).
Proof.
  intros s1 s2 s3 key ops.
  destruct (updateAll_total noFault bktMin ops (fun _ => eq_refl) ∅)
    as [st' Hrun].
  { intros k v. unfold bucketOf. rewrite lookup_empty. simpl.
    by rewrite lookup_empty. }
  exists st'. split; [exact Hrun|].
  exact (C2_insert_or_sum noFault bktMin key ops ∅ st' eq_refl Hrun).
Defined.

(** ** Sum-and-shift from an empty source *)

Lemma sumAndShift_empty (fault : StoreOp -> bool) (st : Store)
    (P D K : string) :
  bucketOf st P = ∅ ->
  Bwdb.sumAndShift fault P D K st = Bwdb.updateVal fault D K newVar st.
Proof.
  intros HP. unfold Bwdb.sumAndShift, bolt.ForEach. unfold tx_bind at 1.
  rewrite HP, entries_empty. reflexivity.
Qed.

Lemma merged_zero (v : list byte) (v' : list byte) :
  merged (Some v) newVar = inr v' -> v' = v.
Proof.
  unfold merged. destruct (Sample.Decode newVar v) as [err|sold] eqn:Hd; [done|].
  intros [= <-]. cbn [newVar NewBwSample BytesUp BytesDown].
  pose proof (Decode_ranges _ _ _ Hd) as (_ & Hu & Hdn).
  rewrite !Z.add_0_r, !u64_small by done.
  replace (mkBWSample (Ts sold) (BytesUp sold) (BytesDown sold)) with sold
    by (by destruct sold).
  by apply (Encode_Decode newVar).
Qed.

(** C4, as stated, fails on a store whose minute and hour buckets are both
    empty: the hour bucket gets an entry under the key, the encoded zero
    sample. *)
Lemma C4_empty_source_creates_an_entry :
  let st : Store := <[bktMin := ∅]> (<[bktHour := ∅]> ∅) in
  let K := Format hourFmt (Date 2016 1 1 1 0) in
  bucketOf st bktMin = ∅
  /\ bucketOf st bktHour !! K = None
  /\ exists st',
       Bwdb.sumAndShift noFault bktMin bktHour K st = inr (tt, st')
       /\ bucketOf st' bktHour !! K = Some (Sample.Encode NewBwSample)
       /\ bucketOf st' bktHour <> bucketOf st bktHour.
Proof.
  intros st K. split; [done|]. split; [done|].
  eexists. split.
  - rewrite sumAndShift_empty by done. rewrite updateVal_eq.
    change (bucketOf st bktHour !! K) with (@None (list byte)).
    reflexivity.
  - rewrite bucketOf_insert. split; [apply lookup_insert_eq|].
    intros Heq. apply (f_equal (fun m => m !! K)) in Heq.
    rewrite lookup_insert_eq in Heq. discriminate Heq.
Qed.

(** C4 (amended): with an empty source bucket, sum-and-shift is the
    insert-or-sum of the factory's zero sample into the destination at the
    key. When it returns without error, every other bucket is as before;
    a destination that already has the key keeps its contents (the value is
    written back unchanged); a destination without the key gets an entry
    there, the encoded zero sample. *)
Theorem C4_empty_source (fault : StoreOp -> bool) (st st' : Store)
    (P D K : string) :
  bucketOf st P = ∅ ->
  Bwdb.sumAndShift fault P D K st = inr (tt, st') ->
  Bwdb.sumAndShift fault P D K st = Bwdb.updateVal fault D K newVar st
  /\ (forall b, b <> D -> st' !! b = st !! b)
  /\ match bucketOf st D !! K with
     | Some _ => bucketOf st' D = bucketOf st D
     | None => bucketOf st' D = <[K := Sample.Encode newVar]> (bucketOf st D)
     end.
Proof.
  intros HP Hrun. pose proof (sumAndShift_empty fault st P D K HP) as Heq.
  split; [exact Heq|]. rewrite Heq in Hrun.
  apply updateVal_inr in Hrun as (v & Hm & ->).
  split.
  - intros b Hb. by rewrite lookup_insert_ne.
  - rewrite bucketOf_insert. destruct (bucketOf st D !! K) as [v0|] eqn:E.
    + apply merged_zero in Hm as ->. by apply insert_id.
    + cbn [merged] in Hm. by injection Hm as <-.
Qed.

Lemma C4_empty_source_witness :
  let st : Store :=
    <[bktMin := ∅]>
      (<[bktHour := {[ "0101201601"%string :=
                         Sample.Encode (mkBWSample (Date 2016 1 1 1 0) 6 6) ]}]> ∅) in
  exists st',
    Bwdb.sumAndShift noFault bktMin bktHour "0101201601" st = inr (tt, st')
    /\ (forall b, b <> bktHour -> st' !! b = st !! b)
    /\ bucketOf st' bktHour = bucketOf st bktHour.
Proof.
  intros st.
  assert (Hrun : exists st', Bwdb.sumAndShift noFault bktMin bktHour
                               "0101201601" st = inr (tt, st')).
  { rewrite sumAndShift_empty by done. rewrite updateVal_eq.
    unfold merged, st. rewrite bucketOf_insert_ne by done.
    rewrite bucketOf_insert, lookup_singleton_eq, Decode_Encode.
    unfold noFault. eauto. }
  destruct Hrun as [st' Hrun]. exists st'. split; [exact Hrun|].
  destruct (C4_empty_source noFault st st' bktMin bktHour "0101201601"
              eq_refl Hrun) as (_ & Hframe & Hdst).
  split; [exact Hframe|]. exact Hdst.
Defined.

(** ** Out-of-order inserts *)

Lemma create_update_inr (fault : StoreOp -> bool) (b k : string)
    (s : BWSample) (st st' : Store) :
  (bolt.CreateBucketIfNotExists fault b ;;; Bwdb.updateVal fault b k s) st
  = inr (tt, st') ->
  exists v, merged (bucketOf st b !! k) s = inr v
            /\ st' = <[b := <[k := v]> (bucketOf st b)]> st.
Proof.
  unfold tx_bind at 1. rewrite CreateBucketIfNotExists_eq.
  destruct (fault _); [done|]. intros Hu.
  apply updateVal_inr in Hu as (v & Hm & ->).
  rewrite bucketOf_create in Hm. exists v. split; [exact Hm|].
  rewrite bucketOf_create.
  destruct (st !! b) eqn:E; [done|]. by rewrite insert_insert_eq.
Qed.

Lemma addOutOfOrder_eq (fault : StoreOp -> bool) (d : Bwdb.bwdb)
    (s : BWSample) :
  Bwdb.addOutOfOrder fault d s
  = if negb (Bwdb.open d) then (d, Some errNotOpen) else
    let bkt := (outOfOrderTarget s (Bwdb.last d)).1 in
    let fmt := (outOfOrderTarget s (Bwdb.last d)).2 in
    let r := bolt.Batch fault
               (bolt.CreateBucketIfNotExists fault bkt ;;;
                Bwdb.updateVal fault bkt (Format fmt (Ts s)) s) (Bwdb.db d) in
    (Bwdb.set_db d r.1, r.2).
Proof.
  unfold Bwdb.addOutOfOrder, outOfOrderTarget, Sample.TimeLabel, Sample.TS.
  destruct (negb (Bwdb.open d)); [done|].
  destruct (MinuteOf (Ts s) =? MinuteOf (Bwdb.last d)).
  { cbn [fst snd]. by destruct (bolt.Batch _ _ _). }
  destruct (HourOf (Ts s) =? HourOf (Bwdb.last d)).
  { cbn [fst snd]. by destruct (bolt.Batch _ _ _). }
  destruct (DayOf (Ts s) =? DayOf (Bwdb.last d)).
  { cbn [fst snd]. by destruct (bolt.Batch _ _ _). }
  cbn [fst snd]. by destruct (bolt.Batch _ _ _).
Qed.

Lemma Batch_cases (fault : StoreOp -> bool) (fn : Tx unit) (st : Store) :
  (exists err, bolt.Batch fault fn st = (st, Some err))
  \/ (exists st', fn st = inr (tt, st') /\ bolt.Batch fault fn st = (st', None)).
Proof.
  unfold bolt.Batch. destruct (fn st) as [err|[[] st']]; [eauto|].
  destruct (fault OpCommit); eauto.
Qed.

(** C7: the out-of-order insert of a sample (the way [Add] takes for a
    sample stamped before [last], and [AddRand] for any sample)
    inserts-or-sums it into one bucket only: minute if its minute of the hour
    is that of [last], else hour if its hour of the day is, else day if its
    day of the month is, else month. [last], the live ring and the other
    three buckets stay as they are (and on an error so does the whole
    store). *)
Theorem C7_out_of_order_one_bucket (fault : StoreOp -> bool)
    (d : Bwdb.bwdb) (s : BWSample) :
  Bwdb.open d = true ->
  let r := Bwdb.AddRand fault d s in
  let bkt := (outOfOrderTarget s (Bwdb.last d)).1 in
  let key := Format (outOfOrderTarget s (Bwdb.last d)).2 (Ts s) in
  (Before (Ts s) (Bwdb.last d) = true -> Bwdb.Add fault d s = r)
  /\ Bwdb.last r.1 = Bwdb.last d
  /\ Bwdb.hist r.1 = Bwdb.hist d
  /\ (forall b, b <> bkt -> Bwdb.db r.1 !! b = Bwdb.db d !! b)
  /\ match r.2 with
     | None =>
         exists v, merged (bucketOf (Bwdb.db d) bkt !! key) s = inr v
           /\ bucketOf (Bwdb.db r.1) bkt = <[key := v]> (bucketOf (Bwdb.db d) bkt)
     | Some _ => Bwdb.db r.1 = Bwdb.db d
     end.
Proof.
  intros Hopen r bkt key. subst r. unfold Bwdb.AddRand.
  split.
  { intros Hbefore. unfold Bwdb.Add, Sample.After. by rewrite Hopen, Hbefore. }
  rewrite addOutOfOrder_eq, Hopen. cbn [negb].
  fold bkt. fold key. cbv zeta.
  destruct (Batch_cases fault
              (bolt.CreateBucketIfNotExists fault bkt ;;;
               Bwdb.updateVal fault bkt key s) (Bwdb.db d))
    as [[err ->]|(st' & Hfn & ->)]; cbn [fst snd Bwdb.set_db Bwdb.last
                                          Bwdb.hist Bwdb.db].
  - done.
  - apply create_update_inr in Hfn as (v & Hm & ->).
    split; [done|]. split; [done|]. split.
    + intros b Hb. by rewrite lookup_insert_ne.
    + exists v. split; [exact Hm|]. apply bucketOf_insert.
Qed.

Lemma C7_out_of_order_one_bucket_witness :
  let d := Bwdb.mkBwdb true ∅ [] 60 (Date 2016 1 1 2 30) in
  let s := mkBWSample (Date 2016 1 1 1 15) 999 777 in
  let r := Bwdb.Add noFault d s in
  outOfOrderTarget s (Bwdb.last d) = (bktDay, dayFmt)
  /\ r = Bwdb.AddRand noFault d s
  /\ Bwdb.last r.1 = Bwdb.last d
  /\ Bwdb.hist r.1 = Bwdb.hist d
  /\ (forall b, b <> bktDay -> Bwdb.db r.1 !! b = Bwdb.db d !! b)
  /\ bucketOf (Bwdb.db r.1) bktDay
     = {[ "01012016"%string := Sample.Encode s ]}.
Proof.
  intros d s r. split; [by vm_compute|].
  destruct (C7_out_of_order_one_bucket noFault d s eq_refl)
    as (H1 & H2 & H3 & H4 & H5).
  assert (Hr : r = Bwdb.AddRand noFault d s) by (by apply H1).
  rewrite Hr. split; [done|]. split; [exact H2|]. split; [exact H3|].
  split; [exact H4|].
  assert (Hok : (Bwdb.AddRand noFault d s).2 = None) by (by vm_compute).
  rewrite Hok in H5. destruct H5 as (v & Hm & Hb).
  change (merged None s = inr v) in Hm. injection Hm as <-.
  etrans; [exact Hb|]. by vm_compute.
Defined.

(** ** In-order inserts: the live ring and [last] *)

Lemma take_removelast {A : Type} (n : nat) (h : list A) :
  (n < length h)%nat -> take n (removelast h) = take n h.
Proof.
  intros Hn. rewrite removelast_firstn_len.
  change (firstn (Nat.pred (length h)) h) with (take (Nat.pred (length h)) h).
  rewrite take_take. f_equal. lia.
Qed.

Lemma trim_nil (size : Z) (fuel : nat) : Bwdb.trim fuel [] size = [].
Proof.
  induction fuel as [|fuel IH]; [done|].
  cbn [Bwdb.trim]. destruct (_ >? _); [exact IH|done].
Qed.

Lemma trim_take_fuel (size : Z) (fuel : nat) :
  forall h : list BWSample,
    (length h <= fuel)%nat -> Bwdb.trim fuel h size = take (Z.to_nat size) h.
Proof.
  induction fuel as [|fuel IH]; intros h Hlen.
  - destruct h; [|simpl in Hlen; lia]. by rewrite take_nil.
  - destruct h as [|x h]; [by rewrite trim_nil, take_nil|].
    cbn [Bwdb.trim].
    destruct (Z.gtb_spec (Z.of_nat (length (x :: h))) size) as [Hgt|Hle].
    + rewrite IH.
      * apply take_removelast. cbn [length] in *. lia.
      * rewrite removelast_firstn_len, length_take. cbn [length] in *. lia.
    + symmetry. apply take_ge. cbn [length] in *. lia.
Qed.

Lemma trim_take (size : Z) (h : list BWSample) :
  Bwdb.trim (length h) h size = take (Z.to_nat size) h.
Proof. by apply trim_take_fuel. Qed.

(** What [Add] does to an open engine on the in-order path. *)
Lemma Add_in_order (fault : StoreOp -> bool) (d : Bwdb.bwdb) (s : BWSample) :
  Bwdb.open d = true ->
  Sample.After s (Bwdb.last d) = true ->
  let ring := take (Z.to_nat (Bwdb.histSize d)) (s :: Bwdb.hist d) in
  let last1 := if TimeEq (Bwdb.last d) zeroTime then Ts s else Bwdb.last d in
  let r := bolt.Batch fault (Bwdb.addBatch fault last1 s) (Bwdb.db d) in
  Bwdb.Add fault d s
  = match r.2 with
    | Some err => (Bwdb.mkBwdb true (Bwdb.db d) ring (Bwdb.histSize d) last1,
                   Some err)
    | None => (Bwdb.mkBwdb true r.1 ring (Bwdb.histSize d) (Ts s), None)
    end.
Proof.
  intros Hopen Hafter ring last1 r. unfold Bwdb.Add.
  rewrite Hopen, Hafter. cbn [negb]. cbv zeta.
  rewrite trim_take. fold ring.
  destruct d as [o st h n l]. cbn [Bwdb.open] in Hopen. subst o.
  cbn [Bwdb.set_hist Bwdb.set_last Bwdb.set_db Bwdb.last Bwdb.hist
       Bwdb.histSize Bwdb.db Bwdb.open] in *.
  subst last1 r.
  destruct (TimeEq l zeroTime);
    cbn [Bwdb.set_hist Bwdb.set_last Bwdb.set_db Bwdb.last Bwdb.hist
         Bwdb.histSize Bwdb.db Bwdb.open];
    by destruct (bolt.Batch _ _ _) as [st' [err|]].
Qed.

(** When the batch of an in-order [Add] fails, the store is as before and
    the error comes back; [last] is as before too unless it was zero, in
    which case it already holds the sample's timestamp. *)
Lemma Add_in_order_error (fault : StoreOp -> bool) (d d' : Bwdb.bwdb)
    (s : BWSample) (err : error) :
  Bwdb.open d = true ->
  Sample.After s (Bwdb.last d) = true ->
  Bwdb.Add fault d s = (d', Some err) ->
  Bwdb.db d' = Bwdb.db d
  /\ Bwdb.last d'
     = (if TimeEq (Bwdb.last d) zeroTime then Ts s else Bwdb.last d).
Proof.
  intros Hopen Hafter. rewrite Add_in_order by done.
  destruct (bolt.Batch _ _ _) as [st [e|]]; cbn [fst snd]; [|done].
  by intros [= <- <-].
Qed.

(** C3 fails on the first insert into a fresh engine when the commit of the
    batch fails: [Add] returns the error and the store is as before, but
    [last], zero at entry, holds the timestamp of the sample that was not
    stored. *)
Theorem C3_first_insert_failure_advances_last :
  let fault := fun op => match op with OpCommit => true | _ => false end in
  let d := Bwdb.mkBwdb true ∅ [] 60 zeroTime in
  let s := mkBWSample (Date 2016 1 1 1 0) 1 1 in
  Bwdb.NewBwDb (inr ∅) 60 = inr d
  /\ (Bwdb.Add fault d s).2 = Some (errStorage OpCommit)
  /\ Bwdb.db (Bwdb.Add fault d s).1 = Bwdb.db d
  /\ Bwdb.last d = zeroTime
  /\ Bwdb.last (Bwdb.Add fault d s).1 = Ts s
  /\ Bwdb.last (Bwdb.Add fault d s).1 <> Bwdb.last d.
Proof.
  intros fault d s. split; [done|].
  assert (Hadd : exists d', Bwdb.Add fault d s = (d', Some (errStorage OpCommit))).
  { rewrite Add_in_order by done. cbv zeta.
    unfold bolt.Batch.
    set (b := Bwdb.addBatch fault _ s (Bwdb.db d)).
    assert (Hok : match b with inl _ => false | inr _ => true end = true)
      by (by vm_compute).
    destruct b as [err|[[] st']]; [discriminate Hok|].
    cbn [fault fst snd]. eauto. }
  destruct Hadd as [d' Hadd].
  destruct (Add_in_order_error fault d d' s _ eq_refl eq_refl Hadd) as [Hdb Hl].
  rewrite Hadd. cbn [fst snd]. split; [done|]. split; [exact Hdb|].
  split; [done|]. split; [exact Hl|]. rewrite Hl. by vm_compute.
Qed.

(** The same on a store that needs no failing call: the value already under
    the sample's minute key is not 24 bytes long, so the batch stops at its
    decoding. *)
Example first_insert_on_corrupt_value_advances_last :
  let s := mkBWSample (Date 2016 1 1 1 0) 1 1 in
  let st : Store := {[ bktMin := {[ Sample.TimeLabel s minFmt := [Byte.x00] ]} ]} in
  let d := Bwdb.mkBwdb true st [] 60 zeroTime in
  (Bwdb.Add noFault d s).2 = Some errInvalidBufferSize
  /\ Bwdb.db (Bwdb.Add noFault d s).1 = st
  /\ Bwdb.last (Bwdb.Add noFault d s).1 = Ts s.
Proof.
  intros s st d.
  assert (Herr : (Bwdb.Add noFault d s).2 = Some errInvalidBufferSize)
    by (by vm_compute).
  split; [exact Herr|].
  destruct (Bwdb.Add noFault d s) as [d' err] eqn:Hadd. cbn [fst snd] in *.
  subst err.
  destruct (Add_in_order_error noFault d d' s _ eq_refl eq_refl Hadd) as [Hdb Hl].
  split; [exact Hdb|exact Hl].
Qed.

(** *** The live ring *)

Lemma Add_ring (fault : StoreOp -> bool) (d : Bwdb.bwdb) (s : BWSample) :
  Bwdb.open d = true ->
  Sample.After s (Bwdb.last d) = true ->
  Bwdb.hist (Bwdb.Add fault d s).1
  = take (Z.to_nat (Bwdb.histSize d)) (s :: Bwdb.hist d)
  /\ Bwdb.histSize (Bwdb.Add fault d s).1 = Bwdb.histSize d.
Proof.
  intros Hopen Hafter. rewrite Add_in_order by done. cbv zeta.
  by destruct (bolt.Batch _ _ _) as [st [err|]].
Qed.

Lemma addOutOfOrder_ring (fault : StoreOp -> bool) (d : Bwdb.bwdb)
    (s : BWSample) :
  Bwdb.hist (Bwdb.addOutOfOrder fault d s).1 = Bwdb.hist d
  /\ Bwdb.histSize (Bwdb.addOutOfOrder fault d s).1 = Bwdb.histSize d.
Proof.
  rewrite addOutOfOrder_eq. by destruct (negb (Bwdb.open d)).
Qed.

Lemma Rebase_ring (fault : StoreOp -> bool) (d : Bwdb.bwdb) (ts : Time) :
  Bwdb.hist (Bwdb.Rebase fault d ts).1 = Bwdb.hist d
  /\ Bwdb.histSize (Bwdb.Rebase fault d ts).1 = Bwdb.histSize d.
Proof.
  unfold Bwdb.Rebase. destruct (negb (Bwdb.open d)); [done|].
  destruct (Bwdb.shiftIfOlder _ _ _ _ _ _) as [st1 [e1|]]; [done|].
  destruct (Bwdb.shiftIfOlder _ _ _ _ _ _) as [st2 [e2|]]; [done|].
  by destruct (Bwdb.shiftIfOlder _ _ _ _ _ _) as [st3 [e3|]].
Qed.

Lemma purge_ring (fault : StoreOp -> bool) (d : Bwdb.bwdb) :
  (Bwdb.hist (Bwdb.purge fault d).1 = Bwdb.hist d
   \/ Bwdb.hist (Bwdb.purge fault d).1 = [])
  /\ Bwdb.histSize (Bwdb.purge fault d).1 = Bwdb.histSize d.
Proof.
  unfold Bwdb.purge. destruct (negb (Bwdb.open d)); [by split; [left|]|].
  cbv zeta. destruct (bolt.Batch _ _ _) as [st err]. by split; [right|].
Qed.

Lemma Close_ring (d : Bwdb.bwdb) (e : option error) :
  (Bwdb.hist (Bwdb.Close d e).1 = Bwdb.hist d
   \/ Bwdb.hist (Bwdb.Close d e).1 = [])
  /\ Bwdb.histSize (Bwdb.Close d e).1 = Bwdb.histSize d.
Proof.
  unfold Bwdb.Close. destruct (negb (Bwdb.open d)); [by split; [left|]|].
  destruct e; [by split; [left|]|by split; [right|]].
Qed.

(** Every call keeps the ring within the configured size. *)
Lemma call_ring (fault : StoreOp -> bool) (d : Bwdb.bwdb) (c : Call) :
  0 < Bwdb.histSize d ->
  Z.of_nat (length (Bwdb.hist d)) <= Bwdb.histSize d ->
  Bwdb.histSize (call fault d c).1 = Bwdb.histSize d
  /\ Z.of_nat (length (Bwdb.hist (call fault d c).1)) <= Bwdb.histSize d.
Proof.
  intros Hpos Hlen. destruct c as [s|s|ts| |e]; cbn [call].
  - unfold Bwdb.Add.
    destruct (negb (Bwdb.open d)) eqn:Ho; [done|].
    destruct (negb (Sample.After s (Bwdb.last d))) eqn:Ha.
    + destruct (addOutOfOrder_ring fault d s) as [-> ->]. done.
    + apply negb_false_iff in Ho, Ha.
      fold (Bwdb.Add fault d s) in *.
      assert (Hadd := Add_ring fault d s Ho Ha).
      unfold Bwdb.Add in Hadd. rewrite Ho, Ha in Hadd. cbn [negb] in Hadd.
      destruct Hadd as [-> ->]. split; [done|]. rewrite length_take. lia.
  - unfold Bwdb.AddRand. destruct (addOutOfOrder_ring fault d s) as [-> ->]. done.
  - destruct (Rebase_ring fault d ts) as [-> ->]. done.
  - destruct (purge_ring fault d) as [[-> | ->] ->]; [done|]. cbn [length]. lia.
  - destruct (Close_ring d e) as [[-> | ->] ->]; [done|]. cbn [length]. lia.
Qed.

Lemma calls_ring (fault : StoreOp -> bool) (cs : list Call) :
  forall d : Bwdb.bwdb,
    0 < Bwdb.histSize d ->
    Z.of_nat (length (Bwdb.hist d)) <= Bwdb.histSize d ->
    Bwdb.histSize (calls fault d cs) = Bwdb.histSize d
    /\ Z.of_nat (length (Bwdb.hist (calls fault d cs))) <= Bwdb.histSize d.
Proof.
  induction cs as [|c cs IH]; intros d Hpos Hlen; [done|].
  cbn [calls foldl]. fold (calls fault (call fault d c).1 cs).
  destruct (call_ring fault d c Hpos Hlen) as [Hs Hl].
  destruct (IH (call fault d c).1) as [Hs' Hl']; [lia|lia|].
  rewrite Hs' , Hs. split; [done|]. lia.
Qed.

Lemma take_app_take {A : Type} (n : nat) (l1 l2 : list A) :
  take n (l1 ++ take n l2) = take n (l1 ++ l2).
Proof.
  rewrite !take_app. f_equal. rewrite take_take. f_equal. lia.
Qed.

(** After in-order inserts that all went through, the ring is the samples,
    newest first, in front of the old ring, cut to the configured size. *)
Lemma addInOrder_ring (fault : StoreOp -> bool) (ss : list BWSample) :
  forall d d' : Bwdb.bwdb,
    (length (Bwdb.hist d) <= Z.to_nat (Bwdb.histSize d))%nat ->
    addInOrder fault d ss = Some d' ->
    Bwdb.histSize d' = Bwdb.histSize d
    /\ Bwdb.hist d'
       = take (Z.to_nat (Bwdb.histSize d)) (rev ss ++ Bwdb.hist d).
Proof.
  induction ss as [|s ss IH]; intros d d' Hlen Hrun.
  - injection Hrun as <-. split; [done|]. cbn [rev app]. by rewrite take_ge.
  - cbn [addInOrder] in Hrun.
    destruct (Bwdb.open d) eqn:Ho; [|done].
    destruct (Sample.After s (Bwdb.last d)) eqn:Ha; [|done].
    cbn [andb] in Hrun.
    destruct (Add_ring fault d s Ho Ha) as [Hh Hs].
    destruct (Bwdb.Add fault d s) as [d1 [err|]]; [done|].
    cbn [fst] in Hh, Hs.
    apply IH in Hrun as [Hs' Hh'].
    + rewrite Hs', Hs. split; [done|].
      rewrite Hh', Hs, Hh, take_app_take. cbn [rev].
      by rewrite <- app_assoc.
    + rewrite Hs, Hh, length_take. lia.
Qed.

(** C8: an engine made by [NewBwDb] has ring capacity [L], the configured
    size or 60 when that is not positive; whatever calls follow, the ring
    never holds more than [L] samples; and after [N >= L] in-order inserts
    that all returned without error the ring holds exactly [L] samples, the
    one inserted last in front. *)
Theorem C8_live_ring_bound (fault : StoreOp -> bool) (st : Store)
    (liveSize : Z) (cs : list Call) (ss : list BWSample) (d' : Bwdb.bwdb) :
  let L := if liveSize <=? 0 then defaultHistSize else liveSize in
  let d0 := Bwdb.mkBwdb true st [] L zeroTime in
  let d := calls fault d0 cs in
  Bwdb.NewBwDb (inr st) liveSize = inr d0
  /\ Bwdb.histSize d = L
  /\ Z.of_nat (length (Bwdb.hist d)) <= L
  /\ (addInOrder fault d ss = Some d' ->
      L <= Z.of_nat (length ss) ->
      Z.of_nat (length (Bwdb.hist d')) = L
      /\ head (Bwdb.hist d') = last ss).
Proof.
  intros L d0 d. split; [done|].
  assert (HL : 0 < L).
  { subst L. unfold defaultHistSize. destruct (Z.leb_spec liveSize 0); lia. }
  destruct (calls_ring fault cs d0) as [Hs Hl]; [done|cbn; lia|].
  fold d in Hs, Hl. cbn [d0 Bwdb.histSize] in Hs, Hl.
  split; [exact Hs|]. split; [exact Hl|].
  intros Hrun HN.
  apply addInOrder_ring in Hrun as [Hs' Hh']; [|lia].
  rewrite Hh', Hs. split.
  - rewrite length_take, length_app, length_rev. lia.
  - destruct (Z.to_nat L) as [|n] eqn:En; [lia|].
    assert (Hss : ss <> []) by (intros ->; cbn [length] in HN; lia).
    destruct (rev ss) as [|x l] eqn:Er.
    { apply (f_equal (@length _)) in Er. rewrite length_rev in Er.
      destruct ss; [done|discriminate Er]. }
    cbn [app take head]. 
    apply (f_equal (@rev _)) in Er. rewrite rev_involutive in Er.
    rewrite Er. cbn [rev]. by rewrite last_snoc.
Qed.

Lemma C8_live_ring_bound_witness :
  let s1 := mkBWSample (Date 2016 1 1 1 0) 1 1 in
  let s2 := mkBWSample (Date 2016 1 1 1 1) 2 2 in
  let s3 := mkBWSample (Date 2016 1 1 1 2) 3 3 in
  exists d',
    addInOrder noFault (calls noFault (Bwdb.mkBwdb true ∅ [] 2 zeroTime) [])
      [s1; s2; s3] = Some d'
    /\ Z.of_nat (length (Bwdb.hist d')) = 2
    /\ head (Bwdb.hist d') = Some s3.
Proof.
  intros s1 s2 s3.
  destruct (addInOrder noFault
              (calls noFault (Bwdb.mkBwdb true ∅ [] 2 zeroTime) [])
              [s1; s2; s3]) as [d'|] eqn:E.
  - exists d'. split; [done|].
    destruct (C8_live_ring_bound noFault ∅ 2 [] [s1; s2; s3] d')
      as (_ & _ & _ & H). 
    apply H; [exact E|cbn; lia].
  - exfalso. revert E. vm_compute. discriminate.
Defined.

(** ** The sampler *)

Lemma GetStats_reads (w : Ifmon.World) (iface : Ifmon.Iface) (rx tx : Z) :
  Ifmon.readsCounters w iface rx tx ->
  let r := Ifmon.GetStats w iface in
  r.2 = (if Ifmon.lastSend iface =? 0 then 0
         else u64 (tx - Ifmon.lastSend iface),
         if Ifmon.lastRecv iface =? 0 then 0
         else u64 (rx - Ifmon.lastRecv iface),
         None)
  /\ Ifmon.lastSend r.1 = tx
  /\ Ifmon.lastRecv r.1 = rx.
Proof.
  intros (iface' & Hopen & Hrx & Htx). unfold Ifmon.GetStats.
  assert (Hlast : Ifmon.lastSend iface' = Ifmon.lastSend iface
                  /\ Ifmon.lastRecv iface' = Ifmon.lastRecv iface).
  { destruct (Ifmon.isNil (Ifmon.fioSend iface) || Ifmon.isNil (Ifmon.fioRecv iface)).
    - unfold Ifmon.reopenInterfaces in Hopen.
      destruct (negb _ || negb _); [done|].
      destruct (Ifmon.os_Open w _); [|done].
      destruct (Ifmon.os_Open w _); [|done].
      by injection Hopen as <-.
    - by injection Hopen as <-. }
  destruct Hlast as [Hs Hr].
  rewrite Hopen. cbv zeta. rewrite Hrx, Htx, Hs, Hr. done.
Qed.

(** C6, as stated, fails for a reopen that follows [Close]: the handles are
    gone but the last counters are kept, so the first read after the reopen
    reports the plain differences. *)
Lemma C6_reopen_after_Close_reports_a_delta :
  let w := Ifmon.mkWorld
             (fun p => if String.eqb p "/sys/class/net/eth0/statistics/rx_bytes"
                       then Some 3 else Some 4)
             (fun _ => inr 0)
             (fun f => if f =? 3
                       then inr [Byte.x35; Byte.x35; Byte.x0a]     (* rx: 55 *)
                       else inr [Byte.x31; Byte.x31; Byte.x30; Byte.x0a]) (* tx: 110 *)
             (fun _ => None) in
  let opened := Ifmon.mkIface "eth0" "" (Some 2) (Some 1) 100 50 true in
  let closed := (Ifmon.Close w opened).1 in
  (Ifmon.Close w opened).2 = None
  /\ Ifmon.fioSend closed = None /\ Ifmon.fioRecv closed = None
  /\ Ifmon.readsCounters w closed 55 110
  /\ (Ifmon.GetStats w closed).2 = (10, 5, None).
Proof.
  intros w opened closed. repeat split.
  exists (Ifmon.mkIface "eth0" "" (Some 4) (Some 3) 100 50 false).
  repeat split.
Qed.

(** C6 (amended): a [GetStats] call that reads the counters [rx] and [tx]
    returns, for each direction, the difference (in [uint64]) to the stored
    last value, or zero when that stored value was zero at entry, and then
    stores [tx] and [rx]. Hence the first such read after [NewIfmon], and
    the first after a read failure made [closeInterfaces] drop the handles,
    report (0, 0); a reopen that follows [Close] is not covered. *)
Theorem C6_deltas (w : Ifmon.World) (iface : Ifmon.Iface) (rx tx : Z) :
  Ifmon.readsCounters w iface rx tx ->
  let r := Ifmon.GetStats w iface in
  r.2 = (if Ifmon.lastSend iface =? 0 then 0
         else u64 (tx - Ifmon.lastSend iface),
         if Ifmon.lastRecv iface =? 0 then 0
         else u64 (rx - Ifmon.lastRecv iface),
         None)
  /\ Ifmon.lastSend r.1 = tx
  /\ Ifmon.lastRecv r.1 = rx
  /\ (Ifmon.lastSend iface <= tx < 2 ^ 64 -> 0 < Ifmon.lastSend iface ->
      r.2.1.1 = tx - Ifmon.lastSend iface)
  /\ (Ifmon.lastRecv iface <= rx < 2 ^ 64 -> 0 < Ifmon.lastRecv iface ->
      r.2.1.2 = rx - Ifmon.lastRecv iface)
  /\ (forall w0 name alias, iface = Ifmon.NewIfmon w0 name alias ->
      r.2 = (0, 0, None))
  /\ (forall iface0, iface = Ifmon.closeInterfaces iface0 ->
      r.2 = (0, 0, None)).
Proof.
  intros Hreads r. destruct (GetStats_reads w iface rx tx Hreads) as (H2 & Hs & Hr).
  fold r in H2, Hs, Hr. split; [exact H2|]. split; [exact Hs|]. split; [exact Hr|].
  rewrite H2. cbn [fst snd]. split; [|split; [|split]].
  - intros Hrange Hpos. destruct (Z.eqb_spec (Ifmon.lastSend iface) 0); [lia|].
    apply u64_small. unfold is_u64. lia.
  - intros Hrange Hpos. destruct (Z.eqb_spec (Ifmon.lastRecv iface) 0); [lia|].
    apply u64_small. unfold is_u64. lia.
  - intros w0 name alias ->. unfold Ifmon.NewIfmon, Ifmon.reopenInterfaces.
    cbn [Ifmon.fioSend Ifmon.fioRecv Ifmon.isNil negb orb Ifmon.name].
    destruct (Ifmon.os_Open w0 _); [|done].
    by destruct (Ifmon.os_Open w0 _).
  - by intros iface0 ->.
Qed.

Lemma C6_deltas_witness :
  let w := Ifmon.mkWorld
             (fun p => if String.eqb p "/sys/class/net/eth0/statistics/rx_bytes"
                       then Some 3 else Some 4)
             (fun _ => inr 0)
             (fun f => if f =? 3
                       then inr [Byte.x35; Byte.x35; Byte.x0a]
                       else inr [Byte.x31; Byte.x31; Byte.x30; Byte.x0a])
             (fun _ => None) in
  let iface := Ifmon.mkIface "eth0" "" (Some 4) (Some 3) 100 0 true in
  (Ifmon.GetStats w iface).2 = (10, 0, None)
  /\ Ifmon.lastSend (Ifmon.GetStats w iface).1 = 110
  /\ Ifmon.lastRecv (Ifmon.GetStats w iface).1 = 55.
Proof.
  intros w iface.
  assert (Hreads : Ifmon.readsCounters w iface 55 110).
  { exists iface. repeat split. }
  destruct (C6_deltas w iface 55 110 Hreads) as (H2 & Hs & Hr & _).
  split; [exact H2|]. split; [exact Hs|exact Hr].
Defined.

(** C10: when a [GetStats] call that reads the counters finds a counter
    below the stored last value (so that value is not zero), the delta it
    reports for that direction is the difference modulo 2^64, that is the
    counter plus 2^64 minus the last value: it is not zero, and it is as
    large as 2^64 minus the last value. *)
Theorem C10_wrapped_delta (w : Ifmon.World) (iface : Ifmon.Iface) (rx tx : Z) :
  Ifmon.readsCounters w iface rx tx ->
  is_u64 (Ifmon.lastSend iface) -> is_u64 (Ifmon.lastRecv iface) ->
  let r := Ifmon.GetStats w iface in
  (0 < tx < Ifmon.lastSend iface ->
   r.2.1.1 = u64 (tx - Ifmon.lastSend iface)
   /\ r.2.1.1 = tx + 2 ^ 64 - Ifmon.lastSend iface
   /\ r.2.1.1 <> 0
   /\ 2 ^ 64 - Ifmon.lastSend iface < r.2.1.1)
  /\ (0 < rx < Ifmon.lastRecv iface ->
      r.2.1.2 = u64 (rx - Ifmon.lastRecv iface)
      /\ r.2.1.2 = rx + 2 ^ 64 - Ifmon.lastRecv iface
      /\ r.2.1.2 <> 0
      /\ 2 ^ 64 - Ifmon.lastRecv iface < r.2.1.2).
Proof.
  intros Hreads Hs Hr r.
  destruct (GetStats_reads w iface rx tx Hreads) as (H2 & _ & _).
  fold r in H2. rewrite H2. cbn [fst snd]. unfold is_u64 in *.
  assert (Hwrap : forall c l, 0 < c < l -> 0 <= l < 2 ^ 64 ->
                    u64 (c - l) = c + 2 ^ 64 - l).
  { intros c l Hc Hl. unfold u64. symmetry.
    apply (Z.mod_unique_pos _ _ (-1)); lia. }
  split.
  - intros Hlt. destruct (Z.eqb_spec (Ifmon.lastSend iface) 0); [lia|].
    rewrite (Hwrap tx) by lia. lia.
  - intros Hlt. destruct (Z.eqb_spec (Ifmon.lastRecv iface) 0); [lia|].
    rewrite (Hwrap rx) by lia. lia.
Qed.

Lemma C10_wrapped_delta_witness :
  let w := Ifmon.mkWorld
             (fun p => if String.eqb p "/sys/class/net/eth0/statistics/rx_bytes"
                       then Some 3 else Some 4)
             (fun _ => inr 0)
             (fun f => if f =? 3
                       then inr [Byte.x35; Byte.x35; Byte.x0a]
                       else inr [Byte.x31; Byte.x31; Byte.x30; Byte.x0a])
             (fun _ => None) in
  let iface := Ifmon.mkIface "eth0" "" (Some 4) (Some 3) 1000 500 true in
  (Ifmon.GetStats w iface).2.1.1 = 2 ^ 64 - 890
  /\ (Ifmon.GetStats w iface).2.1.2 = 2 ^ 64 - 445.
Proof.
  intros w iface.
  assert (Hreads : Ifmon.readsCounters w iface 55 110).
  { exists iface. repeat split. }
  destruct (C10_wrapped_delta w iface 55 110 Hreads) as (Hs & Hr).
  - unfold is_u64. cbn. lia.
  - unfold is_u64. cbn. lia.
  - destruct Hs as (_ & Hs & _); [cbn; lia|].
    destruct Hr as (_ & Hr & _); [cbn; lia|].
    split; [exact Hs|exact Hr].
Defined.

(** ** The live fan-out *)

Section LiveFacts.

Context {C : Type} `{Live.LiveConsumer C}.

Implicit Types (m : gmap Z C) (evs : list Live.Event) (order : list Z).

Lemma serviceOne_fst (name : string) (s : BWSample) m evs evs' (k : Z) :
  (Live.serviceOne name s (m, evs) k).1 = (Live.serviceOne name s (m, evs') k).1.
Proof.
  unfold Live.serviceOne. cbn [fst snd]. destruct (m !! k) as [v|]; [|done].
  by destruct (Live.Write v name s) as [v' [err|]].
Qed.

(** A turn at [k] leaves every other key alone. *)
Lemma serviceOne_other (name : string) (s : BWSample) m evs (k j : Z) :
  j <> k -> (Live.serviceOne name s (m, evs) k).1 !! j = m !! j.
Proof.
  intros Hne. unfold Live.serviceOne. cbn [fst snd].
  destruct (m !! k) as [v|]; [|done].
  destruct (Live.Write v name s) as [v' [err|]]; cbn [fst].
  - by rewrite lookup_delete_ne.
  - by rewrite lookup_insert_ne.
Qed.

(** Only a key that is in the map gets a call. *)
Lemma serviceOne_events (name : string) (s : BWSample) m evs (k : Z) :
  exists new,
    (Live.serviceOne name s (m, evs) k).2 = evs ++ new
    /\ (forall j e, Live.EvWrite j e ∈ new -> j = k /\ is_Some (m !! k))
    /\ (forall j e, Live.EvClose j e ∈ new ->
        j = k /\ exists v, m !! k = Some v
                 /\ (Live.Write v name s).2 <> None).
Proof.
  unfold Live.serviceOne. cbn [fst snd]. destruct (m !! k) as [v|] eqn:E.
  - destruct (Live.Write v name s) as [v' [err|]] eqn:Ew; cbn [snd];
      eexists; (split; [reflexivity|]); split; intros j e Hin;
      repeat (apply elem_of_cons in Hin as [Hin|Hin]; [|]);
      try (by apply elem_of_nil in Hin); try discriminate Hin.
    + injection Hin as -> ->. eauto.
    + injection Hin as -> ->. split; [done|]. exists v. by rewrite Ew.
    + injection Hin as -> ->. eauto.
  - exists []. rewrite app_nil_r. split; [done|].
    split; intros j e Hin; by apply elem_of_nil in Hin.
Qed.

Lemma service_fold_other (name : string) (s : BWSample) order :
  forall m evs (j : Z),
    j ∉ order ->
    (foldl (Live.serviceOne name s) (m, evs) order).1 !! j = m !! j.
Proof.
  induction order as [|k order IH]; intros m evs j Hj; [done|].
  cbn [foldl]. apply not_elem_of_cons in Hj as [Hne Hj].
  destruct (Live.serviceOne name s (m, evs) k) as [m1 evs1] eqn:E.
  rewrite IH by done.
  change m1 with (m1, evs1).1. rewrite <- E. by apply serviceOne_other.
Qed.

Lemma service_fold_events (name : string) (s : BWSample) order :
  forall m evs,
    exists new,
      (foldl (Live.serviceOne name s) (m, evs) order).2 = evs ++ new
      /\ (forall j e, Live.EvWrite j e ∈ new -> is_Some (m !! j)).
Proof.
  induction order as [|k order IH]; intros m evs.
  - exists []. by split; [rewrite app_nil_r|intros j e Hin; apply elem_of_nil in Hin].
  - cbn [foldl].
    destruct (serviceOne_events name s m evs k) as (new1 & E1 & Hw1 & _).
    destruct (Live.serviceOne name s (m, evs) k) as [m1 evs1] eqn:E.
    cbn [snd] in E1. subst evs1.
    destruct (IH m1 (evs ++ new1)) as (new2 & E2 & Hw2).
    exists (new1 ++ new2). rewrite E2, app_assoc. split; [done|].
    intros j e Hin. apply elem_of_app in Hin as [Hin|Hin].
    + apply Hw1 in Hin as [-> ?]. done.
    + apply Hw2 in Hin. destruct (decide (j = k)) as [->|Hne].
      * change m1 with (m1, evs ++ new1).1 in Hin. rewrite <- E in Hin.
        unfold Live.serviceOne in Hin. cbn [fst snd] in Hin.
        destruct (m !! k) as [v|] eqn:Ek; [eauto|].
        cbn [fst] in Hin. rewrite Ek in Hin. by destruct Hin.
      * change m1 with (m1, evs ++ new1).1 in Hin. rewrite <- E in Hin.
        by rewrite serviceOne_other in Hin.
Qed.

(** The walk at a key it visits once. *)
Lemma service_fold_visited (name : string) (s : BWSample) order :
  forall m evs (k : Z) (v : C),
    NoDup order -> k ∈ order -> m !! k = Some v ->
    let r := foldl (Live.serviceOne name s) (m, evs) order in
    match (Live.Write v name s).2 with
    | Some err =>
        r.1 !! k = None
        /\ Live.EvClose k (Live.Close (Live.Write v name s).1).2 ∈ r.2
    | None => r.1 !! k = Some (Live.Write v name s).1
    end.
Proof.
  induction order as [|k0 order IH]; intros m evs k v Hnd Hin Hk.
  { by apply elem_of_nil in Hin. }
  apply NoDup_cons in Hnd as [Hk0 Hnd]. cbn [foldl]. cbv zeta.
  destruct (decide (k = k0)) as [->|Hne].
  - clear IH Hin.
    destruct (service_fold_events name s order
                (Live.serviceOne name s (m, evs) k0).1
                (Live.serviceOne name s (m, evs) k0).2) as (new & E2 & _).
    rewrite <- surjective_pairing in E2. rewrite E2.
    rewrite (surjective_pairing (Live.serviceOne name s (m, evs) k0)).
    rewrite service_fold_other by done.
    unfold Live.serviceOne. cbn [fst snd]. rewrite Hk.
    destruct (Live.Write v name s) as [v' [err|]]; cbn [fst snd].
    + split; [apply lookup_delete_eq|].
      apply elem_of_app. left. apply elem_of_app. right.
      apply elem_of_cons. right. apply elem_of_cons. by left.
    + apply lookup_insert_eq.
  - apply elem_of_cons in Hin as [Hin|Hin]; [done|].
    rewrite (surjective_pairing (Live.serviceOne name s (m, evs) k0)).
    apply IH; [done|done|]. by rewrite serviceOne_other.
Qed.

(** C9: in [ServiceLiveFeeders], whatever order the map is walked in, a
    subscriber whose [Write] fails is taken out of the map and gets [Close]
    called; a subscriber whose [Write] goes through stays; the call returns
    no error; and a later [ServiceLiveFeeders] makes no [Write] call on a
    subscriber that was taken out. *)
Theorem C9_failed_subscriber_is_dropped (lf : Live.LiveFeeder C)
    (order : list Z) (name : string) (s : BWSample) :
  Live.rangeOrder order lf ->
  let r := Live.ServiceLiveFeeders order lf name s in
  r.2 = None
  /\ (forall k v, Live.liveConsumers lf !! k = Some v ->
      match (Live.Write v name s).2 with
      | Some err =>
          Live.liveConsumers r.1.1 !! k = None
          /\ Live.EvClose k (Live.Close (Live.Write v name s).1).2 ∈ r.1.2
          /\ forall order' name' s' e,
               Live.EvWrite k e
               ∉ (Live.ServiceLiveFeeders order' r.1.1 name' s').1.2
      | None =>
          Live.liveConsumers r.1.1 !! k = Some (Live.Write v name s).1
      end)
  /\ (forall order' lf' name' s',
        (Live.ServiceLiveFeeders order' lf' name' s').2 = None).
Proof.
  intros [Hnd Hdom] r. subst r. unfold Live.ServiceLiveFeeders.
  split; [by destruct (foldl _ _ _)|]. split.
  - intros k v Hk.
    assert (Hin : k ∈ order) by (apply Hdom; eauto).
    pose proof (service_fold_visited name s order (Live.liveConsumers lf) []
                  k v Hnd Hin Hk) as Hv. cbv zeta in Hv.
    destruct (foldl (Live.serviceOne name s) (Live.liveConsumers lf, []) order)
      as [m evs] eqn:E. cbn [fst snd Live.liveConsumers] in *.
    destruct (Live.Write v name s).2 as [err|]; [|exact Hv].
    destruct Hv as [Hgone Hclose]. split; [exact Hgone|]. split; [exact Hclose|].
    intros order' name' s' e Hw.
    destruct (service_fold_events name' s' order' m []) as (new & E2 & Hdom2).
    destruct (foldl (Live.serviceOne name' s') (m, []) order') as [m2 evs2].
    cbn [fst snd] in *. subst evs2. cbn [app] in Hw.
    apply Hdom2 in Hw. rewrite Hgone in Hw. by destruct Hw.
  - intros order' lf' name' s'. by destruct (foldl _ _ _).
Qed.

End LiveFacts.

Lemma C9_failed_subscriber_is_dropped_witness :
  let lf := Live.mkLiveFeeder 2 (<[1 := 0%nat]> (<[2 := 5%nat]> ∅)) in
  let r := Live.ServiceLiveFeeders [2; 1] lf "eth0" NewBwSample in
  r.2 = None
  /\ Live.liveConsumers r.1.1 !! 1 = None
  /\ Live.liveConsumers r.1.1 !! 2 = Some 4%nat
  /\ Live.EvClose 1 None ∈ r.1.2.
Proof.
  intros lf r.
  assert (Horder : Live.rangeOrder [2; 1] lf).
  { split.
    - apply NoDup_cons. split; [|apply NoDup_singleton].
      intros Hin. apply list_elem_of_singleton in Hin. discriminate Hin.
    - intros k. cbn [Live.liveConsumers lf]. split.
      + intros Hin. apply elem_of_cons in Hin as [->|Hin]; [by eexists|].
        apply list_elem_of_singleton in Hin as ->. by eexists.
      + intros [v Hv]. destruct (decide (k = 1)) as [->|H1].
        * apply elem_of_cons. right. apply elem_of_cons. by left.
        * rewrite lookup_insert_ne in Hv by done.
          destruct (decide (k = 2)) as [->|H2]; [apply elem_of_cons; by left|].
          rewrite lookup_insert_ne in Hv by done. by rewrite lookup_empty in Hv. }
  destruct (C9_failed_subscriber_is_dropped lf [2; 1] "eth0" NewBwSample Horder)
    as (Herr & Hsub & _).
  split; [exact Herr|].
  pose proof (Hsub 1 0%nat eq_refl) as H1.
  pose proof (Hsub 2 5%nat eq_refl) as H2.
  cbn [Live.Write countdown_consumer snd fst] in H1, H2.
  destruct H1 as (Hgone & Hclose & _).
  split; [exact Hgone|]. split; [exact H2|exact Hclose].
Defined.

(** ** Rebase *)

Section RebaseFacts.

Variable fault : StoreOp -> bool.

(** What is left in the source bucket after the walk over the pairs [l]:
    pairs of before, none of [l] with a timestamp before the cutoff. *)
Lemma shiftEntry_walk (src dst : string) (tcheck : Time) (keyFmt : Layout)
    (l : list (string * list byte)) :
  src <> dst ->
  forall (a a' : BWSample) (st st' : Store),
    bolt.forEachList (Bwdb.shiftEntry fault src dst tcheck keyFmt) l a st
    = inr (a', st') ->
    (forall b, b <> src -> b <> dst -> st' !! b = st !! b)
    /\ forall k v,
         bucketOf st' src !! k = Some v ->
         bucketOf st src !! k = Some v
         /\ forall v', (k, v') ∈ l ->
              exists s, Sample.Decode newVar v' = inr s
                        /\ tcheck <= Sample.TS s.
Proof.
  intros Hne. induction l as [|[k0 v0] l IH]; intros a a' st st' Hrun.
  - injection Hrun as <- <-. split; [done|]. intros k v Hk. split; [done|].
    intros v' Hin. by apply elem_of_nil in Hin.
  - cbn [bolt.forEachList] in Hrun. unfold tx_bind at 1 in Hrun.
    destruct (Bwdb.shiftEntry fault src dst tcheck keyFmt a k0 v0 st)
      as [err|[a1 st1]] eqn:E; [done|].
    apply IH in Hrun as [Hframe Hsrc]. clear IH.
    unfold Bwdb.shiftEntry in E. rewrite (Decode_receiver a newVar) in E.
    destruct (Sample.Decode newVar v0) as [err|s0] eqn:Hd; [done|].
    destruct (Before (Sample.TS s0) tcheck) eqn:Hb.
    + unfold tx_bind at 1 in E. rewrite Delete_eq in E.
      destruct (fault _); [done|].
      unfold tx_bind at 1 in E.
      destruct (Bwdb.updateVal fault dst _ s0 _) as [err|[u st2]] eqn:Eu; [done|].
      injection E as <- <-.
      apply updateVal_inr in Eu as (v1 & _ & ->).
      split.
      * intros b Hb1 Hb2. rewrite Hframe by done.
        by rewrite !lookup_insert_ne.
      * intros k v Hk. apply Hsrc in Hk as [Hk Hl].
        rewrite bucketOf_insert_ne, bucketOf_insert in Hk by done.
        destruct (decide (k = k0)) as [->|Hk0].
        { by rewrite lookup_delete_eq in Hk. }
        rewrite lookup_delete_ne in Hk by done. split; [exact Hk|].
        intros v' Hin. apply elem_of_cons in Hin as [[= -> ->]|Hin]; [done|].
        by apply Hl.
    + injection E as <- <-. split; [exact Hframe|].
      intros k v Hk. apply Hsrc in Hk as [Hk Hl]. split; [exact Hk|].
      intros v' Hin. apply elem_of_cons in Hin as [[= -> ->]|Hin]; [|by apply Hl].
      exists s0. split; [exact Hd|]. unfold Before in Hb. lia.
Qed.

(** A shift that returns without error leaves in the source bucket only
    values stamped at the cutoff or later, and touches no third bucket. *)
Lemma shiftIfOlder_ok (src dst : string) (tcheck : Time) (keyFmt : Layout)
    (st st' : Store) :
  src <> dst ->
  Bwdb.shiftIfOlder fault src dst tcheck keyFmt st = (st', None) ->
  residentSince st' src tcheck
  /\ forall b, b <> src -> b <> dst -> bucketOf st' b = bucketOf st b.
Proof.
  intros Hne Hrun. unfold Bwdb.shiftIfOlder in Hrun.
  destruct (Batch_cases fault
    (bolt.CreateBucketIfNotExists fault src;;;
     bolt.CreateBucketIfNotExists fault dst;;;
     bolt.ForEach src (Bwdb.shiftEntry fault src dst tcheck keyFmt) newVar;;;
     tx_ret ()) st) as [[err Hb]|(st2 & Hfn & Hb)];
    rewrite Hb in Hrun; [done|]. injection Hrun as ->. clear Hb.
  unfold tx_bind at 1 in Hfn. rewrite CreateBucketIfNotExists_eq in Hfn.
  destruct (fault _); [done|].
  unfold tx_bind at 1 in Hfn. rewrite CreateBucketIfNotExists_eq in Hfn.
  destruct (fault _); [done|].
  unfold tx_bind at 1 in Hfn. unfold bolt.ForEach in Hfn.
  set (st1 := match _ !! dst with Some _ => _ | None => _ end) in Hfn.
  destruct (bolt.forEachList _ _ _ st1) as [err|[a' st3]] eqn:E; [done|].
  injection Hfn as ->.
  apply shiftEntry_walk in E as [Hframe Hsrc]; [|done].
  assert (Hb1 : forall b, bucketOf st1 b = bucketOf st b).
  { intros b. subst st1. by rewrite !bucketOf_create. }
  split.
  - intros k v Hk. apply Hsrc in Hk as [Hk Hl]. apply Hl.
    by apply elem_of_entries.
  - intros b Hs Hd. rewrite <- Hb1. unfold bucketOf. by rewrite Hframe.
Qed.

(** After a [Rebase] that returns without error, each bucket holds only
    values stamped at or after what the helper for it gives. *)
Lemma Rebase_ok (d d' : Bwdb.bwdb) (ts : Time) :
  Bwdb.Rebase fault d ts = (d', None) ->
  residentSince (Bwdb.db d') bktMin (Bwdb.prevHour ts)
  /\ residentSince (Bwdb.db d') bktHour (Bwdb.prevDay ts)
  /\ residentSince (Bwdb.db d') bktDay (Bwdb.prevMon ts).
Proof.
  unfold Bwdb.Rebase. destruct (negb (Bwdb.open d)); [done|].
  destruct (Bwdb.shiftIfOlder _ _ _ _ _ _) as [st1 [e1|]] eqn:E1; [done|].
  destruct (Bwdb.shiftIfOlder _ _ _ _ _ st1) as [st2 [e2|]] eqn:E2; [done|].
  destruct (Bwdb.shiftIfOlder _ _ _ _ _ st2) as [st3 [e3|]] eqn:E3; [done|].
  intros [= <-]. cbn [Bwdb.set_db Bwdb.db].
  apply shiftIfOlder_ok in E1 as [R1 _]; [|done].
  apply shiftIfOlder_ok in E2 as [R2 F2]; [|done].
  apply shiftIfOlder_ok in E3 as [R3 F3]; [|done].
  unfold residentSince in *.
  split; [|split].
  - intros k v. rewrite F3, F2 by done. apply R1.
  - intros k v. rewrite F3 by done. apply R2.
  - exact R3.
Qed.

End RebaseFacts.

(** ** The calendar, and what the [prev] helpers compute *)

Lemma civil_from_days_ok (z : Z) :
  let '(y, m, d) := civil_from_days z in
  1 <= m <= 12 /\ 1 <= d <= daysIn m y /\ days_from_civil y m d = z.
Proof.
  unfold civil_from_days, days_from_civil, daysIn, isLeap.
  set (era := (z + 719468) / 146097).
  set (doe := z + 719468 - era * 146097).
  assert (Hdoe : 0 <= doe < 146097).
  { subst doe era. pose proof (Z.mod_pos_bound (z + 719468) 146097).
    rewrite Z.mod_eq in H by lia. lia. }
  set (yoe := (doe - doe / 1460 + doe / 36524 - doe / 146096) / 365).
  set (doy := doe - (365 * yoe + yoe / 4 - yoe / 100)).
  assert (Hy : 0 <= yoe <= 399 /\ 0 <= doy <= 365).
  { subst yoe doy. clearbody doe. clear era. Z.div_mod_to_equations. lia. }
  assert (Hleap : doy = 365 ->
            (yoe + 1) mod 4 = 0
            /\ ((yoe + 1) mod 100 <> 0 \/ (yoe + 1) mod 400 = 0)).
  { subst yoe doy. clearbody doe. clear era Hy. Z.div_mod_to_equations. lia. }
  destruct Hy as [Hyoe Hdoy].
  set (mp := (5 * doy + 2) / 153).
  assert (Hmp : 0 <= mp <= 11).
  { subst mp. clearbody doy. Z.div_mod_to_equations. lia. }
  assert (Hdoe' : doe = yoe * 365 + yoe / 4 - yoe / 100 + doy)
    by (subst doy; lia).
  assert (Hz : z = era * 146097 + doe - 719468) by (subst doe; lia).
  clearbody doy yoe doe era.
  assert (Hcase : mp = 0 \/ mp = 1 \/ mp = 2 \/ mp = 3 \/ mp = 4 \/ mp = 5
                  \/ mp = 6 \/ mp = 7 \/ mp = 8 \/ mp = 9 \/ mp = 10 \/ mp = 11)
    by lia.
  assert (Hmpdef : 153 * mp <= 5 * doy + 2 < 153 * mp + 153).
  { subst mp. Z.div_mod_to_equations. lia. }
  clearbody mp.
  assert (Hera : forall y, 0 <= y <= 399 ->
            (y + era * 400) / 400 = era
            /\ (y + era * 400) mod 4 = y mod 4
            /\ (y + era * 400) mod 100 = y mod 100
            /\ (y + era * 400) mod 400 = y mod 400).
  { intros y Hyr. Z.div_mod_to_equations. lia. }
  destruct (mp <? 10) eqn:Hlt.
  - apply Z.ltb_lt in Hlt.
    replace (mp + 3 <=? 2) with false by (symmetry; apply Z.leb_gt; lia).
    destruct (Hera yoe Hyoe) as (He & H4 & H100 & H400).
    rewrite He, H4, H100, H400.
    replace (mp + 3 - 3) with mp by lia.
    split; [lia|]. split.
    + destruct Hcase as [->|[->|[->|[->|[->|[->|[->|[->|[->|[->|Hc]]]]]]]]]];
        [..|lia];
        match goal with
        | |- _ <= _ <= ?r => let r' := eval vm_compute in r in change r with r'
        end; Z.div_mod_to_equations; lia.
    + replace (yoe + era * 400 - era * 400) with yoe by lia.
      lia.
  - apply Z.ltb_ge in Hlt.
    replace (mp - 9 <=? 2) with true by (symmetry; apply Z.leb_le; lia).
    replace (yoe + era * 400 + 1 - 1) with (yoe + era * 400) by lia.
    destruct (Hera yoe Hyoe) as (He & _).
    rewrite He.
    replace (mp - 9 + 9) with mp by lia.
    split; [lia|]. split.
    + assert (Hc : mp = 10 \/ mp = 11) by lia.
      destruct Hc as [->| ->].
      * match goal with
        | |- _ <= _ <= ?r => let r' := eval vm_compute in r in change r with r'
        end. Z.div_mod_to_equations. lia.
      * replace (11 - 9 =? 2) with true by done.
        assert (Hl : (yoe + era * 400 + 1) mod 4 = (yoe + 1) mod 4
                     /\ (yoe + era * 400 + 1) mod 100 = (yoe + 1) mod 100
                     /\ (yoe + era * 400 + 1) mod 400 = (yoe + 1) mod 400).
        { Z.div_mod_to_equations. lia. }
        destruct Hl as (-> & -> & ->).
        destruct (Z.eq_dec doy 365) as [E|E].
        -- destruct (Hleap E) as [L4 L100].
           rewrite L4. cbn [Z.eqb andb].
           replace ((0 =? 0)) with true by done. cbn [andb].
           destruct L100 as [L|L].
           ++ replace ((yoe + 1) mod 100 =? 0) with false
                by (symmetry; by apply Z.eqb_neq).
              cbn [negb orb]. Z.div_mod_to_equations. lia.
           ++ rewrite L. rewrite orb_true_r. Z.div_mod_to_equations. lia.
        -- destruct ((_ =? 0) && _); Z.div_mod_to_equations; lia.
    + replace (yoe + era * 400 - era * 400) with yoe by lia. lia.
Qed.

Lemma allBelow_spec (n : nat) (P : Z -> bool) :
  allBelow n P = true -> forall z, 0 <= z < Z.of_nat n -> P z = true.
Proof.
  induction n as [|n IH]; intros Hall z Hz; [lia|].
  cbn [allBelow] in Hall. apply andb_true_iff in Hall as [Hn Hall].
  destruct (Z.eq_dec z (Z.of_nat n)) as [->|Hne]; [done|].
  apply IH; [done|lia].
Qed.

Lemma twoDigits_all (n : Z) : 0 <= n < 100 -> twoDigits n = true.
Proof.
  apply (allBelow_spec (Z.to_nat 100) twoDigits). by vm_compute.
Qed.

Lemma fourDigits_all (n : Z) : 0 <= n < 10000 -> fourDigits n = true.
Proof.
  apply (allBelow_spec (Z.to_nat 10000) fourDigits). by vm_compute.
Qed.

Lemma getnum_appendInt (n : Z) (fixed : bool) (rest : string) :
  0 <= n < 100 ->
  getnum (appendInt n 2 +:+ rest) fixed = Some (n, rest).
Proof.
  intros Hn. pose proof (twoDigits_all n Hn) as Hd. unfold twoDigits in Hd.
  destruct (appendInt n 2) as [|c0 [|c1 [|? ?]]]; try done.
  apply andb_true_iff in Hd as [Hd Hv]. apply andb_true_iff in Hd as [H0 H1].
  apply Z.eqb_eq in Hv. cbv [String.append getnum]. by rewrite H0, H1, Hv.
Qed.

Lemma getyear_appendInt (n : Z) (rest : string) :
  0 <= n < 10000 ->
  getyear (appendInt n 4 +:+ rest) = Some (n, rest).
Proof.
  intros Hn. pose proof (fourDigits_all n Hn) as Hd. unfold fourDigits in Hd.
  destruct (appendInt n 4) as [|c0 [|c1 [|c2 [|c3 [|? ?]]]]]; try done.
  apply andb_true_iff in Hd as [Hd Hv]. apply Z.eqb_eq in Hv.
  cbv [String.append getyear]. by rewrite Hd, Hv.
Qed.

Lemma sprintf0d_appendInt (width : nat) (n : Z) :
  0 <= n -> sprintf0d width n = appendInt n width.
Proof.
  intros Hn. unfold sprintf0d, appendInt.
  by replace (n <? 0) with false by (symmetry; apply Z.ltb_ge; lia).
Qed.

Lemma clock_ranges (t : Time) :
  0 <= HourOf t < 24 /\ 0 <= MinuteOf t < 60.
Proof.
  unfold HourOf, MinuteOf, secOfDay, secondsPerDay.
  Z.div_mod_to_equations. lia.
Qed.

Lemma calendar_ranges (t : Time) :
  1 <= MonthOf t <= 12
  /\ 1 <= DayOf t <= daysIn (MonthOf t) (YearOf t)
  /\ days_from_civil (YearOf t) (MonthOf t) (DayOf t) = unixDay t.
Proof.
  unfold MonthOf, DayOf, YearOf.
  pose proof (civil_from_days_ok (unixDay t)) as H.
  by destruct (civil_from_days (unixDay t)) as [[y m] d].
Qed.

Lemma daysIn_range (m y : Z) : 28 <= daysIn m y <= 31.
Proof.
  unfold daysIn. destruct (m =? 2); [destruct (isLeap y); lia|].
  destruct (_ || _); lia.
Qed.

Lemma Parse_hourFmt (t : Time) :
  0 <= YearOf t <= 9999 ->
  Parse hourFmt (Format hourFmt t)
  = Some (Date (YearOf t) (MonthOf t) (DayOf t) (HourOf t) 0).
Proof.
  intros Hy. destruct (calendar_ranges t) as (Hm & Hd & _).
  destruct (clock_ranges t) as (Hh & _).
  pose proof (daysIn_range (MonthOf t) (YearOf t)) as Hdi.
  unfold Parse. cbn [Format formatChunk hourFmt parseChunks parseChunk].
  rewrite getnum_appendInt by lia. range_false. cbn [orb].
  rewrite getnum_appendInt by lia.
  rewrite getyear_appendInt by lia.
  rewrite getnum_appendInt by lia. range_false. cbn [orb].
  cbn [pDay pMonth pYear pHour pMin parsed0]. range_false. done.
Qed.

Lemma Parse_dayFmt (t : Time) :
  0 <= YearOf t <= 9999 ->
  Parse dayFmt (Format dayFmt t)
  = Some (Date (YearOf t) (MonthOf t) (DayOf t) 0 0).
Proof.
  intros Hy. destruct (calendar_ranges t) as (Hm & Hd & _).
  pose proof (daysIn_range (MonthOf t) (YearOf t)) as Hdi.
  unfold Parse. cbn [Format formatChunk dayFmt parseChunks parseChunk].
  rewrite getnum_appendInt by lia. range_false. cbn [orb].
  rewrite getnum_appendInt by lia.
  rewrite getyear_appendInt by lia.
  cbn [pDay pMonth pYear pHour pMin parsed0]. range_false. done.
Qed.

Lemma Parse_yearMonth (y m : Z) :
  0 <= y <= 9999 -> 1 <= m <= 12 ->
  Parse yearMonthFmt (sprintf0d 4 y +:+ "-" +:+ sprintf0d 2 m)
  = Some (Date y m 1 0 0).
Proof.
  intros Hy Hm. pose proof (daysIn_range m y) as Hdi.
  rewrite !sprintf0d_appendInt by lia.
  unfold Parse. cbn [yearMonthFmt parseChunks parseChunk].
  rewrite getyear_appendInt by lia.
  replace (appendInt m 2) with (appendInt m 2 +:+ "")
    by (induction (appendInt m 2) as [|c r IH]; [done|];
        cbv [String.append] in *; by rewrite IH).
  cbv [skipPrefix String.append]. cbn [Ascii.eqb Bool.eqb].
  fold String.append.
  rewrite getnum_appendInt by lia. range_false. cbn [orb].
  cbn [pDay pMonth pYear pHour pMin parsed0]. range_false. done.
Qed.

(** [prevHour] is the start of the hour of [ts] plus one hour, [prevDay]
    the start of its day plus one day, [prevMon] the start of the month
    before its month. *)
Lemma prevHour_spec (ts : Time) :
  0 <= YearOf ts <= 9999 -> Bwdb.prevHour ts = startOfHour ts + Hour.
Proof.
  intros Hy. unfold Bwdb.prevHour, ParseOrZero. rewrite Parse_hourFmt by done.
  unfold Date. destruct (calendar_ranges ts) as (_ & _ & ->).
  unfold TimeAdd, startOfHour, HourOf, secOfDay, unixDay, unixSec,
    secondsPerDay, Hour, Minute, Second, Nanosecond.
  Z.div_mod_to_equations. lia.
Qed.

Lemma prevDay_spec (ts : Time) :
  0 <= YearOf ts <= 9999 -> Bwdb.prevDay ts = startOfDay ts + 24 * Hour.
Proof.
  intros Hy. unfold Bwdb.prevDay, ParseOrZero. rewrite Parse_dayFmt by done.
  unfold Date. destruct (calendar_ranges ts) as (_ & _ & ->).
  unfold TimeAdd, startOfDay, unixDay, unixSec,
    secondsPerDay, Hour, Minute, Second, Nanosecond.
  Z.div_mod_to_equations. lia.
Qed.

Lemma prevMon_spec (ts : Time) :
  1 <= YearOf ts <= 9999 -> Bwdb.prevMon ts = startOfPrevMonth ts.
Proof.
  intros Hy. destruct (calendar_ranges ts) as (Hm & _ & _).
  unfold Bwdb.prevMon, startOfPrevMonth, ParseOrZero.
  destruct (MonthOf ts =? 1) eqn:E.
  - by rewrite Parse_yearMonth by lia.
  - apply Z.eqb_neq in E. by rewrite Parse_yearMonth by lia.
Qed.

(** The start of the month before is earlier than the start of the month. *)
Lemma startOfPrevMonth_lt (ts : Time) : startOfPrevMonth ts < startOfMonth ts.
Proof.
  destruct (calendar_ranges ts) as (Hm & _ & _).
  unfold startOfPrevMonth, startOfMonth, Date, days_from_civil, secondsPerDay,
    Second, Nanosecond.
  set (y := YearOf ts) in *. set (m := MonthOf ts) in *. clearbody y m.
  assert (Hc : m = 1 \/ m = 2 \/ m = 3 \/ m = 4 \/ m = 5 \/ m = 6 \/ m = 7
               \/ m = 8 \/ m = 9 \/ m = 10 \/ m = 11 \/ m = 12) by lia.
  destruct Hc as [->|[->|[->|[->|[->|[->|[->|[->|[->|[->|[->| ->]]]]]]]]]]];
    repeat match goal with
    | |- context [?a =? ?b] =>
        let r := eval vm_compute in (a =? b) in
        match r with
        | true => change (a =? b) with true
        | false => change (a =? b) with false
        end
    | |- context [?a <=? ?b] =>
        let r := eval vm_compute in (a <=? b) in
        match r with
        | true => change (a <=? b) with true
        | false => change (a <=? b) with false
        end
    end; cbv iota; Z.div_mod_to_equations; lia.
Qed.

Lemma residentSince_mono (st : Store) (bkt : string) (c c' : Time) :
  c <= c' -> residentSince st bkt c' -> residentSince st bkt c.
Proof.
  intros Hc Hr k v Hk. destruct (Hr k v Hk) as (s & Hd & Hs).
  exists s. split; [done|]. lia.
Qed.

(** C1, as stated, fails for the day bucket: an entry of the month before
    the month of [T] is still there after [Rebase(T)]. *)
Lemma C1_day_bucket_keeps_the_month_before :
  let old := mkBWSample (Date 2016 1 20 0 0) 5 7 in
  let st : Store := {[ bktDay := {[ "01202016"%string := Sample.Encode old ]} ]} in
  let d := Bwdb.mkBwdb true st [] 60 zeroTime in
  let T := Date 2016 2 15 12 0 in
  let r := Bwdb.Rebase noFault d T in
  r.2 = None
  /\ bucketOf (Bwdb.db r.1) bktDay !! "01202016"%string = Some (Sample.Encode old)
  /\ Sample.Decode newVar (Sample.Encode old) = inr old
  /\ Ts old < startOfMonth T
  /\ ~ residentSince (Bwdb.db r.1) bktDay (startOfMonth T).
Proof.
  intros old st d T r.
  assert (H1 : r.2 = None) by (by vm_compute).
  assert (H2 : bucketOf (Bwdb.db r.1) bktDay !! "01202016"%string
               = Some (Sample.Encode old)) by (by vm_compute).
  assert (H3 : Sample.Decode newVar (Sample.Encode old) = inr old)
    by (by vm_compute).
  assert (H4 : Ts old < startOfMonth T) by (by vm_compute).
  repeat (split; [done|]).
  intros Hres. destruct (Hres _ _ H2) as (s & Hd & Hs).
  rewrite H3 in Hd. injection Hd as <-. unfold Sample.TS in Hs. lia.
Qed.

(** What [Rebase(T)] leaves, by the cutoffs the helpers compute: the minute
    bucket from the end of the hour of [T] on, the hour bucket from the end
    of its day on, the day bucket from the start of the month before on. *)
Lemma Rebase_cutoffs (fault : StoreOp -> bool) (d d' : Bwdb.bwdb) (T : Time) :
  1 <= YearOf T <= 9999 ->
  Bwdb.Rebase fault d T = (d', None) ->
  residentSince (Bwdb.db d') bktMin (startOfHour T + Hour)
  /\ residentSince (Bwdb.db d') bktHour (startOfDay T + 24 * Hour)
  /\ residentSince (Bwdb.db d') bktDay (startOfPrevMonth T).
Proof.
  intros Hy Hrun. apply Rebase_ok in Hrun as (Hmin & Hhour & Hday).
  rewrite prevHour_spec in Hmin by lia.
  rewrite prevDay_spec in Hhour by lia.
  rewrite prevMon_spec in Hday by lia.
  done.
Qed.

(** C1 (amended): after a [Rebase(T)] that returns without error (the year
    of [T] having four digits), every value left in the minute bucket is
    stamped at or after the start of the hour of [T], every value left in
    the hour bucket at or after the start of the day of [T], and every value
    left in the day bucket at or after the start of the month before the
    month of [T], which is earlier than the start of the month of [T]. *)
Theorem C1_rebase_residency (fault : StoreOp -> bool) (d d' : Bwdb.bwdb)
    (T : Time) :
  1 <= YearOf T <= 9999 ->
  Bwdb.Rebase fault d T = (d', None) ->
  residentSince (Bwdb.db d') bktMin (startOfHour T)
  /\ residentSince (Bwdb.db d') bktHour (startOfDay T)
  /\ residentSince (Bwdb.db d') bktDay (startOfPrevMonth T)
  /\ startOfPrevMonth T < startOfMonth T.
Proof.
  intros Hy Hrun.
  destruct (Rebase_cutoffs fault d d' T Hy Hrun) as (Hmin & Hhour & Hday).
  split; [|split; [|split]].
  - eapply residentSince_mono; [|exact Hmin].
    unfold Hour, Minute, Second, Nanosecond. lia.
  - eapply residentSince_mono; [|exact Hhour].
    unfold Hour, Minute, Second, Nanosecond. lia.
  - exact Hday.
  - apply startOfPrevMonth_lt.
Qed.

Lemma C1_rebase_residency_witness :
  let old := mkBWSample (Date 2016 1 20 0 0) 5 7 in
  let st : Store := {[ bktDay := {[ "01202016"%string := Sample.Encode old ]} ]} in
  let d := Bwdb.mkBwdb true st [] 60 zeroTime in
  let T := Date 2016 2 15 12 0 in
  residentSince (Bwdb.db (Bwdb.Rebase noFault d T).1) bktMin (startOfHour T)
  /\ residentSince (Bwdb.db (Bwdb.Rebase noFault d T).1) bktHour (startOfDay T)
  /\ residentSince (Bwdb.db (Bwdb.Rebase noFault d T).1) bktDay
       (startOfPrevMonth T).
Proof.
  intros old st d T.
  assert (Hy : 1 <= YearOf T <= 9999) by (vm_compute; split; discriminate).
  assert (Hrun : Bwdb.Rebase noFault d T = ((Bwdb.Rebase noFault d T).1, None)).
  { apply injective_projections; [done|]. by vm_compute. }
  destruct (C1_rebase_residency noFault d _ T Hy Hrun) as (Hmin & Hhour & Hday & _).
  split; [exact Hmin|]. split; [exact Hhour|exact Hday].
Defined.

(** ** The repository's tests, run on the embedding *)

(** [TestDbAddSeconds] and [TestLive]: two minute entries, each with the
    minute of its timestamp times sixty in both counts; a ring of 20. *)
Example TestDbAddSeconds :
  Bwdb.Minutes afterAddSeconds
  = inr [mkBWSample (1 * Second) 0 0; mkBWSample (60 * Second) 60 60]
  /\ length (Bwdb.hist afterAddSeconds) = 20%nat.
Proof. split; by vm_compute. Qed.

(** [TestRollover]: one minute entry left, two hour entries, the later one
    holding (1000, 1000) in hour 2, the earlier one in hour 1. *)
Example TestRollover :
  (exists m, Bwdb.Minutes afterRollover = inr [m])
  /\ exists h1 h2,
       Bwdb.Hours afterRollover = inr [h1; h2]
       /\ HourOf (Ts h1) = 1
       /\ HourOf (Ts h2) = 2 /\ BytesUp h2 = 1000 /\ BytesDown h2 = 1000.
Proof.
  split.
  - eexists (mkBWSample _ _ _). by vm_compute.
  - eexists (mkBWSample _ _ _), (mkBWSample _ _ _).
    split; [by vm_compute|]. by vm_compute.
Qed.

(** * More of the code *)

(** ** The sample record *)

(** Every 24-byte buffer decodes, to a sample with counts in [uint64] and a
    timestamp in [int64], and encoding that sample gives the buffer back;
    what [Encode] makes is always 24 bytes long. *)
Theorem Encode_after_Decode (r s0 : BWSample) (b : list byte) :
  length b = 24%nat ->
  length (Sample.Encode s0) = 24%nat
  /\ exists s, Sample.Decode r b = inr s
       /\ Sample.Encode s = b
       /\ sample_ok s /\ is_i64 (Ts s).
Proof.
  intros Hl. split; [apply length_Encode|].
  destruct (Decode_length r b Hl) as [s Hd]. exists s.
  split; [exact Hd|]. split; [by apply (Encode_Decode r)|].
  destruct (Decode_ranges _ _ _ Hd) as (Ht & Hu & Hdn).
  split; [by split|done].
Qed.

Lemma Encode_after_Decode_witness :
  let b := putLE 8 (-1) ++ putLE 8 258 ++ putLE 8 (2 ^ 64 - 1) in
  exists s, Sample.Decode newVar b = inr s /\ Sample.Encode s = b.
Proof.
  intros b.
  destruct (Encode_after_Decode newVar newVar b eq_refl) as (_ & s & Hd & He & _).
  exists s. split; [exact Hd|exact He].
Defined.

Lemma sumUp_perm (l l' : list BWSample) :
  l ≡ₚ l' -> sumUp l = sumUp l' /\ sumDown l = sumDown l'.
Proof.
  induction 1 as [|x l l' _ [IHu IHd]|x y l|l l' l'' _ [IHu IHd] _ [IHu' IHd']].
  - done.
  - rewrite !sumUp_cons, !sumDown_cons. lia.
  - rewrite !sumUp_cons, !sumDown_cons. lia.
  - lia.
Qed.

Lemma addAll_eq (l : list BWSample) :
  forall a : BWSample,
    sample_ok a ->
    addAll a l
    = mkBWSample (Ts a) (u64 (BytesUp a + sumUp l))
                 (u64 (BytesDown a + sumDown l)).
Proof.
  induction l as [|x l IH]; intros a [Hu Hd].
  - cbn [addAll foldl sumUp sumDown foldr].
    rewrite !Z.add_0_r, !u64_small by done. by destruct a.
  - cbn [addAll foldl Sample.Add]. fold (addAll (mkBWSample (Ts a)
      (u64 (BytesUp a + BytesUp x)) (u64 (BytesDown a + BytesDown x))) l).
    rewrite IH by (split; apply u64_range).
    cbn [Ts BytesUp BytesDown]. rewrite sumUp_cons, sumDown_cons, !u64_add_l.
    by rewrite !Z.add_assoc.
Qed.

(** Adding samples into an accumulator keeps the accumulator's timestamp,
    gives the sums of the byte counts modulo 2^64, and does not depend on
    the order the samples are added in. *)
Theorem Add_order_independent (a : BWSample) (l l' : list BWSample) :
  sample_ok a ->
  l ≡ₚ l' ->
  addAll a l = addAll a l'
  /\ Ts (addAll a l) = Ts a
  /\ BytesUp (addAll a l) = u64 (BytesUp a + sumUp l)
  /\ BytesDown (addAll a l) = u64 (BytesDown a + sumDown l).
Proof.
  intros Hok Hp. rewrite !addAll_eq by done.
  destruct (sumUp_perm l l' Hp) as [-> ->]. done.
Qed.

Lemma Add_order_independent_witness :
  let a := mkBWSample 5 1 2 in
  let x := mkBWSample 7 (2 ^ 64 - 1) 10 in
  let y := mkBWSample 9 3 4 in
  addAll a [x; y] = addAll a [y; x]
  /\ addAll a [x; y] = mkBWSample 5 3 16.
Proof.
  intros a x y.
  destruct (Add_order_independent a [x; y] [y; x]) as (H1 & _).
  - split; unfold is_u64; cbn; lia.
  - apply perm_swap.
  - split; [exact H1|]. by vm_compute.
Defined.

(** ** The engine: open, closed, and [last] *)

Lemma call_closed (fault : StoreOp -> bool) (d : Bwdb.bwdb) (c : Call) :
  Bwdb.open d = false -> call fault d c = (d, Some errNotOpen).
Proof.
  intros Ho. destruct c as [s|s|ts| |e]; cbn [call];
    unfold Bwdb.Add, Bwdb.AddRand, Bwdb.addOutOfOrder, Bwdb.Rebase, Bwdb.purge,
      Bwdb.Close; by rewrite Ho.
Qed.

Lemma calls_closed (fault : StoreOp -> bool) (cs : list Call) (d : Bwdb.bwdb) :
  Bwdb.open d = false -> calls fault d cs = d.
Proof.
  intros Ho. induction cs as [|c cs IH]; [done|].
  cbn [calls foldl]. rewrite call_closed by done. exact IH.
Qed.

(** A [Close] that goes through empties the ring and leaves the store and
    [last]; from then on every call, and every query, returns [errNotOpen]
    and changes nothing, whatever calls came in between. *)
Theorem Close_is_terminal (fault : StoreOp -> bool) (d : Bwdb.bwdb)
    (cs : list Call) (c : Call) (bkt : string) :
  Bwdb.open d = true ->
  let d' := (Bwdb.Close d None).1 in
  (Bwdb.Close d None).2 = None
  /\ Bwdb.open d' = false /\ Bwdb.hist d' = []
  /\ Bwdb.db d' = Bwdb.db d /\ Bwdb.last d' = Bwdb.last d
  /\ calls fault d' cs = d'
  /\ call fault (calls fault d' cs) c = (d', Some errNotOpen)
  /\ Bwdb.LiveSet (calls fault d' cs) = inl errNotOpen
  /\ Bwdb.pullSet (calls fault d' cs) bkt = inl errNotOpen.
Proof.
  intros Ho d'. subst d'. unfold Bwdb.Close at 1 2 3 4 5. rewrite Ho.
  cbn [negb fst snd Bwdb.set_open Bwdb.set_hist Bwdb.open Bwdb.hist Bwdb.db
       Bwdb.last Bwdb.histSize].
  repeat (split; [done|]).
  assert (Hc : Bwdb.open (Bwdb.Close d None).1 = false).
  { unfold Bwdb.Close. by rewrite Ho. }
  rewrite calls_closed by done.
  split; [done|]. split; [by apply call_closed|].
  unfold Bwdb.LiveSet, Bwdb.pullSet. by rewrite Hc.
Qed.

Lemma Close_is_terminal_witness :
  let d := Bwdb.mkBwdb true ∅ [NewBwSample] 20 5 in
  let d' := Bwdb.mkBwdb false ∅ [] 20 5 in
  (Bwdb.Close d None).1 = d'
  /\ call noFault (calls noFault d' [CallRebase 7; CallPurge])
       (CallAdd (mkBWSample 9 1 1)) = (d', Some errNotOpen).
Proof.
  intros d d'.
  destruct (Close_is_terminal noFault d [CallRebase 7; CallPurge]
              (CallAdd (mkBWSample 9 1 1)) bktMin eq_refl)
    as (_ & _ & _ & _ & _ & _ & H & _).
  split; [done|]. exact H.
Defined.

Lemma Rebase_last (fault : StoreOp -> bool) (d : Bwdb.bwdb) (ts : Time) :
  Bwdb.last (Bwdb.Rebase fault d ts).1 = Bwdb.last d
  /\ Bwdb.open (Bwdb.Rebase fault d ts).1 = Bwdb.open d.
Proof.
  unfold Bwdb.Rebase. destruct (negb (Bwdb.open d)); [done|].
  destruct (Bwdb.shiftIfOlder _ _ _ _ _ _) as [st1 [e1|]]; [done|].
  destruct (Bwdb.shiftIfOlder _ _ _ _ _ _) as [st2 [e2|]]; [done|].
  by destruct (Bwdb.shiftIfOlder _ _ _ _ _ _) as [st3 [e3|]].
Qed.

Lemma Add_last (fault : StoreOp -> bool) (d : Bwdb.bwdb) (s : BWSample) :
  Bwdb.last d <= Bwdb.last (Bwdb.Add fault d s).1
  /\ ((Bwdb.Add fault d s).2 = None -> Bwdb.open d = true ->
      Sample.After s (Bwdb.last d) = true ->
      Bwdb.last (Bwdb.Add fault d s).1 = Ts s).
Proof.
  destruct (Bwdb.open d) eqn:Ho.
  - destruct (Sample.After s (Bwdb.last d)) eqn:Ha.
    + rewrite Add_in_order by done. cbv zeta.
      assert (Hle : Bwdb.last d <= Ts s).
      { unfold Sample.After, Before in Ha. apply negb_true_iff in Ha. lia. }
      destruct (bolt.Batch _ _ _) as [st [err|]]; cbn [fst snd Bwdb.last].
      * split; [|done]. destruct (TimeEq _ _); lia.
      * done.
    + unfold Bwdb.Add. rewrite Ho, Ha. cbn [negb].
      rewrite addOutOfOrder_eq, Ho. cbn [negb fst Bwdb.set_db Bwdb.last].
      split; [lia|done].
  - unfold Bwdb.Add. rewrite Ho. cbn [negb fst]. split; [lia|done].
Qed.

Lemma call_last (fault : StoreOp -> bool) (d : Bwdb.bwdb) (c : Call) :
  c <> CallPurge -> Bwdb.last d <= Bwdb.last (call fault d c).1.
Proof.
  intros Hc. destruct c as [s|s|ts| |e]; cbn [call]; [| | |done|].
  - apply Add_last.
  - unfold Bwdb.AddRand. rewrite addOutOfOrder_eq.
    destruct (negb (Bwdb.open d)); cbn [fst Bwdb.set_db Bwdb.last]; lia.
  - destruct (Rebase_last fault d ts) as [-> _]. lia.
  - unfold Bwdb.Close. destruct (negb (Bwdb.open d)); [cbn; lia|].
    destruct e; cbn; lia.
Qed.

Lemma addInOrder_last (fault : StoreOp -> bool) (ss : list BWSample) :
  forall (d d' : Bwdb.bwdb) (s : BWSample),
    addInOrder fault d ss = Some d' ->
    last ss = Some s ->
    Bwdb.last d' = Ts s.
Proof.
  induction ss as [|x ss IH]; intros d d' s Hrun Hlast; [done|].
  cbn [addInOrder] in Hrun.
  destruct (Bwdb.open d) eqn:Ho; [|done].
  destruct (Sample.After x (Bwdb.last d)) eqn:Ha; [|done].
  cbn [andb] in Hrun.
  destruct (Add_last fault d x) as [_ Hl].
  destruct (Bwdb.Add fault d x) as [d1 [err|]]; [done|].
  cbn [fst snd] in Hl. destruct ss as [|y ss].
  - injection Hrun as <-. injection Hlast as <-. by apply Hl.
  - eapply IH; [exact Hrun|]. by rewrite last_cons_cons in Hlast.
Qed.

(** [last] never goes back as long as nothing purges the engine, whatever
    the calls and whether they fail; and after in-order inserts that all
    went through it is the timestamp of the sample inserted last. *)
Theorem last_follows_the_inserts (fault : StoreOp -> bool) (d d' : Bwdb.bwdb)
    (cs : list Call) (ss : list BWSample) (s : BWSample) :
  CallPurge ∉ cs ->
  Bwdb.last d <= Bwdb.last (calls fault d cs)
  /\ (addInOrder fault d ss = Some d' -> last ss = Some s ->
      Bwdb.last d' = Ts s /\ Bwdb.last d <= Ts s).
Proof.
  intros Hcs. split.
  - revert d. induction cs as [|c cs IH]; intros d; [cbn; lia|].
    cbn [calls foldl]. apply not_elem_of_cons in Hcs as [Hc Hcs].
    etrans; [apply (call_last fault d c); congruence|]. by apply IH.
  - intros Hrun Hlast. split; [by eapply addInOrder_last|].
    clear Hcs. revert d d' Hrun Hlast.
    induction ss as [|x ss IH]; intros d d' Hrun Hlast; [done|].
    cbn [addInOrder] in Hrun.
    destruct (Bwdb.open d) eqn:Ho; [|done].
    destruct (Sample.After x (Bwdb.last d)) eqn:Ha; [|done].
    cbn [andb] in Hrun.
    destruct (Add_last fault d x) as [Hle Hl].
    destruct (Bwdb.Add fault d x) as [d1 [err|]]; [done|].
    cbn [fst snd] in *. destruct ss as [|y ss].
    + injection Hlast as <-. rewrite <- Hl by done. lia.
    + rewrite last_cons_cons in Hlast.
      etrans; [exact Hle|]. by eapply IH.
Qed.

Lemma last_follows_the_inserts_witness :
  let d := Bwdb.mkBwdb true ∅ [] 20 zeroTime in
  let s1 := mkBWSample (Date 2016 1 1 1 0) 1 1 in
  let s2 := mkBWSample (Date 2016 1 1 1 1) 2 2 in
  exists d', addInOrder noFault d [s1; s2] = Some d'
             /\ Bwdb.last d' = Ts s2.
Proof.
  intros d s1 s2.
  destruct (addInOrder noFault d [s1; s2]) as [d'|] eqn:E.
  - exists d'. split; [done|].
    destruct (last_follows_the_inserts noFault d d' [] [s1; s2] s2) as [_ H].
    + apply not_elem_of_nil.
    + by apply H.
  - exfalso. revert E. vm_compute. discriminate.
Defined.

(** ** The engine: what an in-order insert writes *)

Lemma tx_bind_inr {A B : Type} (m : Tx A) (k : A -> Tx B) (st st' : Store)
    (b : B) :
  tx_bind m k st = inr (b, st') ->
  exists a st1, m st = inr (a, st1) /\ k a st1 = inr (b, st').
Proof.
  unfold tx_bind. destruct (m st) as [err|[a st1]]; [done|]. eauto.
Qed.

Lemma create_inr (fault : StoreOp -> bool) (b : string) (st st1 : Store)
    (u : unit) :
  bolt.CreateBucketIfNotExists fault b st = inr (u, st1) ->
  fault (OpCreateBucket b) = false
  /\ (forall b', bucketOf st1 b' = bucketOf st b')
  /\ (forall b', b' <> b -> st1 !! b' = st !! b')
  /\ is_Some (st1 !! b)
  /\ (is_Some (st !! b) -> st1 = st).
Proof.
  rewrite CreateBucketIfNotExists_eq. destruct (fault _); [done|].
  intros [= Heq]. subst st1.
  split; [done|]. split; [intros b'; apply bucketOf_create|].
  destruct (st !! b) eqn:E.
  - rewrite E. eauto.
  - split; [intros b' Hb; by rewrite lookup_insert_ne|].
    split; [rewrite lookup_insert_eq; eauto|]. by intros [? ?].
Qed.

Lemma updateVal_effect (fault : StoreOp -> bool) (b k : string) (s : BWSample)
    (st st' : Store) (u : unit) :
  Bwdb.updateVal fault b k s st = inr (u, st') ->
  fault (OpPut b k) = false
  /\ (exists v, merged (bucketOf st b !! k) s = inr v
        /\ bucketOf st' b = <[k := v]> (bucketOf st b))
  /\ (forall b', b' <> b -> st' !! b' = st !! b')
  /\ is_Some (st' !! b).
Proof.
  rewrite updateVal_eq. destruct (merged _ s) as [err|v] eqn:Hm; [done|].
  destruct (fault _); [done|]. intros [= Heq]. subst st'.
  split; [done|]. split.
  - exists v. split; [done|]. apply bucketOf_insert.
  - split; [intros b' Hb; by rewrite lookup_insert_ne|].
    rewrite lookup_insert_eq. eauto.
Qed.

Lemma bucketOf_lookup_eq (st st' : Store) (b : string) :
  st' !! b = st !! b -> bucketOf st' b = bucketOf st b.
Proof. unfold bucketOf. by intros ->. Qed.

(** What [merged] gives always decodes. *)
Lemma merged_decodes (old : option (list byte)) (s : BWSample) (v : list byte) :
  merged old s = inr v -> exists sd, Sample.Decode newVar v = inr sd.
Proof.
  unfold merged. destruct old as [v0|].
  - destruct (Sample.Decode newVar v0) as [err|sold]; [done|].
    intros [= <-]. rewrite Decode_Encode. eauto.
  - intros [= <-]. rewrite Decode_Encode. eauto.
Qed.

(** The four insert-or-sum calls that end the batch of [Add]. *)
Lemma four_updates (fault : StoreOp -> bool) (s : BWSample) (st st' : Store) :
  (Bwdb.updateVal fault bktMin (Sample.TimeLabel s minFmt) s ;;;
   Bwdb.updateVal fault bktHour (Sample.TimeLabel s hourFmt) s ;;;
   Bwdb.updateVal fault bktDay (Sample.TimeLabel s dayFmt) s ;;;
   Bwdb.updateVal fault bktMon (Sample.TimeLabel s monFmt) s) st
  = inr (tt, st') ->
  (forall b fmt, (b, fmt) ∈ fourBuckets ->
     exists v, merged (bucketOf st b !! Format fmt (Ts s)) s = inr v
       /\ bucketOf st' b = <[Format fmt (Ts s) := v]> (bucketOf st b))
  /\ (forall b, b ∉ fourBuckets.*1 -> st' !! b = st !! b).
Proof.
  intros H.
  apply tx_bind_inr in H as ([] & st1 & H1 & H).
  apply tx_bind_inr in H as ([] & st2 & H2 & H).
  apply tx_bind_inr in H as ([] & st3 & H3 & H4).
  apply updateVal_effect in H1 as (_ & (v1 & M1 & B1) & F1 & _).
  apply updateVal_effect in H2 as (_ & (v2 & M2 & B2) & F2 & _).
  apply updateVal_effect in H3 as (_ & (v3 & M3 & B3) & F3 & _).
  apply updateVal_effect in H4 as (_ & (v4 & M4 & B4) & F4 & _).
  unfold Sample.TimeLabel in *.
  assert (L1 : forall b, b <> bktMin -> bucketOf st1 b = bucketOf st b)
    by (intros; apply bucketOf_lookup_eq; by apply F1).
  assert (L2 : forall b, b <> bktHour -> bucketOf st2 b = bucketOf st1 b)
    by (intros; apply bucketOf_lookup_eq; by apply F2).
  assert (L3 : forall b, b <> bktDay -> bucketOf st3 b = bucketOf st2 b)
    by (intros; apply bucketOf_lookup_eq; by apply F3).
  assert (L4 : forall b, b <> bktMon -> bucketOf st' b = bucketOf st3 b)
    by (intros; apply bucketOf_lookup_eq; by apply F4).
  split.
  - intros b fmt Hin. unfold fourBuckets in Hin.
    repeat (apply elem_of_cons in Hin as [[= -> ->]|Hin]);
      [| | | |by apply elem_of_nil in Hin].
    + exists v1. split; [done|]. by rewrite L4, L3, L2.
    + exists v2. rewrite L1 in M2, B2 by done.
      split; [done|]. by rewrite L4, L3.
    + exists v3. rewrite L2, L1 in M3, B3 by done.
      split; [done|]. by rewrite L4.
    + exists v4. rewrite L3, L2, L1 in M4, B4 by done. done.
  - intros b Hb. cbn in Hb.
    rewrite F4, F3, F2, F1; [done|..];
      intros ->; apply Hb; repeat (apply elem_of_cons; (by left) || right).
Qed.

Lemma addBatch_inr (fault : StoreOp -> bool) (t : Time) (s : BWSample)
    (st st' : Store) :
  Bwdb.addBatch fault t s st = inr (tt, st') ->
  exists st4 st7,
    (forall b, bucketOf st4 b = bucketOf st b)
    /\ (forall b, b ∉ fourBuckets.*1 -> st4 !! b = st !! b)
    /\ ((if negb (String.eqb (Sample.TimeLabel s hourFmt) (Format hourFmt t))
         then Bwdb.sumAndShift fault bktMin bktHour (Format hourFmt t)
         else tx_ret tt) ;;;
        (if negb (String.eqb (Sample.TimeLabel s dayFmt) (Format dayFmt t))
         then Bwdb.sumAndShift fault bktHour bktDay (Format dayFmt t)
         else tx_ret tt) ;;;
        (if negb (String.eqb (Sample.TimeLabel s monFmt) (Format monFmt t))
         then Bwdb.sumAndShift fault bktDay bktMon (Format monFmt t)
         else tx_ret tt)) st4 = inr (tt, st7)
    /\ (Bwdb.updateVal fault bktMin (Sample.TimeLabel s minFmt) s ;;;
        Bwdb.updateVal fault bktHour (Sample.TimeLabel s hourFmt) s ;;;
        Bwdb.updateVal fault bktDay (Sample.TimeLabel s dayFmt) s ;;;
        Bwdb.updateVal fault bktMon (Sample.TimeLabel s monFmt) s) st7
       = inr (tt, st').
Proof.
  unfold Bwdb.addBatch. cbv zeta. intros H.
  apply tx_bind_inr in H as ([] & st1 & H1 & H).
  apply tx_bind_inr in H as ([] & st2 & H2 & H).
  apply tx_bind_inr in H as ([] & st3 & H3 & H).
  apply tx_bind_inr in H as ([] & st4 & H4 & H).
  apply tx_bind_inr in H as ([] & st5 & H5 & H).
  apply tx_bind_inr in H as ([] & st6 & H6 & H).
  apply tx_bind_inr in H as ([] & st7 & H7 & H).
  apply create_inr in H1 as (_ & B1 & F1 & _).
  apply create_inr in H2 as (_ & B2 & F2 & _).
  apply create_inr in H3 as (_ & B3 & F3 & _).
  apply create_inr in H4 as (_ & B4 & F4 & _).
  exists st4, st7. split; [intros b; by rewrite B4, B3, B2, B1|].
  split.
  - intros b Hb. cbn in Hb.
    rewrite F4, F3, F2, F1; [done|..];
      intros ->; apply Hb; repeat (apply elem_of_cons; (by left) || right).
  - split; [|exact H].
    unfold tx_bind at 1. rewrite H5. unfold tx_bind at 1. by rewrite H6.
Qed.

(** An in-order insert that stays in the hour, day and month of [last] (as
    the first insert into an engine always does) and returns without error
    inserts-or-sums the sample into each of the four buckets under its label
    there, changes no other key and no other bucket, and sets [last] to the
    sample's timestamp. *)
Theorem Add_within_the_period (fault : StoreOp -> bool) (d d' : Bwdb.bwdb)
    (s : BWSample) :
  Bwdb.open d = true ->
  Sample.After s (Bwdb.last d) = true ->
  samePeriod s (if TimeEq (Bwdb.last d) zeroTime then Ts s else Bwdb.last d) ->
  Bwdb.Add fault d s = (d', None) ->
  (forall b fmt, (b, fmt) ∈ fourBuckets ->
     exists v, merged (bucketOf (Bwdb.db d) b !! Format fmt (Ts s)) s = inr v
       /\ bucketOf (Bwdb.db d') b
          = <[Format fmt (Ts s) := v]> (bucketOf (Bwdb.db d) b))
  /\ (forall b, b ∉ fourBuckets.*1 -> Bwdb.db d' !! b = Bwdb.db d !! b)
  /\ Bwdb.last d' = Ts s.
Proof.
  intros Ho Ha (Hh & Hd & Hm) Hadd. rewrite Add_in_order in Hadd by done.
  cbv zeta in Hadd.
  set (t := if TimeEq (Bwdb.last d) zeroTime then Ts s else Bwdb.last d) in *.
  destruct (Batch_cases fault (Bwdb.addBatch fault t s) (Bwdb.db d))
    as [[err Hb]|(st' & Hfn & Hb)]; rewrite Hb in Hadd; cbn [fst snd] in Hadd;
    [done|]. injection Hadd as <-. cbn [Bwdb.db Bwdb.last].
  apply addBatch_inr in Hfn as (st4 & st7 & B4 & F4 & Hshift & Hup).
  rewrite Hh, Hd, Hm, !String.eqb_refl in Hshift. cbn [negb] in Hshift.
  injection Hshift as <-.
  apply four_updates in Hup as [Hfour Hframe].
  split; [|split; [|done]].
  - intros b fmt Hin. destruct (Hfour b fmt Hin) as (v & M & B).
    exists v. by rewrite <- B4.
  - intros b Hnb. rewrite Hframe by done. by apply F4.
Qed.

Lemma Add_within_the_period_witness :
  let d := Bwdb.mkBwdb true ∅ [] 20 zeroTime in
  let s := mkBWSample (Date 2016 1 1 1 0) 3 4 in
  exists d',
    Bwdb.Add noFault d s = (d', None)
    /\ bucketOf (Bwdb.db d') bktHour = {[ "0101201601"%string := Sample.Encode s ]}
    /\ Bwdb.last d' = Ts s.
Proof.
  intros d s.
  assert (Hadd : Bwdb.Add noFault d s = ((Bwdb.Add noFault d s).1, None)).
  { apply injective_projections; [done|]. by vm_compute. }
  exists (Bwdb.Add noFault d s).1. split; [exact Hadd|].
  destruct (Add_within_the_period noFault d _ s eq_refl eq_refl
              (conj eq_refl (conj eq_refl eq_refl)) Hadd) as (Hfour & _ & Hl).
  split; [|exact Hl].
  destruct (Hfour bktHour hourFmt) as (v & M & ->).
  { apply elem_of_cons. right. apply elem_of_cons. by left. }
  change (merged None s = inr v) in M. injection M as <-. by vm_compute.
Defined.

(** After an in-order insert that returns without error, rollover or not,
    each of the four buckets is there and holds, under the sample's label
    for it, a value that decodes. *)
Theorem Add_shows_in_every_bucket (fault : StoreOp -> bool) (d d' : Bwdb.bwdb)
    (s : BWSample) (b : string) (fmt : Layout) :
  Bwdb.open d = true ->
  Sample.After s (Bwdb.last d) = true ->
  Bwdb.Add fault d s = (d', None) ->
  (b, fmt) ∈ fourBuckets ->
  is_Some (Bwdb.db d' !! b)
  /\ exists v sd,
       bucketOf (Bwdb.db d') b !! Sample.TimeLabel s fmt = Some v
       /\ Sample.Decode newVar v = inr sd.
Proof.
  intros Ho Ha Hadd Hin. rewrite Add_in_order in Hadd by done.
  cbv zeta in Hadd.
  set (t := if TimeEq (Bwdb.last d) zeroTime then Ts s else Bwdb.last d) in *.
  destruct (Batch_cases fault (Bwdb.addBatch fault t s) (Bwdb.db d))
    as [[err Hb]|(st' & Hfn & Hb)]; rewrite Hb in Hadd; cbn [fst snd] in Hadd;
    [done|]. injection Hadd as <-. cbn [Bwdb.db].
  apply addBatch_inr in Hfn as (st4 & st7 & _ & _ & _ & Hup).
  apply four_updates in Hup as [Hfour _].
  destruct (Hfour b fmt Hin) as (v & M & B).
  assert (Hlk : bucketOf st' b !! Sample.TimeLabel s fmt = Some v).
  { rewrite B. apply lookup_insert_eq. }
  split.
  - unfold bucketOf in Hlk. destruct (st' !! b); [eauto|].
    cbn in Hlk. by rewrite lookup_empty in Hlk.
  - destruct (merged_decodes _ _ _ M) as [sd Hsd]. eauto.
Qed.

Lemma Add_shows_in_every_bucket_witness :
  let d := Bwdb.mkBwdb true ∅ [] 20 (Date 2016 1 1 1 59) in
  let s := mkBWSample (Date 2016 1 1 2 0) 1000 1000 in
  is_Some (Bwdb.db (Bwdb.Add noFault d s).1 !! bktMon)
  /\ exists v sd,
       bucketOf (Bwdb.db (Bwdb.Add noFault d s).1) bktMon !! "012016"%string
       = Some v
       /\ Sample.Decode newVar v = inr sd.
Proof.
  intros d s.
  assert (Hadd : Bwdb.Add noFault d s = ((Bwdb.Add noFault d s).1, None)).
  { apply injective_projections; [done|]. by vm_compute. }
  apply (Add_shows_in_every_bucket noFault d _ s bktMon monFmt eq_refl eq_refl Hadd).
  do 3 (apply elem_of_cons; right). apply elem_of_cons. by left.
Defined.

(** ** Sum-and-shift *)

Lemma sumUp_app (l l' : list BWSample) :
  sumUp (l ++ l') = sumUp l + sumUp l' /\ sumDown (l ++ l') = sumDown l + sumDown l'.
Proof.
  induction l as [|x l [IHu IHd]]; [done|].
  cbn [app]. rewrite !sumUp_cons, !sumDown_cons. lia.
Qed.

(** The walk of [sumAndShift] over the pairs [l] of bucket [P]. *)
Lemma sum_walk (fault : StoreOp -> bool) (P : string)
    (l : list (string * list byte)) :
  forall (a a' : BWSample) (st st' : Store),
    bolt.forEachList
      (fun s k v =>
         match Sample.Decode newVar v with
         | inl err => tx_fail err
         | inr sx =>
             match Sample.Add s sx with
             | inl err => tx_fail err
             | inr s =>
                 let s := Sample.SetTS s (Sample.TS sx) in
                 bolt.Delete fault P k ;;; tx_ret s
             end
         end) l a st = inr (a', st') ->
    exists es,
      decodesTo l es
      /\ a' = mkBWSample (default (Ts a) (Ts <$> last es))
                (if decide (es = []) then BytesUp a
                 else u64 (BytesUp a + sumUp es))
                (if decide (es = []) then BytesDown a
                 else u64 (BytesDown a + sumDown es))
      /\ (forall b, b <> P -> st' !! b = st !! b)
      /\ (forall k, k ∈ l.*1 -> bucketOf st' P !! k = None)
      /\ (forall k, k ∉ l.*1 -> bucketOf st' P !! k = bucketOf st P !! k).
Proof.
  induction l as [|[k0 v0] l IH]; intros a a' st st' Hrun.
  - injection Hrun as <- <-. exists []. split; [constructor|].
    split; [by destruct a|]. split; [done|].
    split; [intros k Hk; by apply elem_of_nil in Hk|done].
  - cbn [bolt.forEachList] in Hrun.
    apply tx_bind_inr in Hrun as (a1 & st1 & Hstep & Hrun).
    destruct (Sample.Decode newVar v0) as [err|sx] eqn:Hd; [done|].
    cbn [Sample.Add] in Hstep. cbv zeta in Hstep.
    apply tx_bind_inr in Hstep as ([] & st1' & Hdel & Hret).
    injection Hret as <- <-. rewrite Delete_eq in Hdel.
    destruct (fault _); [done|]. injection Hdel as <-.
    apply IH in Hrun as (es & Hes & -> & Hframe & Hin & Hout). clear IH.
    exists (sx :: es). split; [by constructor|].
    cbn [Sample.SetTS Sample.TS Ts BytesUp BytesDown].
    split; [|split; [|split]].
    + destruct (decide (sx :: es = [])) as [?|_]; [done|]. f_equal.
      * destruct es as [|e es]; [done|]. rewrite last_cons_cons.
        destruct (last (e :: es)) eqn:E; [done|]. by apply last_None in E.
      * rewrite sumUp_cons. destruct (decide (es = [])) as [->|_].
        -- cbn [sumUp foldr]. by rewrite Z.add_0_r.
        -- by rewrite u64_add_l, Z.add_assoc.
      * rewrite sumDown_cons. destruct (decide (es = [])) as [->|_].
        -- cbn [sumDown foldr]. by rewrite Z.add_0_r.
        -- by rewrite u64_add_l, Z.add_assoc.
    + intros b Hb. rewrite Hframe by done. by rewrite lookup_insert_ne.
    + intros k Hk. cbn [fmap list_fmap fst] in Hk.
      destruct (decide (k ∈ l.*1)) as [Hl|Hl]; [by apply Hin|].
      apply elem_of_cons in Hk as [->|Hk]; [|done].
      rewrite Hout by done. rewrite bucketOf_insert. apply lookup_delete_eq.
    + intros k Hk. cbn [fmap list_fmap fst] in Hk.
      apply not_elem_of_cons in Hk as [Hk0 Hk].
      rewrite Hout by done. rewrite bucketOf_insert. by apply lookup_delete_ne.
Qed.

Lemma elem_of_entries_keys (b : Bucket) (k : string) :
  k ∈ (entries b).*1 <-> is_Some (b !! k).
Proof.
  rewrite list_elem_of_fmap. split.
  - intros ([k' v] & -> & Hin). apply elem_of_entries in Hin. eauto.
  - intros [v Hv]. exists (k, v). split; [done|]. by apply elem_of_entries.
Qed.

Lemma sumAndShift_inr (fault : StoreOp -> bool) (P D K : string)
    (st st' : Store) :
  P <> D ->
  Bwdb.sumAndShift fault P D K st = inr (tt, st') ->
  bucketOf st' P = ∅
  /\ (forall b, b <> P -> b <> D -> st' !! b = st !! b)
  /\ exists es v,
       decodesTo (entries (bucketOf st P)) es
       /\ merged (bucketOf st D !! K) (accumulated es) = inr v
       /\ bucketOf st' D = <[K := v]> (bucketOf st D).
Proof.
  intros Hne Hrun. unfold Bwdb.sumAndShift in Hrun.
  apply tx_bind_inr in Hrun as (acc & st1 & Hwalk & Hup).
  unfold bolt.ForEach in Hwalk.
  apply sum_walk in Hwalk as (es & Hes & -> & Hframe & Hin & Hout).
  apply updateVal_effect in Hup as (_ & (v & M & B) & F & _).
  assert (HD : bucketOf st1 D = bucketOf st D).
  { apply bucketOf_lookup_eq. apply Hframe. congruence. }
  rewrite HD in M, B.
  split; [|split].
  - rewrite (bucketOf_lookup_eq st1 st') by (by apply F).
    apply map_empty. intros k.
    destruct (decide (k ∈ (entries (bucketOf st P)).*1)) as [Hk|Hk].
    + by apply Hin.
    + rewrite Hout by done.
      destruct (bucketOf st P !! k) eqn:E; [|done].
      exfalso. apply Hk. apply elem_of_entries_keys. eauto.
  - intros b HP HDb. rewrite F by done. by apply Hframe.
  - exists es, v. split; [done|]. split; [|done].
    replace (accumulated es) with
      (mkBWSample (default (Ts newVar) (Ts <$> last es))
         (if decide (es = []) then BytesUp newVar
          else u64 (BytesUp newVar + sumUp es))
         (if decide (es = []) then BytesDown newVar
          else u64 (BytesDown newVar + sumDown es))); [done|].
    unfold accumulated. cbn [newVar NewBwSample Ts BytesUp BytesDown].
    destruct (decide (es = [])) as [->|_]; [done|]. by rewrite !Z.add_0_l.
Qed.

(** Sum-and-shift that returns without error leaves the source bucket
    empty, inserts-or-sums into the destination, under the key, one sample
    holding the sums (modulo 2^64) of the byte counts of everything the
    source held, stamped as the last source entry in key order, and touches
    no third bucket. *)
Theorem sumAndShift_drains_into_the_key (fault : StoreOp -> bool)
    (P D K : string) (st st' : Store) :
  P <> D ->
  Bwdb.sumAndShift fault P D K st = inr (tt, st') ->
  bucketOf st' P = ∅
  /\ (forall b, b <> P -> b <> D -> st' !! b = st !! b)
  /\ exists es v,
       decodesTo (entries (bucketOf st P)) es
       /\ merged (bucketOf st D !! K) (accumulated es) = inr v
       /\ bucketOf st' D = <[K := v]> (bucketOf st D).
Proof. exact (sumAndShift_inr fault P D K st st'). Qed.

Lemma sumAndShift_drains_into_the_key_witness :
  let m1 := mkBWSample (Date 2016 1 1 1 0) 1 2 in
  let m2 := mkBWSample (Date 2016 1 1 1 1) 10 20 in
  let st : Store :=
    {[ bktMin := {[ "010120160100"%string := Sample.Encode m1;
                    "010120160101"%string := Sample.Encode m2 ]} ]} in
  exists st',
    Bwdb.sumAndShift noFault bktMin bktHour "0101201601" st = inr (tt, st')
    /\ bucketOf st' bktMin = ∅
    /\ bucketOf st' bktHour
       = {[ "0101201601"%string := Sample.Encode (mkBWSample (Ts m2) 11 22) ]}.
Proof.
  intros m1 m2 st.
  assert (Hok : match Bwdb.sumAndShift noFault bktMin bktHour "0101201601" st
                with inl _ => false | inr _ => true end = true)
    by (by vm_compute).
  destruct (Bwdb.sumAndShift noFault bktMin bktHour "0101201601" st)
    as [err|[[] st']] eqn:E; [discriminate Hok|].
  exists st'. split; [done|].
  destruct (sumAndShift_drains_into_the_key noFault bktMin bktHour
              "0101201601" st st') as (HP & _ & _); [done|exact E|].
  split; [exact HP|].
  assert (Hst : (match Bwdb.sumAndShift noFault bktMin bktHour "0101201601" st
                 with inl _ => ∅ | inr (_, x) => bucketOf x bktHour end)
                = {[ "0101201601"%string := Sample.Encode (mkBWSample (Ts m2) 11 22) ]})
    by (by vm_compute).
  by rewrite E in Hst.
Defined.

(** ** Shifting by age *)

Section ShiftFacts.

Variable fault : StoreOp -> bool.

(** The walk of [shiftIfOlder] leaves alone every key whose pair is not
    older than the cutoff. *)
Lemma shiftEntry_walk_keeps (src dst : string) (tcheck : Time)
    (keyFmt : Layout) (l : list (string * list byte)) (k : string) :
  src <> dst ->
  (forall v s, (k, v) ∈ l -> Sample.Decode newVar v = inr s ->
     Before (Sample.TS s) tcheck = false) ->
  forall (a a' : BWSample) (st st' : Store),
    bolt.forEachList (Bwdb.shiftEntry fault src dst tcheck keyFmt) l a st
    = inr (a', st') ->
    bucketOf st' src !! k = bucketOf st src !! k.
Proof.
  intros Hne. induction l as [|[k0 v0] l IH]; intros Hk a a' st st' Hrun.
  - by injection Hrun as <- <-.
  - cbn [bolt.forEachList] in Hrun.
    apply tx_bind_inr in Hrun as (a1 & st1 & Hstep & Hrun).
    apply IH in Hrun; [|intros v s Hin; apply Hk; by apply elem_of_cons; right].
    rewrite Hrun. clear IH Hrun.
    unfold Bwdb.shiftEntry in Hstep. rewrite (Decode_receiver a newVar) in Hstep.
    destruct (Sample.Decode newVar v0) as [err|s0] eqn:Hd; [done|].
    destruct (Before (Sample.TS s0) tcheck) eqn:Hb;
      [|by injection Hstep as <- <-].
    apply tx_bind_inr in Hstep as ([] & st2 & Hdel & Hstep).
    apply tx_bind_inr in Hstep as ([] & st3 & Hup & Hret).
    injection Hret as <- <-.
    rewrite Delete_eq in Hdel. destruct (fault _); [done|].
    injection Hdel as <-.
    apply updateVal_effect in Hup as (_ & _ & F & _).
    rewrite (bucketOf_lookup_eq _ st3) by (by apply F).
    rewrite bucketOf_insert.
    destruct (decide (k = k0)) as [->|Hk0]; [|by apply lookup_delete_ne].
    rewrite (Hk v0 s0) in Hb; [done| |done]. by apply elem_of_cons; left.
Qed.

(** Every value the walk of [shiftIfOlder] gets through is 24 bytes long. *)
Lemma shiftEntry_walk_sized (src dst : string) (tcheck : Time)
    (keyFmt : Layout) (l : list (string * list byte)) :
  forall (a a' : BWSample) (st st' : Store) (k : string) (v : list byte),
    bolt.forEachList (Bwdb.shiftEntry fault src dst tcheck keyFmt) l a st
    = inr (a', st') ->
    (k, v) ∈ l -> length v = bwSampleSize.
Proof.
  induction l as [|[k0 v0] l IH]; intros a a' st st' k v Hrun Hin.
  - by apply elem_of_nil in Hin.
  - cbn [bolt.forEachList] in Hrun.
    apply tx_bind_inr in Hrun as (a1 & st1 & Hstep & Hrun).
    apply elem_of_cons in Hin as [[= -> ->]|Hin]; [|by eapply IH].
    unfold Bwdb.shiftEntry in Hstep.
    destruct (Sample.Decode a v0) as [err|s0] eqn:Hd; [done|].
    by apply Decode_inr_length in Hd.
Qed.

(** A shift that returns without error takes out of the source bucket
    exactly the entries stamped before the cutoff: every other entry is
    still there with its value, and nothing new is there. *)
Theorem shiftIfOlder_moves_exactly_the_old (src dst : string) (tcheck : Time)
    (keyFmt : Layout) (st st' : Store) (k : string) :
  src <> dst ->
  Bwdb.shiftIfOlder fault src dst tcheck keyFmt st = (st', None) ->
  match bucketOf st src !! k with
  | None => bucketOf st' src !! k = None
  | Some v =>
      exists s, Sample.Decode newVar v = inr s
        /\ bucketOf st' src !! k
           = if Before (Sample.TS s) tcheck then None else Some v
  end.
Proof.
  intros Hne Hrun. unfold Bwdb.shiftIfOlder in Hrun.
  destruct (Batch_cases fault
    (bolt.CreateBucketIfNotExists fault src;;;
     bolt.CreateBucketIfNotExists fault dst;;;
     bolt.ForEach src (Bwdb.shiftEntry fault src dst tcheck keyFmt) newVar;;;
     tx_ret ()) st) as [[err Hb]|(st2 & Hfn & Hb)];
    rewrite Hb in Hrun; [done|]. injection Hrun as Heq. subst st2. clear Hb.
  apply tx_bind_inr in Hfn as ([] & st1 & H1 & Hfn).
  apply tx_bind_inr in Hfn as ([] & st1' & H2 & Hfn).
  apply tx_bind_inr in Hfn as (a' & st3 & Hwalk & Hret).
  injection Hret as Heq. subst st3.
  apply create_inr in H1 as (_ & B1 & _). apply create_inr in H2 as (_ & B2 & _).
  unfold bolt.ForEach in Hwalk. rewrite B2, B1 in Hwalk.
  pose proof (shiftEntry_walk fault src dst tcheck keyFmt _ Hne _ _ _ _ Hwalk)
    as [_ Hsrc].
  assert (Hsame : bucketOf st1' src = bucketOf st src) by (by rewrite B2, B1).
  destruct (bucketOf st src !! k) as [v|] eqn:E.
  - assert (Hin : (k, v) ∈ entries (bucketOf st src)) by (by apply elem_of_entries).
    destruct (bucketOf st' src !! k) as [v'|] eqn:E'.
    + destruct (Hsrc k v' E') as [Hk Hall]. rewrite Hsame, E in Hk.
      injection Hk as <-. destruct (Hall v Hin) as (s & Hd & Hs).
      exists s. split; [done|].
      unfold Before. by replace (Sample.TS s <? tcheck) with false
        by (symmetry; apply Z.ltb_ge; lia).
    + destruct (Decode_length newVar v) as [s Hd].
      { eapply shiftEntry_walk_sized; [exact Hwalk|exact Hin]. }
      exists s. split; [done|].
      destruct (Before (Sample.TS s) tcheck) eqn:Hb; [done|].
      rewrite <- E', <- E, <- Hsame.
      eapply shiftEntry_walk_keeps; [done| |exact Hwalk].
      intros v1 s1 Hin1 Hd1. apply elem_of_entries in Hin1.
      rewrite E in Hin1. injection Hin1 as <-. congruence.
  - destruct (bucketOf st' src !! k) as [v'|] eqn:E'; [|done].
    destruct (Hsrc k v' E') as [Hk _]. by rewrite Hsame, E in Hk.
Qed.

End ShiftFacts.

Lemma shiftIfOlder_moves_exactly_the_old_witness :
  let old := mkBWSample (Date 2016 1 1 1 0) 5 7 in
  let new := mkBWSample (Date 2016 1 1 3 0) 1 1 in
  let st : Store :=
    {[ bktMin := {[ "010120160100"%string := Sample.Encode old;
                    "010120160300"%string := Sample.Encode new ]} ]} in
  let st' := (Bwdb.shiftIfOlder noFault bktMin bktHour (Date 2016 1 1 2 0)
                hourFmt st).1 in
  bucketOf st' bktMin !! "010120160100"%string = None
  /\ bucketOf st' bktMin !! "010120160300"%string = Some (Sample.Encode new).
Proof.
  intros old new st st'.
  assert (Hrun : Bwdb.shiftIfOlder noFault bktMin bktHour (Date 2016 1 1 2 0)
                   hourFmt st = (st', None)).
  { apply injective_projections; [done|]. by vm_compute. }
  pose proof (shiftIfOlder_moves_exactly_the_old noFault bktMin bktHour _ _ st st'
                "010120160100" ltac:(done) Hrun) as H1.
  pose proof (shiftIfOlder_moves_exactly_the_old noFault bktMin bktHour _ _ st st'
                "010120160300" ltac:(done) Hrun) as H2.
  change (bucketOf st bktMin !! "010120160100"%string)
    with (Some (Sample.Encode old)) in H1.
  change (bucketOf st bktMin !! "010120160300"%string)
    with (Some (Sample.Encode new)) in H2.
  destruct H1 as (s1 & Hd1 & H1). destruct H2 as (s2 & Hd2 & H2).
  rewrite Decode_Encode in Hd1, Hd2.
  injection Hd1 as <-. injection Hd2 as <-.
  split; [exact H1|exact H2].
Defined.

(** ** The byte totals *)

Lemma sumList_perm (f : list byte -> Z) (l l' : list (string * list byte)) :
  l ≡ₚ l' ->
  foldr (fun kv a => f kv.2 + a) 0 l = foldr (fun kv a => f kv.2 + a) 0 l'.
Proof.
  induction 1 as [|x l l' _ IH|x y l|l l' l'' _ IH _ IH'].
  - done.
  - cbn [foldr]. by rewrite IH.
  - cbn [foldr]. cbv beta. rewrite !Z.add_assoc. f_equal. apply Z.add_comm.
  - by rewrite IH.
Qed.

Lemma bucketSum_delete (f : list byte -> Z) (m : Bucket) (k : string)
    (v : list byte) :
  m !! k = Some v -> bucketSum f m = f v + bucketSum f (delete k m).
Proof.
  intros Hk. unfold bucketSum.
  by rewrite <- (sumList_perm f _ _ (map_to_list_delete m k v Hk)).
Qed.

Lemma bucketSum_insert (f : list byte -> Z) (m : Bucket) (k : string)
    (v : list byte) :
  bucketSum f (<[k := v]> m) = f v + bucketSum f (delete k m).
Proof.
  rewrite <- (insert_delete_eq m). unfold bucketSum.
  by rewrite (sumList_perm f _ _
                (map_to_list_insert (delete k m) k v (lookup_delete_eq m k))).
Qed.

Lemma bucketSum_delete_None (f : list byte -> Z) (m : Bucket) (k : string) :
  m !! k = None -> bucketSum f (delete k m) = bucketSum f m.
Proof. intros Hk. by rewrite delete_id. Qed.

Lemma u64_shift (a b b' x : Z) :
  u64 b' = u64 (b + x) -> u64 (a - x + b') = u64 (a + b).
Proof.
  unfold u64. intros H.
  rewrite <- Zplus_mod_idemp_r, H, Zplus_mod_idemp_r. f_equal. lia.
Qed.

Section Totals.

Variable fault : StoreOp -> bool.

(** [f] reads a count off a stored value, [g] the same count off a sample. *)
Variables (f : list byte -> Z) (g : BWSample -> Z).
Hypothesis f_decoded : forall v s, Sample.Decode newVar v = inr s -> f v = g s.
Hypothesis f_merged : forall old s v,
  merged old s = inr v -> u64 (f v) = u64 (default 0 (f <$> old) + g s).

Lemma updateVal_total (b k : string) (s : BWSample) (m : Bucket) (v : list byte) :
  merged (m !! k) s = inr v ->
  u64 (bucketSum f (<[k := v]> m)) = u64 (bucketSum f m + g s).
Proof.
  intros Hm. rewrite bucketSum_insert. apply f_merged in Hm.
  destruct (m !! k) as [v0|] eqn:E; simpl in Hm.
  - rewrite (bucketSum_delete f m k v0 E).
    unfold u64 in *. rewrite <- Zplus_mod_idemp_l, Hm, Zplus_mod_idemp_l.
    f_equal. lia.
  - rewrite bucketSum_delete_None by done.
    unfold u64 in *. rewrite <- Zplus_mod_idemp_l, Hm, Zplus_mod_idemp_l.
    f_equal. lia.
Qed.

Lemma shift_walk_total (src dst : string) (tcheck : Time) (keyFmt : Layout)
    (l : list (string * list byte)) :
  src <> dst ->
  forall (a a' : BWSample) (st st' : Store),
    NoDup l.*1 ->
    (forall k v, (k, v) ∈ l -> bucketOf st src !! k = Some v) ->
    bolt.forEachList (Bwdb.shiftEntry fault src dst tcheck keyFmt) l a st
    = inr (a', st') ->
    u64 (bucketSum f (bucketOf st' src) + bucketSum f (bucketOf st' dst))
    = u64 (bucketSum f (bucketOf st src) + bucketSum f (bucketOf st dst)).
Proof.
  intros Hne. induction l as [|[k0 v0] l IH]; intros a a' st st' Hnd Hl Hrun.
  - by injection Hrun as <- <-.
  - cbn [bolt.forEachList] in Hrun.
    apply tx_bind_inr in Hrun as (a1 & st1 & Hstep & Hrun).
    cbn [fmap list_fmap fst] in Hnd. apply NoDup_cons in Hnd as [Hk0 Hnd].
    unfold Bwdb.shiftEntry in Hstep. rewrite (Decode_receiver a newVar) in Hstep.
    destruct (Sample.Decode newVar v0) as [err|s0] eqn:Hd; [done|].
    destruct (Before (Sample.TS s0) tcheck) eqn:Hb.
    + apply tx_bind_inr in Hstep as ([] & st2 & Hdel & Hstep).
      apply tx_bind_inr in Hstep as ([] & st3 & Hup & Hret).
      injection Hret as <- <-.
      rewrite Delete_eq in Hdel. destruct (fault _); [done|].
      injection Hdel as <-.
      apply updateVal_effect in Hup as (_ & (v & M & B) & F & _).
      rewrite bucketOf_insert_ne in M, B by done.
      assert (Hs3 : bucketOf st3 src = delete k0 (bucketOf st src)).
      { rewrite (bucketOf_lookup_eq _ st3) by (by apply F).
        apply bucketOf_insert. }
      assert (Hl3 : forall k v, (k, v) ∈ l -> bucketOf st3 src !! k = Some v).
      { intros k v' Hin. rewrite Hs3.
        rewrite lookup_delete_ne.
        - apply Hl. by apply elem_of_cons; right.
        - intros ->. apply Hk0. apply list_elem_of_fmap. by exists (k, v'). }
      rewrite (IH _ _ _ _ Hnd Hl3 Hrun).
      rewrite Hs3, B.
      rewrite (bucketSum_delete f (bucketOf st src) k0 v0)
        by (apply Hl; by apply elem_of_cons; left).
      rewrite (f_decoded _ _ Hd).
      replace (g s0 + bucketSum f (delete k0 (bucketOf st src))
               + bucketSum f (bucketOf st dst))
        with (bucketSum f (delete k0 (bucketOf st src)) + g s0
              + bucketSum f (bucketOf st dst)) by lia.
      rewrite <- (u64_shift
                    (bucketSum f (delete k0 (bucketOf st src)) + g s0)
                    (bucketSum f (bucketOf st dst))
                    (bucketSum f (<[Format keyFmt (Sample.TS s0) := v]>
                                    (bucketOf st dst))) (g s0)).
      * f_equal. lia.
      * by apply (updateVal_total dst _ s0).
    + injection Hstep as <- <-. eapply IH; [exact Hnd| |exact Hrun].
      intros k v' Hin. apply Hl. by apply elem_of_cons; right.
Qed.

Lemma shiftIfOlder_total (src dst : string) (tcheck : Time) (keyFmt : Layout)
    (st st' : Store) :
  src <> dst ->
  Bwdb.shiftIfOlder fault src dst tcheck keyFmt st = (st', None) ->
  u64 (bucketSum f (bucketOf st' src) + bucketSum f (bucketOf st' dst))
  = u64 (bucketSum f (bucketOf st src) + bucketSum f (bucketOf st dst)).
Proof.
  intros Hne Hrun. unfold Bwdb.shiftIfOlder in Hrun.
  destruct (Batch_cases fault
    (bolt.CreateBucketIfNotExists fault src;;;
     bolt.CreateBucketIfNotExists fault dst;;;
     bolt.ForEach src (Bwdb.shiftEntry fault src dst tcheck keyFmt) newVar;;;
     tx_ret ()) st) as [[err Hb]|(st2 & Hfn & Hb)];
    rewrite Hb in Hrun; [done|]. injection Hrun as Heq. subst st2. clear Hb.
  apply tx_bind_inr in Hfn as ([] & st1 & H1 & Hfn).
  apply tx_bind_inr in Hfn as ([] & st1' & H2 & Hfn).
  apply tx_bind_inr in Hfn as (a' & st3 & Hwalk & Hret).
  injection Hret as Heq. subst st3.
  apply create_inr in H1 as (_ & B1 & _). apply create_inr in H2 as (_ & B2 & _).
  unfold bolt.ForEach in Hwalk.
  apply shift_walk_total in Hwalk; [|done| |].
  - by rewrite Hwalk, !B2, !B1.
  - unfold entries. rewrite merge_sort_Permutation. apply NoDup_fst_map_to_list.
  - intros k v Hin. by apply elem_of_entries.
Qed.

Lemma Rebase_total (d d' : Bwdb.bwdb) (ts : Time) :
  Bwdb.Rebase fault d ts = (d', None) ->
  u64 (storeSum f (Bwdb.db d')) = u64 (storeSum f (Bwdb.db d)).
Proof.
  unfold Bwdb.Rebase. destruct (negb (Bwdb.open d)); [done|].
  destruct (Bwdb.shiftIfOlder _ _ _ _ _ _) as [st1 [e1|]] eqn:E1; [done|].
  destruct (Bwdb.shiftIfOlder _ _ _ _ _ st1) as [st2 [e2|]] eqn:E2; [done|].
  destruct (Bwdb.shiftIfOlder _ _ _ _ _ st2) as [st3 [e3|]] eqn:E3; [done|].
  intros [= <-]. cbn [Bwdb.set_db Bwdb.db].
  pose proof (shiftIfOlder_total bktMin bktHour _ _ _ _ ltac:(done) E1) as T1.
  pose proof (shiftIfOlder_total bktHour bktDay _ _ _ _ ltac:(done) E2) as T2.
  pose proof (shiftIfOlder_total bktDay bktMon _ _ _ _ ltac:(done) E3) as T3.
  apply shiftIfOlder_ok in E1 as [_ F1]; [|done].
  apply shiftIfOlder_ok in E2 as [_ F2]; [|done].
  apply shiftIfOlder_ok in E3 as [_ F3]; [|done].
  unfold storeSum.
  rewrite (F3 bktMin), (F2 bktMin), (F3 bktHour) by done.
  rewrite <- (F1 bktDay), <- (F1 bktMon) by done.
  rewrite (F2 bktMon) in T3 by done.
  set (m3 := bucketSum f (bucketOf st3 bktMon)) in *.
  set (d3 := bucketSum f (bucketOf st3 bktDay)) in *.
  set (d2 := bucketSum f (bucketOf st2 bktDay)) in *.
  set (h2 := bucketSum f (bucketOf st2 bktHour)) in *.
  set (m1 := bucketSum f (bucketOf st1 bktMon)) in *.
  set (d1 := bucketSum f (bucketOf st1 bktDay)) in *.
  set (h1 := bucketSum f (bucketOf st1 bktHour)) in *.
  set (n1 := bucketSum f (bucketOf st1 bktMin)) in *.
  clearbody m3 d3 d2 h2 m1 d1 h1 n1.
  unfold u64 in *.
  replace (n1 + h2 + d3 + m3) with ((d3 + m3) + (n1 + h2)) by lia.
  rewrite <- Zplus_mod_idemp_l, T3, Zplus_mod_idemp_l.
  replace (d2 + m1 + (n1 + h2)) with ((h2 + d2) + (n1 + m1)) by lia.
  rewrite <- Zplus_mod_idemp_l, T2, Zplus_mod_idemp_l.
  replace (h1 + d1 + (n1 + m1)) with ((n1 + h1) + (d1 + m1)) by lia.
  rewrite <- Zplus_mod_idemp_l, T1, Zplus_mod_idemp_l.
  f_equal. lia.
Qed.

End Totals.

Lemma upOf_merged (old : option (list byte)) (s : BWSample) (v : list byte) :
  merged old s = inr v ->
  u64 (upOf v) = u64 (default 0 (upOf <$> old) + BytesUp s)
  /\ u64 (downOf v) = u64 (default 0 (downOf <$> old) + BytesDown s).
Proof.
  unfold merged, upOf, downOf. destruct old as [v0|]; cbn [fmap option_fmap option_map default].
  - destruct (Sample.Decode newVar v0) as [err|sold]; [done|].
    intros [= <-]. rewrite Decode_Encode. cbn [BytesUp BytesDown].
    by rewrite !(u64_small (u64 _)) by apply u64_range.
  - intros [= <-]. rewrite Decode_Encode. cbn [BytesUp BytesDown].
    by rewrite !(u64_small (u64 _)) by apply u64_range.
Qed.

(** A [Rebase] that returns without error moves byte counts between the
    four buckets and loses or adds none: the totals of the upstream and of
    the downstream counts over the four buckets are the same, modulo 2^64,
    before and after. *)
Theorem Rebase_conserves_the_bytes (fault : StoreOp -> bool)
    (d d' : Bwdb.bwdb) (ts : Time) :
  Bwdb.Rebase fault d ts = (d', None) ->
  u64 (storeSum upOf (Bwdb.db d')) = u64 (storeSum upOf (Bwdb.db d))
  /\ u64 (storeSum downOf (Bwdb.db d')) = u64 (storeSum downOf (Bwdb.db d)).
Proof.
  intros Hrun. split.
  - apply (Rebase_total fault upOf BytesUp) with (ts := ts); [| |exact Hrun].
    + intros v s Hd. unfold upOf. by rewrite Hd.
    + intros old s v Hm. by apply upOf_merged in Hm as [? _].
  - apply (Rebase_total fault downOf BytesDown) with (ts := ts); [| |exact Hrun].
    + intros v s Hd. unfold downOf. by rewrite Hd.
    + intros old s v Hm. by apply upOf_merged in Hm as [_ ?].
Qed.

Lemma Rebase_conserves_the_bytes_witness :
  let m1 := mkBWSample (Date 2016 1 1 1 0) 1 2 in
  let m2 := mkBWSample (Date 2016 1 1 1 1) 10 20 in
  let st : Store :=
    {[ bktMin := {[ "010120160100"%string := Sample.Encode m1;
                    "010120160101"%string := Sample.Encode m2 ]} ]} in
  let d := Bwdb.mkBwdb true st [] 20 zeroTime in
  let d' := (Bwdb.Rebase noFault d (Date 2016 2 15 12 0)).1 in
  bucketOf (Bwdb.db d') bktMin = ∅
  /\ u64 (storeSum upOf (Bwdb.db d')) = 11
  /\ u64 (storeSum downOf (Bwdb.db d')) = 22.
Proof.
  intros m1 m2 st d d'.
  assert (Hrun : Bwdb.Rebase noFault d (Date 2016 2 15 12 0) = (d', None)).
  { apply injective_projections; [done|]. by vm_compute. }
  destruct (Rebase_conserves_the_bytes noFault d d' _ Hrun) as [-> ->].
  split; [by vm_compute|]. split; by vm_compute.
Defined.

(** ** The byte totals, over an insert *)

Lemma u64_cong_r (x y r : Z) : u64 x = u64 y -> u64 (x + r) = u64 (y + r).
Proof.
  unfold u64. intros H. by rewrite <- Zplus_mod_idemp_l, H, Zplus_mod_idemp_l.
Qed.

Lemma u64_diff (x y : Z) : u64 x = u64 y -> exists k, x = y + k * 2 ^ 64.
Proof.
  unfold u64. intros H. exists (x / 2 ^ 64 - y / 2 ^ 64).
  pose proof (Z.div_mod x (2 ^ 64)). pose proof (Z.div_mod y (2 ^ 64)). lia.
Qed.

Lemma u64_of_diff (x y k : Z) : x = y + k * 2 ^ 64 -> u64 x = u64 y.
Proof. intros ->. unfold u64. apply Z_mod_plus_full. Qed.

Lemma u64_via (x y r a b : Z) :
  u64 x = u64 y -> a = x + r -> b = y + r -> u64 a = u64 b.
Proof. intros H -> ->. by apply u64_cong_r. Qed.

Section AddTotals.

Variable fault : StoreOp -> bool.

Variables (f : list byte -> Z) (g : BWSample -> Z).
Hypothesis f_decoded : forall v s, Sample.Decode newVar v = inr s -> f v = g s.
Hypothesis f_merged : forall old s v,
  merged old s = inr v -> u64 (f v) = u64 (default 0 (f <$> old) + g s).
Hypothesis g_accumulated : forall es,
  g (accumulated es) = u64 (foldr (fun s a => g s + a) 0 es).

Lemma decoded_sum (l : list (string * list byte)) (es : list BWSample) :
  decodesTo l es ->
  foldr (fun kv a => f kv.2 + a) 0 l = foldr (fun s a => g s + a) 0 es.
Proof.
  induction 1 as [|kv e l es Hd _ IH]; [done|].
  cbn [foldr]. by rewrite IH, (f_decoded _ _ Hd).
Qed.

Lemma sumAndShift_total (P D K : string) (st st' : Store) :
  P <> D ->
  Bwdb.sumAndShift fault P D K st = inr (tt, st') ->
  u64 (bucketSum f (bucketOf st' P) + bucketSum f (bucketOf st' D))
  = u64 (bucketSum f (bucketOf st P) + bucketSum f (bucketOf st D)).
Proof.
  intros Hne Hrun.
  apply sumAndShift_inr in Hrun as (HP & _ & es & v & Hes & M & HD); [|done].
  rewrite HP, HD. unfold bucketSum at 1. rewrite map_to_list_empty.
  cbn [foldr]. rewrite Z.add_0_l.
  rewrite (updateVal_total f g f_merged D K (accumulated es) _ v M).
  rewrite g_accumulated. rewrite <- (decoded_sum _ _ Hes).
  rewrite (sumList_perm f _ _ (entries_perm (bucketOf st P))).
  fold (bucketSum f (bucketOf st P)).
  unfold u64. rewrite Zplus_mod_idemp_r. f_equal. lia.
Qed.

Lemma shifts_total (c1 c2 c3 : bool) (K1 K2 K3 : string) (st st' : Store) :
  ((if c1 then Bwdb.sumAndShift fault bktMin bktHour K1 else tx_ret tt) ;;;
   (if c2 then Bwdb.sumAndShift fault bktHour bktDay K2 else tx_ret tt) ;;;
   (if c3 then Bwdb.sumAndShift fault bktDay bktMon K3 else tx_ret tt)) st
  = inr (tt, st') ->
  u64 (storeSum f st') = u64 (storeSum f st).
Proof.
  intros Hrun.
  apply tx_bind_inr in Hrun as ([] & st1 & H1 & Hrun).
  apply tx_bind_inr in Hrun as ([] & st2 & H2 & H3).
  assert (T3 : u64 (storeSum f st') = u64 (storeSum f st2)).
  { destruct c3; [|by injection H3 as <-].
    pose proof (sumAndShift_total bktDay bktMon _ _ _ ltac:(done) H3) as T.
    apply sumAndShift_inr in H3 as (_ & F & _); [|done].
    unfold storeSum.
    rewrite (bucketOf_lookup_eq st2 st' bktMin), (bucketOf_lookup_eq st2 st' bktHour)
      by (by apply F).
    apply (u64_via _ _ (bucketSum f (bucketOf st2 bktMin)
                        + bucketSum f (bucketOf st2 bktHour)) _ _ T); lia. }
  assert (T2 : u64 (storeSum f st2) = u64 (storeSum f st1)).
  { destruct c2; [|by injection H2 as <-].
    pose proof (sumAndShift_total bktHour bktDay _ _ _ ltac:(done) H2) as T.
    apply sumAndShift_inr in H2 as (_ & F & _); [|done].
    unfold storeSum.
    rewrite (bucketOf_lookup_eq st1 st2 bktMin), (bucketOf_lookup_eq st1 st2 bktMon)
      by (by apply F).
    apply (u64_via _ _ (bucketSum f (bucketOf st1 bktMin)
                        + bucketSum f (bucketOf st1 bktMon)) _ _ T); lia. }
  assert (T1 : u64 (storeSum f st1) = u64 (storeSum f st)).
  { destruct c1; [|by injection H1 as <-].
    pose proof (sumAndShift_total bktMin bktHour _ _ _ ltac:(done) H1) as T.
    apply sumAndShift_inr in H1 as (_ & F & _); [|done].
    unfold storeSum.
    rewrite (bucketOf_lookup_eq st st1 bktDay), (bucketOf_lookup_eq st st1 bktMon)
      by (by apply F).
    apply (u64_via _ _ (bucketSum f (bucketOf st bktDay)
                        + bucketSum f (bucketOf st bktMon)) _ _ T); lia. }
  congruence.
Qed.

Lemma four_updates_total (s : BWSample) (st st' : Store) :
  (Bwdb.updateVal fault bktMin (Sample.TimeLabel s minFmt) s ;;;
   Bwdb.updateVal fault bktHour (Sample.TimeLabel s hourFmt) s ;;;
   Bwdb.updateVal fault bktDay (Sample.TimeLabel s dayFmt) s ;;;
   Bwdb.updateVal fault bktMon (Sample.TimeLabel s monFmt) s) st
  = inr (tt, st') ->
  u64 (storeSum f st') = u64 (storeSum f st + 4 * g s).
Proof.
  intros Hrun. apply four_updates in Hrun as [Hb _].
  destruct (Hb bktMin minFmt) as (v1 & M1 & B1); [by apply elem_of_cons; left|].
  destruct (Hb bktHour hourFmt) as (v2 & M2 & B2);
    [apply elem_of_cons; right; by apply elem_of_cons; left|].
  destruct (Hb bktDay dayFmt) as (v3 & M3 & B3);
    [do 2 (apply elem_of_cons; right); by apply elem_of_cons; left|].
  destruct (Hb bktMon monFmt) as (v4 & M4 & B4);
    [do 3 (apply elem_of_cons; right); by apply elem_of_cons; left|].
  unfold storeSum. rewrite B1, B2, B3, B4.
  pose proof (updateVal_total f g f_merged bktMin _ s _ v1 M1) as T1.
  pose proof (updateVal_total f g f_merged bktHour _ s _ v2 M2) as T2.
  pose proof (updateVal_total f g f_merged bktDay _ s _ v3 M3) as T3.
  pose proof (updateVal_total f g f_merged bktMon _ s _ v4 M4) as T4.
  revert T1 T2 T3 T4.
  generalize (bucketSum f (<[Format minFmt (Ts s) := v1]> (bucketOf st bktMin))).
  generalize (bucketSum f (<[Format hourFmt (Ts s) := v2]> (bucketOf st bktHour))).
  generalize (bucketSum f (<[Format dayFmt (Ts s) := v3]> (bucketOf st bktDay))).
  generalize (bucketSum f (<[Format monFmt (Ts s) := v4]> (bucketOf st bktMon))).
  intros m' d' h' n' T1 T2 T3 T4.
  apply u64_diff in T1 as [k1 T1]. apply u64_diff in T2 as [k2 T2].
  apply u64_diff in T3 as [k3 T3]. apply u64_diff in T4 as [k4 T4].
  apply (u64_of_diff _ _ (k1 + k2 + k3 + k4)). lia.
Qed.

Lemma Add_total (d d' : Bwdb.bwdb) (s : BWSample) :
  Bwdb.Add fault d s = (d', None) ->
  u64 (storeSum f (Bwdb.db d'))
  = u64 (storeSum f (Bwdb.db d)
         + (if Sample.After s (Bwdb.last d) then 4 else 1) * g s).
Proof.
  intros Hrun.
  destruct (Bwdb.open d) eqn:Hopen;
    [|by unfold Bwdb.Add in Hrun; rewrite Hopen in Hrun].
  destruct (Sample.After s (Bwdb.last d)) eqn:Hafter.
  - rewrite Add_in_order in Hrun by done. cbv zeta in Hrun.
    match type of Hrun with
    | context [bolt.Batch fault ?fn ?st] =>
        destruct (Batch_cases fault fn st) as [[err Hb]|(st' & Hfn & Hb)];
        rewrite Hb in Hrun; cbn [fst snd] in Hrun; [done|]
    end.
    injection Hrun as <-. cbn [Bwdb.db].
    apply addBatch_inr in Hfn as (st4 & st7 & B4 & _ & Hshift & Hup).
    apply four_updates_total in Hup. apply shifts_total in Hshift.
    rewrite Hup. apply u64_cong_r. rewrite Hshift.
    unfold storeSum. by rewrite !B4.
  - unfold Bwdb.Add in Hrun. rewrite Hopen, Hafter in Hrun. cbn [negb] in Hrun.
    rewrite addOutOfOrder_eq in Hrun. rewrite Hopen in Hrun. cbn [negb] in Hrun.
    cbv zeta in Hrun.
    match type of Hrun with
    | context [bolt.Batch fault ?fn ?st] =>
        destruct (Batch_cases fault fn st) as [[err Hb]|(st' & Hfn & Hb)];
        rewrite Hb in Hrun; cbn [fst snd] in Hrun; [done|]
    end.
    injection Hrun as <-. cbn [Bwdb.set_db Bwdb.db].
    apply create_update_inr in Hfn as (v & M & ->).
    rewrite Z.mul_1_l.
    pose proof (updateVal_total f g f_merged bktMin _ s _ v M) as T.
    unfold outOfOrderTarget in *.
    destruct (MinuteOf (Ts s) =? MinuteOf (Bwdb.last d));
      [|destruct (HourOf (Ts s) =? HourOf (Bwdb.last d));
        [|destruct (DayOf (Ts s) =? DayOf (Bwdb.last d))]];
      cbn [fst snd] in *; unfold storeSum;
      rewrite bucketOf_insert, !bucketOf_insert_ne by done.
    + apply (u64_via _ _ (bucketSum f (bucketOf (Bwdb.db d) bktHour)
                          + bucketSum f (bucketOf (Bwdb.db d) bktDay)
                          + bucketSum f (bucketOf (Bwdb.db d) bktMon)) _ _ T); lia.
    + apply (u64_via _ _ (bucketSum f (bucketOf (Bwdb.db d) bktMin)
                          + bucketSum f (bucketOf (Bwdb.db d) bktDay)
                          + bucketSum f (bucketOf (Bwdb.db d) bktMon)) _ _ T); lia.
    + apply (u64_via _ _ (bucketSum f (bucketOf (Bwdb.db d) bktMin)
                          + bucketSum f (bucketOf (Bwdb.db d) bktHour)
                          + bucketSum f (bucketOf (Bwdb.db d) bktMon)) _ _ T); lia.
    + apply (u64_via _ _ (bucketSum f (bucketOf (Bwdb.db d) bktMin)
                          + bucketSum f (bucketOf (Bwdb.db d) bktHour)
                          + bucketSum f (bucketOf (Bwdb.db d) bktDay)) _ _ T); lia.
Qed.

End AddTotals.

(** An [Add] that returns without error raises the byte totals over the
    four buckets by the sample's counts, modulo 2^64: four times for a sample
    in order (one insert-or-sum in each bucket; rolling a period up moves
    counts between buckets and adds none), once for a sample out of order. *)
Theorem Add_accounts_for_every_byte (fault : StoreOp -> bool)
    (d d' : Bwdb.bwdb) (s : BWSample) :
  Bwdb.Add fault d s = (d', None) ->
  let n := if Sample.After s (Bwdb.last d) then 4 else 1 in
  u64 (storeSum upOf (Bwdb.db d'))
  = u64 (storeSum upOf (Bwdb.db d) + n * BytesUp s)
  /\ u64 (storeSum downOf (Bwdb.db d'))
     = u64 (storeSum downOf (Bwdb.db d) + n * BytesDown s).
Proof.
  intros Hrun n. split.
  - apply (Add_total fault upOf BytesUp); [| | |exact Hrun].
    + intros v s0 Hd. unfold upOf. by rewrite Hd.
    + intros old s0 v Hm. by apply upOf_merged in Hm as [? _].
    + done.
  - apply (Add_total fault downOf BytesDown); [| | |exact Hrun].
    + intros v s0 Hd. unfold downOf. by rewrite Hd.
    + intros old s0 v Hm. by apply upOf_merged in Hm as [_ ?].
    + done.
Qed.

Lemma Add_accounts_for_every_byte_witness :
  let d := Bwdb.mkBwdb true ∅ [] 20 (Date 2016 1 1 1 59) in
  let s := mkBWSample (Date 2016 1 1 2 0) 1000 7 in
  let d' := (Bwdb.Add noFault d s).1 in
  u64 (storeSum upOf (Bwdb.db d')) = 4000
  /\ u64 (storeSum downOf (Bwdb.db d')) = 28.
Proof.
  intros d s d'.
  assert (Hrun : Bwdb.Add noFault d s = (d', None)).
  { apply injective_projections; [done|]. by vm_compute. }
  destruct (Add_accounts_for_every_byte noFault d d' s Hrun) as [-> ->].
  split; by vm_compute.
Defined.

(** ** Reading a bucket *)

(** The walk of [pullSet] over the pairs [l]. *)
Lemma pull_walk (l : list (string * list byte)) :
  forall (acc : list BWSample) (st : Store),
    match bolt.forEachList
            (fun ss (_ : string) v =>
               match Sample.Decode newVar v with
               | inl err => tx_fail err
               | inr s => tx_ret (ss ++ [s])
               end) l acc st with
    | inr (r, st') => st' = st /\ exists es, decodesTo l es /\ r = acc ++ es
    | inl err =>
        err = errInvalidBufferSize
        /\ exists k v, (k, v) ∈ l /\ length v <> bwSampleSize
    end.
Proof.
  induction l as [|[k0 v0] l IH]; intros acc st.
  - cbn [bolt.forEachList]. unfold tx_ret. split; [done|].
    exists []. split; [constructor|]. by rewrite app_nil_r.
  - cbn [bolt.forEachList]. unfold tx_bind.
    destruct (Sample.Decode newVar v0) as [err|s0] eqn:Hd.
    + unfold tx_fail. unfold Sample.Decode in Hd.
      destruct (Nat.eqb (length v0) bwSampleSize) eqn:Hlen; [done|].
      injection Hd as <-. split; [done|]. exists k0, v0.
      split; [by apply elem_of_cons; left|]. by apply Nat.eqb_neq.
    + unfold tx_ret at 1. specialize (IH (acc ++ [s0]) st).
      destruct (bolt.forEachList _ l (acc ++ [s0]) st) as [err|[r st']].
      * destruct IH as (-> & k & v & Hin & Hlen). split; [done|].
        exists k, v. split; [by apply elem_of_cons; right|done].
      * destruct IH as (-> & es & Hes & ->). split; [done|].
        exists (s0 :: es). split; [by constructor|].
        by rewrite <- app_assoc.
Qed.

Lemma decodesTo_fun (l : list (string * list byte)) (es es' : list BWSample) :
  decodesTo l es -> decodesTo l es' -> es = es'.
Proof.
  intros H. revert es'. induction H as [|kv e l es Hd _ IH]; intros es' H'.
  - by inversion H'.
  - inversion H' as [|? e' ? es2 Hd' Hes']; subst. f_equal; [congruence|].
    by apply IH.
Qed.

Lemma decodesTo_sized (l : list (string * list byte)) :
  (forall k v, (k, v) ∈ l -> length v = bwSampleSize) <->
  exists es, decodesTo l es.
Proof.
  split.
  - induction l as [|[k v] l IH]; intros Hl; [exists []; constructor|].
    destruct (Decode_length newVar v) as [s Hs].
    { apply (Hl k). by apply elem_of_cons; left. }
    destruct IH as [es Hes].
    { intros k' v' Hin. apply (Hl k'). by apply elem_of_cons; right. }
    exists (s :: es). by constructor.
  - intros [es Hes]. induction Hes as [|[k0 v0] e l es Hd _ IH]; intros k v Hin.
    + by apply elem_of_nil in Hin.
    + apply elem_of_cons in Hin as [[= -> ->]|Hin]; [|by apply (IH k)].
      by apply Decode_inr_length in Hd.
Qed.

(** What [pullSet] (and so [Minutes], [Hours], [Days], [Months]) returns on
    an open engine: [errNoBucket] for a bucket that was never made; else the
    stored values decoded, one sample for each key, in the byte order of the
    keys; and [errInvalidBufferSize], with no sample at all, as soon as one
    stored value is not 24 bytes long. *)
Theorem pullSet_lists_the_bucket (d : Bwdb.bwdb) (b : string) :
  Bwdb.open d = true ->
  match Bwdb.db d !! b with
  | None => Bwdb.pullSet d b = inl errNoBucket
  | Some m =>
      (forall es, Bwdb.pullSet d b = inr es <-> decodesTo (entries m) es)
      /\ (forall es, Bwdb.pullSet d b = inr es -> length es = size m)
      /\ ((forall k v, m !! k = Some v -> length v = bwSampleSize) <->
          exists es, Bwdb.pullSet d b = inr es)
      /\ ((exists k v, m !! k = Some v /\ length v <> bwSampleSize) ->
          Bwdb.pullSet d b = inl errInvalidBufferSize)
  end.
Proof.
  intros Hopen. unfold Bwdb.pullSet. rewrite Hopen. cbn [negb].
  destruct (Bwdb.db d !! b) as [m|] eqn:Hb; [|done].
  unfold bolt.ForEach.
  replace (bucketOf (Bwdb.db d) b) with m by (unfold bucketOf; by rewrite Hb).
  pose proof (pull_walk (entries m) [] (Bwdb.db d)) as Hw.
  destruct (bolt.forEachList _ (entries m) [] (Bwdb.db d)) as [err|[r st']].
  - destruct Hw as (-> & k & v & Hin & Hlen). cbv beta iota.
    split; [|split; [done|split; [|done]]].
    + intros es. split; [done|]. intros Hes. exfalso. apply Hlen.
      apply (proj2 (decodesTo_sized (entries m)) (ex_intro _ es Hes) k v Hin).
    + split; [|by intros [es ?]]. intros Hl. exfalso. apply Hlen.
      apply (Hl k). by apply elem_of_entries.
  - destruct Hw as (-> & es & Hes & Hr). cbn [app] in Hr. subst r.
    cbv beta iota. split; [|split; [|split]].
    + intros es'. split.
      * by intros [= <-].
      * intros Hes'. f_equal. by apply (decodesTo_fun (entries m)).
    + intros es' [= <-]. unfold decodesTo in Hes.
      rewrite <- (Forall2_length _ _ _ Hes).
      rewrite (Permutation_length (entries_perm m)). apply length_map_to_list.
    + split; [by exists es|]. intros _ k v Hk.
      apply (proj2 (decodesTo_sized (entries m)) (ex_intro _ es Hes) k v).
      by apply elem_of_entries.
    + intros (k & v & Hk & Hlen). exfalso. apply Hlen.
      apply (proj2 (decodesTo_sized (entries m)) (ex_intro _ es Hes) k v).
      by apply elem_of_entries.
Qed.

Lemma pullSet_lists_the_bucket_witness :
  let m1 := mkBWSample (Date 2016 1 1 1 0) 1 2 in
  let m2 := mkBWSample (Date 2015 12 31 23 59) 10 20 in
  let st : Store :=
    {[ bktMin := {[ "010120160100"%string := Sample.Encode m1;
                    "123120152359"%string := Sample.Encode m2 ]} ]} in
  let d := Bwdb.mkBwdb true st [] 20 zeroTime in
  Bwdb.Hours d = inl errNoBucket
  /\ exists m, Bwdb.db d !! bktMin = Some m
       /\ size m = 2%nat
       /\ forall es, Bwdb.Minutes d = inr es <-> decodesTo (entries m) es.
Proof.
  intros m1 m2 st d.
  assert (Ho : Bwdb.open d = true) by done.
  pose proof (pullSet_lists_the_bucket d bktMin Ho) as HM.
  pose proof (pullSet_lists_the_bucket d bktHour Ho) as HH.
  assert (EH : Bwdb.db d !! bktHour = None) by (by vm_compute).
  rewrite EH in HH. split; [exact HH|].
  assert (Hsz : from_option size 0%nat (Bwdb.db d !! bktMin) = 2%nat)
    by (by vm_compute).
  destruct (Bwdb.db d !! bktMin) as [m|]; [|done].
  exists m. split; [done|]. split; [exact Hsz|]. apply HM.
Defined.

(** ** Purge *)

Lemma elem_of_bucketNames (st : Store) (b : string) :
  b ∈ bucketNames st <-> is_Some (st !! b).
Proof.
  unfold bucketNames. rewrite merge_sort_Permutation, list_elem_of_fmap. split.
  - intros ([b' m] & -> & Hin). apply elem_of_map_to_list in Hin. eauto.
  - intros [m Hm]. exists (b, m). split; [done|]. by apply elem_of_map_to_list.
Qed.

Lemma NoDup_bucketNames (st : Store) : NoDup (bucketNames st).
Proof.
  unfold bucketNames. rewrite merge_sort_Permutation.
  apply NoDup_fst_map_to_list.
Qed.

Section PurgeFacts.

Variable fault : StoreOp -> bool.

(** The walk of [purge] over the pairs [l] of bucket [name]. *)
Lemma delete_walk (name : string) (l : list (string * list byte)) :
  forall (st st' : Store) (u : unit),
    bolt.forEachList (fun _ k (_ : list byte) => bolt.Delete fault name k) l tt st
    = inr (u, st') ->
    (forall b, b <> name -> st' !! b = st !! b)
    /\ (is_Some (st !! name) -> is_Some (st' !! name))
    /\ (forall k, k ∈ l.*1 -> bucketOf st' name !! k = None)
    /\ (forall k, k ∉ l.*1 -> bucketOf st' name !! k = bucketOf st name !! k).
Proof.
  induction l as [|[k0 v0] l IH]; intros st st' u Hrun.
  - injection Hrun as _ <-. split; [done|]. split; [done|].
    split; [intros k Hk; by apply elem_of_nil in Hk|done].
  - cbn [bolt.forEachList] in Hrun.
    apply tx_bind_inr in Hrun as ([] & st1 & Hdel & Hrun).
    rewrite Delete_eq in Hdel. destruct (fault _); [done|].
    injection Hdel as <-.
    apply IH in Hrun as (Hframe & Hsome & Hin & Hout). clear IH.
    split; [|split; [|split]].
    + intros b Hb. rewrite Hframe by done. by rewrite lookup_insert_ne.
    + intros _. apply Hsome. rewrite lookup_insert_eq. eauto.
    + intros k Hk. cbn [fmap list_fmap fst] in Hk.
      destruct (decide (k ∈ l.*1)) as [Hl|Hl]; [by apply Hin|].
      apply elem_of_cons in Hk as [->|Hk]; [|done].
      rewrite Hout by done. rewrite bucketOf_insert. apply lookup_delete_eq.
    + intros k Hk. cbn [fmap list_fmap fst] in Hk.
      apply not_elem_of_cons in Hk as [Hk0 Hk].
      rewrite Hout by done. rewrite bucketOf_insert. by apply lookup_delete_ne.
Qed.

Lemma delete_walk_total (name : string) (l : list (string * list byte)) :
  (forall op, fault op = false) ->
  forall st : Store,
    exists st',
      bolt.forEachList (fun _ k (_ : list byte) => bolt.Delete fault name k) l tt st
      = inr (tt, st').
Proof.
  intros Hf. induction l as [|[k0 v0] l IH]; intros st; [by exists st|].
  cbn [bolt.forEachList]. unfold tx_bind at 1. rewrite Delete_eq, Hf.
  apply IH.
Qed.

Lemma purge_bucket (name : string) (st st' : Store) (u : unit) :
  is_Some (st !! name) ->
  bolt.ForEach name (fun _ k (_ : list byte) => bolt.Delete fault name k) tt st
  = inr (u, st') ->
  (forall b, b <> name -> st' !! b = st !! b) /\ st' !! name = Some ∅.
Proof.
  intros Hs Hrun. unfold bolt.ForEach in Hrun.
  apply delete_walk in Hrun as (Hframe & Hsome & Hin & Hout).
  split; [done|]. destruct (Hsome Hs) as [m Hm].
  rewrite Hm. f_equal. apply map_empty. intros k.
  assert (Hb : bucketOf st' name = m) by (unfold bucketOf; by rewrite Hm).
  rewrite <- Hb.
  destruct (decide (k ∈ (entries (bucketOf st name)).*1)) as [Hk|Hk].
  - by apply Hin.
  - rewrite Hout by done.
    destruct (bucketOf st name !! k) eqn:E; [|done].
    exfalso. apply Hk. apply elem_of_entries_keys. eauto.
Qed.

Lemma purge_fold (names : list string) :
  forall st st' : Store,
    NoDup names ->
    (forall b, b ∈ names -> is_Some (st !! b)) ->
    foldr
      (fun name (rest : Tx unit) =>
         bolt.ForEach name (fun _ k _ => bolt.Delete fault name k) tt ;;; rest)
      (tx_ret tt) names st = inr (tt, st') ->
    (forall b, b ∉ names -> st' !! b = st !! b)
    /\ (forall b, b ∈ names -> st' !! b = Some ∅).
Proof.
  induction names as [|name names IH]; intros st st' Hnd Hs Hrun.
  - injection Hrun as <-. split; [done|]. intros b Hb. by apply elem_of_nil in Hb.
  - cbn [foldr] in Hrun. apply tx_bind_inr in Hrun as (u & st1 & H1 & Hrun).
    apply NoDup_cons in Hnd as [Hname Hnd].
    apply purge_bucket in H1 as [F1 E1]; [|apply Hs; by apply elem_of_cons; left].
    apply IH in Hrun as [F E]; [|done|].
    + split.
      * intros b Hb. apply not_elem_of_cons in Hb as [Hb1 Hb2].
        rewrite F by done. by apply F1.
      * intros b Hb. apply elem_of_cons in Hb as [->|Hb]; [|by apply E].
        by rewrite F.
    + intros b Hb. rewrite F1; [apply Hs; by apply elem_of_cons; right|].
      by intros ->.
Qed.

Lemma purge_fold_total (names : list string) :
  (forall op, fault op = false) ->
  forall st : Store,
    exists st',
      foldr
        (fun name (rest : Tx unit) =>
           bolt.ForEach name (fun _ k _ => bolt.Delete fault name k) tt ;;; rest)
        (tx_ret tt) names st = inr (tt, st').
Proof.
  intros Hf. induction names as [|name names IH]; intros st; [by exists st|].
  cbn [foldr]. unfold tx_bind at 1. unfold bolt.ForEach.
  destruct (delete_walk_total name (entries (bucketOf st name)) Hf st)
    as [st1 ->].
  apply IH.
Qed.

(** [purge] on an open engine empties the live ring and clears [last]
    whatever the store answers. When it returns without error every bucket
    is still there and is empty, and no bucket is made; when it returns an
    error the store is as it was. It returns no error when the store fails
    no call. *)
Theorem purge_empties_every_bucket (d : Bwdb.bwdb) :
  Bwdb.open d = true ->
  let r := Bwdb.purge fault d in
  Bwdb.open r.1 = true /\ Bwdb.hist r.1 = [] /\ Bwdb.last r.1 = zeroTime
  /\ Bwdb.histSize r.1 = Bwdb.histSize d
  /\ match r.2 with
     | None =>
         forall b, Bwdb.db r.1 !! b = (fun _ => (∅ : Bucket)) <$> Bwdb.db d !! b
     | Some _ => Bwdb.db r.1 = Bwdb.db d
     end
  /\ ((forall op, fault op = false) -> r.2 = None).
Proof.
  intros Hopen. unfold Bwdb.purge. rewrite Hopen. cbn [negb].
  cbn [Bwdb.set_last Bwdb.set_hist Bwdb.db Bwdb.open Bwdb.hist Bwdb.histSize
       Bwdb.last].
  match goal with
  | |- context [bolt.Batch fault ?fn ?st] =>
      pose proof (Batch_cases fault fn st) as Hb;
      assert (Htot : (forall op, fault op = false) ->
                     exists st', fn st = inr (tt, st'))
        by (intros Hf; apply (purge_fold_total _ Hf));
      destruct (bolt.Batch fault fn st) as [st' err] eqn:E
  end.
  cbn [Bwdb.set_db Bwdb.db Bwdb.open Bwdb.hist Bwdb.histSize Bwdb.last fst snd].
  do 4 (split; [done|]). split.
  - destruct Hb as [[e Hb]|(st2 & Hfn & Hb)].
    + by injection Hb as -> ->.
    + injection Hb as -> ->.
      apply purge_fold in Hfn as [F Ein].
      * intros b. destruct (decide (b ∈ bucketNames (Bwdb.db d))) as [Hin|Hout].
        -- rewrite Ein by done. apply elem_of_bucketNames in Hin as [m ->]. done.
        -- rewrite F by done.
           destruct (Bwdb.db d !! b) eqn:Eb; [|done].
           exfalso. apply Hout. apply elem_of_bucketNames. eauto.
      * apply NoDup_bucketNames.
      * intros b. apply elem_of_bucketNames.
  - intros Hf. destruct (Htot Hf) as [st2 Hfn].
    unfold bolt.Batch in E. rewrite Hfn, Hf in E. by injection E as _ <-.
Qed.

End PurgeFacts.

Lemma purge_empties_every_bucket_witness :
  let m1 := mkBWSample (Date 2016 1 1 1 0) 1 2 in
  let st : Store :=
    {[ bktMin := {[ "010120160100"%string := Sample.Encode m1 ]};
       bktHour := {[ "0101201601"%string := Sample.Encode m1 ]} ]} in
  let d := Bwdb.mkBwdb true st [m1] 20 (Ts m1) in
  let r := Bwdb.purge noFault d in
  r.2 = None
  /\ Bwdb.hist r.1 = [] /\ Bwdb.last r.1 = zeroTime
  /\ forall b, Bwdb.db r.1 !! b = (fun _ => (∅ : Bucket)) <$> Bwdb.db d !! b.
Proof.
  intros m1 st d r.
  assert (Ho : Bwdb.open d = true) by done.
  destruct (purge_empties_every_bucket noFault d Ho)
    as (_ & Hh & Hl & _ & Hdb & Htot).
  fold r in Hh, Hl, Hdb, Htot.
  assert (Hr : r.2 = None) by (apply Htot; intros op; reflexivity).
  rewrite Hr in Hdb. exact (conj Hr (conj Hh (conj Hl Hdb))).
Defined.

(** ** Rebase, run again *)

Section RebaseAgain.

Variable fault : StoreOp -> bool.

Lemma shiftEntry_walk_some (src dst : string) (tcheck : Time)
    (keyFmt : Layout) (l : list (string * list byte)) :
  forall (a a' : BWSample) (st st' : Store) (b : string),
    bolt.forEachList (Bwdb.shiftEntry fault src dst tcheck keyFmt) l a st
    = inr (a', st') ->
    is_Some (st !! b) -> is_Some (st' !! b).
Proof.
  induction l as [|[k0 v0] l IH]; intros a a' st st' b Hrun Hs.
  - by injection Hrun as _ <-.
  - cbn [bolt.forEachList] in Hrun.
    apply tx_bind_inr in Hrun as (a1 & st1 & Hstep & Hrun).
    apply (IH _ _ _ _ b Hrun). clear IH Hrun.
    unfold Bwdb.shiftEntry in Hstep.
    destruct (Sample.Decode a v0) as [err|s0]; [done|].
    destruct (Before (Sample.TS s0) tcheck).
    + apply tx_bind_inr in Hstep as ([] & st2 & Hdel & Hstep).
      apply tx_bind_inr in Hstep as ([] & st3 & Hup & Hret).
      injection Hret as _ <-.
      rewrite Delete_eq in Hdel. destruct (fault _); [done|].
      injection Hdel as <-.
      apply updateVal_effect in Hup as (_ & _ & F & Hd).
      destruct (decide (b = dst)) as [->|Hne]; [done|].
      rewrite F by done.
      destruct (decide (b = src)) as [->|Hne'].
      * rewrite lookup_insert_eq. eauto.
      * by rewrite lookup_insert_ne.
    + by injection Hstep as _ <-.
Qed.

Lemma shiftEntry_walk_fixed (src dst : string) (tcheck : Time)
    (keyFmt : Layout) (l : list (string * list byte)) (st : Store) :
  (forall k v, (k, v) ∈ l ->
     exists s, Sample.Decode newVar v = inr s /\ tcheck <= Sample.TS s) ->
  forall a : BWSample,
    exists a',
      bolt.forEachList (Bwdb.shiftEntry fault src dst tcheck keyFmt) l a st
      = inr (a', st).
Proof.
  induction l as [|[k0 v0] l IH]; intros Hl a; [by exists a|].
  cbn [bolt.forEachList]. unfold tx_bind at 1. unfold Bwdb.shiftEntry at 1.
  destruct (Hl k0 v0) as (s0 & Hd & Hle); [by apply elem_of_cons; left|].
  rewrite (Decode_receiver a newVar), Hd.
  replace (Before (Sample.TS s0) tcheck) with false
    by (symmetry; apply Z.ltb_ge; exact Hle).
  unfold tx_ret at 1. apply IH.
  intros k v Hin. apply (Hl k). by apply elem_of_cons; right.
Qed.

Lemma shiftIfOlder_inr (src dst : string) (tcheck : Time) (keyFmt : Layout)
    (st st' : Store) :
  Bwdb.shiftIfOlder fault src dst tcheck keyFmt st = (st', None) ->
  fault (OpCreateBucket src) = false
  /\ fault (OpCreateBucket dst) = false
  /\ fault OpCommit = false
  /\ is_Some (st' !! src) /\ is_Some (st' !! dst)
  /\ forall b, is_Some (st !! b) -> is_Some (st' !! b).
Proof.
  unfold Bwdb.shiftIfOlder, bolt.Batch.
  match goal with
  | |- context [match ?fn st with _ => _ end] =>
      destruct (fn st) as [err|[[] st2]] eqn:Hfn; [done|]
  end.
  destruct (fault OpCommit); [done|]. intros [= <-].
  apply tx_bind_inr in Hfn as ([] & st1 & H1 & Hfn).
  apply tx_bind_inr in Hfn as ([] & st1' & H2 & Hfn).
  apply tx_bind_inr in Hfn as (a' & st3 & Hwalk & Hret).
  injection Hret as Heq. subst st3.
  apply create_inr in H1 as (F1 & _ & N1 & S1 & _).
  apply create_inr in H2 as (F2 & _ & N2 & S2 & _).
  unfold bolt.ForEach in Hwalk.
  assert (Hsome : forall b, is_Some (st1' !! b) -> is_Some (st2 !! b)).
  { intros b. by apply (shiftEntry_walk_some _ _ _ _ _ _ _ _ _ b Hwalk). }
  do 3 (split; [done|]). split; [|split].
  - apply Hsome. destruct (decide (src = dst)) as [->|Hne]; [done|].
    by rewrite N2.
  - by apply Hsome.
  - intros b Hb. apply Hsome.
    destruct (decide (b = dst)) as [->|Hne]; [done|]. rewrite N2 by done.
    destruct (decide (b = src)) as [->|Hne']; [done|]. by rewrite N1.
Qed.

Lemma shiftIfOlder_fixed (src dst : string) (tcheck : Time) (keyFmt : Layout)
    (st : Store) :
  fault (OpCreateBucket src) = false ->
  fault (OpCreateBucket dst) = false ->
  fault OpCommit = false ->
  is_Some (st !! src) -> is_Some (st !! dst) ->
  residentSince st src tcheck ->
  Bwdb.shiftIfOlder fault src dst tcheck keyFmt st = (st, None).
Proof.
  intros F1 F2 Fc [m1 S1] [m2 S2] Hres.
  unfold Bwdb.shiftIfOlder, bolt.Batch.
  unfold tx_bind at 1. rewrite CreateBucketIfNotExists_eq, F1, S1.
  unfold tx_bind at 1. rewrite CreateBucketIfNotExists_eq, F2, S2.
  unfold tx_bind at 1. unfold bolt.ForEach.
  destruct (shiftEntry_walk_fixed src dst tcheck keyFmt
              (entries (bucketOf st src)) st) with (a := newVar) as [a' ->].
  { intros k v Hin. apply elem_of_entries in Hin. by apply (Hres k). }
  unfold tx_ret. by rewrite Fc.
Qed.

(** A [Rebase] that returned without error has nothing left to do: run
    again for the same time, on the engine it left, it returns without
    error and changes nothing. *)
Theorem Rebase_again_changes_nothing (d d' : Bwdb.bwdb) (ts : Time) :
  Bwdb.Rebase fault d ts = (d', None) ->
  Bwdb.Rebase fault d' ts = (d', None).
Proof.
  intros Hrun. pose proof (Rebase_ok fault d d' ts Hrun) as (R1 & R2 & R3).
  unfold Bwdb.Rebase in Hrun.
  destruct (Bwdb.open d) eqn:Hopen; [|done]. cbn [negb] in Hrun.
  destruct (Bwdb.shiftIfOlder _ _ _ _ _ _) as [st1 [e1|]] eqn:E1; [done|].
  destruct (Bwdb.shiftIfOlder _ _ _ _ _ st1) as [st2 [e2|]] eqn:E2; [done|].
  destruct (Bwdb.shiftIfOlder _ _ _ _ _ st2) as [st3 [e3|]] eqn:E3; [done|].
  injection Hrun as <-. cbn [Bwdb.set_db Bwdb.db] in R1, R2, R3.
  apply shiftIfOlder_inr in E1 as (Fmin & Fhour & Fc & Smin1 & Shour1 & _).
  apply shiftIfOlder_inr in E2 as (_ & Fday & _ & Shour2 & Sday2 & K2).
  apply shiftIfOlder_inr in E3 as (_ & Fmon & _ & Sday3 & Smon3 & K3).
  unfold Bwdb.Rebase. cbn [Bwdb.set_db Bwdb.open Bwdb.db]. rewrite Hopen.
  cbn [negb].
  rewrite (shiftIfOlder_fixed bktMin bktHour) by auto.
  rewrite (shiftIfOlder_fixed bktHour bktDay) by auto.
  rewrite (shiftIfOlder_fixed bktDay bktMon) by auto.
  done.
Qed.

End RebaseAgain.

Lemma Rebase_again_changes_nothing_witness :
  let m1 := mkBWSample (Date 2016 1 1 1 0) 1 2 in
  let m2 := mkBWSample (Date 2016 2 15 13 0) 10 20 in
  let st : Store :=
    {[ bktMin := {[ "010120160100"%string := Sample.Encode m1;
                    "021520161300"%string := Sample.Encode m2 ]} ]} in
  let d := Bwdb.mkBwdb true st [] 20 zeroTime in
  let r := Bwdb.Rebase noFault d (Date 2016 2 15 12 0) in
  r.2 = None /\ Bwdb.Rebase noFault r.1 (Date 2016 2 15 12 0) = (r.1, None).
Proof.
  intros m1 m2 st d r.
  assert (Hr : r.2 = None) by (by vm_compute).
  split; [exact Hr|].
  apply (Rebase_again_changes_nothing noFault d r.1 (Date 2016 2 15 12 0)).
  fold r. rewrite <- Hr. by destruct r.
Defined.

(** ** Keys and periods *)

Lemma Parse_minFmt (t : Time) :
  0 <= YearOf t <= 9999 ->
  Parse minFmt (Format minFmt t)
  = Some (Date (YearOf t) (MonthOf t) (DayOf t) (HourOf t) (MinuteOf t)).
Proof.
  intros Hy. destruct (calendar_ranges t) as (Hm & Hd & _).
  destruct (clock_ranges t) as (Hh & Hmi).
  pose proof (daysIn_range (MonthOf t) (YearOf t)) as Hdi.
  unfold Parse. cbn [Format formatChunk minFmt parseChunks parseChunk].
  rewrite getnum_appendInt by lia. range_false. cbn [orb].
  rewrite getnum_appendInt by lia.
  rewrite getyear_appendInt by lia.
  rewrite getnum_appendInt by lia. range_false. cbn [orb].
  rewrite getnum_appendInt by lia. range_false. cbn [orb].
  cbn [pDay pMonth pYear pHour pMin parsed0]. range_false. done.
Qed.

Lemma Parse_monFmt (t : Time) :
  0 <= YearOf t <= 9999 ->
  Parse monFmt (Format monFmt t) = Some (Date (YearOf t) (MonthOf t) 1 0 0).
Proof.
  intros Hy. destruct (calendar_ranges t) as (Hm & Hd & _).
  pose proof (daysIn_range (MonthOf t) (YearOf t)) as Hdi.
  unfold Parse. cbn [Format formatChunk monFmt parseChunks parseChunk].
  rewrite getnum_appendInt by lia. range_false. cbn [orb].
  rewrite getyear_appendInt by lia.
  cbn [pDay pMonth pYear pHour pMin parsed0]. range_false. done.
Qed.

Lemma Date_minute (t : Time) :
  Date (YearOf t) (MonthOf t) (DayOf t) (HourOf t) (MinuteOf t) = startOfMinute t.
Proof.
  unfold Date. destruct (calendar_ranges t) as (_ & _ & ->).
  unfold startOfMinute, HourOf, MinuteOf, secOfDay, unixDay, unixSec,
    secondsPerDay, Minute, Second, Nanosecond.
  Z.div_mod_to_equations. lia.
Qed.

Lemma Date_hour (t : Time) :
  Date (YearOf t) (MonthOf t) (DayOf t) (HourOf t) 0 = startOfHour t.
Proof.
  unfold Date. destruct (calendar_ranges t) as (_ & _ & ->).
  unfold startOfHour, HourOf, secOfDay, unixDay, unixSec,
    secondsPerDay, Hour, Minute, Second, Nanosecond.
  Z.div_mod_to_equations. lia.
Qed.

Lemma Date_day (t : Time) :
  Date (YearOf t) (MonthOf t) (DayOf t) 0 0 = startOfDay t.
Proof.
  unfold Date. destruct (calendar_ranges t) as (_ & _ & ->).
  unfold startOfDay, unixDay, unixSec,
    secondsPerDay, Hour, Minute, Second, Nanosecond.
  Z.div_mod_to_equations. lia.
Qed.

(** The fields of a time, from the number of its minute. *)
Lemma fields_of_minute (t : Time) :
  unixDay t = t / Minute / 1440
  /\ HourOf t = t / Minute mod 1440 / 60
  /\ MinuteOf t = t / Minute mod 60.
Proof.
  unfold HourOf, MinuteOf, secOfDay, unixDay, unixSec, secondsPerDay, Minute,
    Second, Nanosecond.
  Z.div_mod_to_equations. lia.
Qed.

Lemma fields_of_hour (t : Time) :
  unixDay t = t / Hour / 24 /\ HourOf t = t / Hour mod 24.
Proof.
  unfold HourOf, secOfDay, unixDay, unixSec, secondsPerDay, Hour, Minute,
    Second, Nanosecond.
  Z.div_mod_to_equations. lia.
Qed.

Lemma fields_of_day (t : Time) : unixDay t = t / (24 * Hour).
Proof.
  unfold unixDay, unixSec, secondsPerDay, Hour, Minute, Second, Nanosecond.
  Z.div_mod_to_equations. lia.
Qed.

(** Day number of the first of a month, as a function of the month counted
    from March of year 0. *)
Lemma month_start_index (y m : Z) :
  1 <= m <= 12 ->
  let i := 12 * (if m <=? 2 then y - 1 else y) + (if m <=? 2 then m + 9 else m - 3) in
  days_from_civil y m 1
  = (i / 12) / 400 * 146097
    + (i / 12 - (i / 12) / 400 * 400) * 365
    + (i / 12 - (i / 12) / 400 * 400) / 4
    - (i / 12 - (i / 12) / 400 * 400) / 100
    + (153 * (i mod 12) + 2) / 5 - 719468.
Proof.
  intros Hm. unfold days_from_civil. destruct (m <=? 2) eqn:E; cbv zeta.
  - apply Z.leb_le in E.
    replace ((12 * (y - 1) + (m + 9)) / 12) with (y - 1)
      by (Z.div_mod_to_equations; lia).
    replace ((12 * (y - 1) + (m + 9)) mod 12) with (m + 9)
      by (Z.div_mod_to_equations; lia).
    lia.
  - apply Z.leb_gt in E.
    replace ((12 * y + (m - 3)) / 12) with y
      by (Z.div_mod_to_equations; lia).
    replace ((12 * y + (m - 3)) mod 12) with (m - 3)
      by (Z.div_mod_to_equations; lia).
    lia.
Qed.

Lemma index_days_mono (i j : Z) :
  i < j ->
  (i / 12) / 400 * 146097
    + (i / 12 - (i / 12) / 400 * 400) * 365
    + (i / 12 - (i / 12) / 400 * 400) / 4
    - (i / 12 - (i / 12) / 400 * 400) / 100
    + (153 * (i mod 12) + 2) / 5
  < (j / 12) / 400 * 146097
    + (j / 12 - (j / 12) / 400 * 400) * 365
    + (j / 12 - (j / 12) / 400 * 400) / 4
    - (j / 12 - (j / 12) / 400 * 400) / 100
    + (153 * (j mod 12) + 2) / 5.
Proof.
  intros H. Z.div_mod_to_equations. lia.
Qed.

Lemma month_start_inj (y m y' m' : Z) :
  1 <= m <= 12 -> 1 <= m' <= 12 ->
  days_from_civil y m 1 = days_from_civil y' m' 1 -> y = y' /\ m = m'.
Proof.
  intros Hm Hm' Heq.
  rewrite (month_start_index y m Hm), (month_start_index y' m' Hm') in Heq.
  cbv zeta in Heq.
  set (i := 12 * (if m <=? 2 then y - 1 else y)
            + (if m <=? 2 then m + 9 else m - 3)) in *.
  set (j := 12 * (if m' <=? 2 then y' - 1 else y')
            + (if m' <=? 2 then m' + 9 else m' - 3)) in *.
  assert (Hij : i = j).
  { destruct (Z.lt_trichotomy i j) as [Hlt|[Heq'|Hgt]]; [|done|].
    - pose proof (index_days_mono i j Hlt). lia.
    - pose proof (index_days_mono j i ltac:(lia)). lia. }
  subst i j. clear Heq.
  destruct (m <=? 2) eqn:E; destruct (m' <=? 2) eqn:E';
    try apply Z.leb_le in E; try apply Z.leb_le in E';
    try apply Z.leb_gt in E; try apply Z.leb_gt in E'; lia.
Qed.

Lemma same_fields_same_label (layout : Layout) (t u : Time) :
  unixDay t = unixDay u -> HourOf t = HourOf u ->
  (stdZeroMinute ∈ layout -> MinuteOf t = MinuteOf u) ->
  (stdHour ∈ layout -> HourOf t = HourOf u) ->
  Format layout t = Format layout u.
Proof.
  intros Hd _ Hm Hh. induction layout as [|c layout IH]; [done|].
  cbn [Format]. rewrite IH.
  - f_equal. destruct c; cbn [formatChunk]; unfold YearOf, MonthOf, DayOf;
      rewrite ?Hd; try done.
    + rewrite Hh; [done|]. by apply elem_of_cons; left.
    + rewrite Hm; [done|]. by apply elem_of_cons; left.
  - intros Hin. apply Hm. by apply elem_of_cons; right.
  - intros Hin. apply Hh. by apply elem_of_cons; right.
Qed.

(** Two times of the years 0 to 9999 get the same key in a bucket exactly
    when they fall in the same period of the bucket: the same minute, hour,
    day or month (UTC). *)
Theorem keys_name_periods (t u : Time) :
  0 <= YearOf t <= 9999 -> 0 <= YearOf u <= 9999 ->
  (Format minFmt t = Format minFmt u <-> startOfMinute t = startOfMinute u)
  /\ (Format hourFmt t = Format hourFmt u <-> startOfHour t = startOfHour u)
  /\ (Format dayFmt t = Format dayFmt u <-> startOfDay t = startOfDay u)
  /\ (Format monFmt t = Format monFmt u <-> startOfMonth t = startOfMonth u).
Proof.
  intros Ht Hu. split; [|split; [|split]]; split.
  - intros Heq.
    pose proof (Parse_minFmt t Ht) as Pt. pose proof (Parse_minFmt u Hu) as Pu.
    rewrite Heq, Pu, !Date_minute in Pt. by injection Pt.
  - intros Heq. unfold startOfMinute in Heq.
    assert (Hq : t / Minute = u / Minute)
      by (unfold Minute, Second, Nanosecond in *; lia).
    destruct (fields_of_minute t) as (Dt & Ht' & Mt).
    destruct (fields_of_minute u) as (Du & Hu' & Mu).
    apply same_fields_same_label; congruence.
  - intros Heq.
    pose proof (Parse_hourFmt t Ht) as Pt. pose proof (Parse_hourFmt u Hu) as Pu.
    rewrite Heq, Pu, !Date_hour in Pt. by injection Pt.
  - intros Heq. unfold startOfHour in Heq.
    assert (Hq : t / Hour = u / Hour)
      by (unfold Hour, Minute, Second, Nanosecond in *; lia).
    destruct (fields_of_hour t) as (Dt & Ht').
    destruct (fields_of_hour u) as (Du & Hu').
    apply same_fields_same_label; try congruence.
    intros Hin. unfold hourFmt in Hin.
    do 4 (apply elem_of_cons in Hin as [Hin|Hin]; [discriminate|]).
    by apply elem_of_nil in Hin.
  - intros Heq.
    pose proof (Parse_dayFmt t Ht) as Pt. pose proof (Parse_dayFmt u Hu) as Pu.
    rewrite Heq, Pu, !Date_day in Pt. by injection Pt.
  - intros Heq. unfold startOfDay in Heq.
    assert (Hq : t / (24 * Hour) = u / (24 * Hour))
      by (unfold Hour, Minute, Second, Nanosecond in *; lia).
    cbn [Format dayFmt formatChunk]. unfold YearOf, MonthOf, DayOf.
    by rewrite !fields_of_day, Hq.
  - intros Heq.
    pose proof (Parse_monFmt t Ht) as Pt. pose proof (Parse_monFmt u Hu) as Pu.
    rewrite Heq, Pu in Pt. by injection Pt.
  - unfold startOfMonth, Date. intros Heq.
    destruct (calendar_ranges t) as (Hmt & _). destruct (calendar_ranges u) as (Hmu & _).
    destruct (month_start_inj (YearOf t) (MonthOf t) (YearOf u) (MonthOf u))
      as [Hy Hm]; [done|done| |].
    + unfold secondsPerDay, Second, Nanosecond in Heq. lia.
    + cbn [Format monFmt formatChunk]. by rewrite Hy, Hm.
Qed.

Lemma keys_name_periods_witness :
  let t := Date 2016 1 1 1 0 + 5 * Second in
  let u := Date 2016 1 1 1 59 in
  Format hourFmt t = Format hourFmt u
  /\ Format minFmt t <> Format minFmt u.
Proof.
  intros t u.
  destruct (keys_name_periods t u) as (Hmin & Hhour & _);
    [by vm_compute|by vm_compute|].
  split.
  - apply Hhour. by vm_compute.
  - intros Heq. apply Hmin in Heq. revert Heq. by vm_compute.
Defined.

(** ** The cutoffs of [Rebase] *)

Lemma startOfMonth_le (ts : Time) : startOfMonth ts <= ts.
Proof.
  destruct (calendar_ranges ts) as (_ & Hd & Hday).
  assert (H1 : days_from_civil (YearOf ts) (MonthOf ts) 1 <= unixDay ts).
  { rewrite <- Hday. unfold days_from_civil. cbv zeta. lia. }
  unfold startOfMonth, Date. revert H1.
  generalize (days_from_civil (YearOf ts) (MonthOf ts) 1).
  unfold unixDay, unixSec, secondsPerDay, Second, Nanosecond. intros z Hz.
  Z.div_mod_to_equations. lia.
Qed.

(** For a time of the years 1 to 9999, [prevHour] is the start of the hour
    after its hour and [prevDay] the start of the day after its day, so both
    are later than the time itself, by at most the length of the period;
    [prevMon] is the start of the month before its month. *)
Theorem prev_helpers_cutoffs (ts : Time) :
  1 <= YearOf ts <= 9999 ->
  Bwdb.prevHour ts = startOfHour ts + Hour
  /\ Bwdb.prevDay ts = startOfDay ts + 24 * Hour
  /\ Bwdb.prevMon ts = startOfPrevMonth ts
  /\ ts < Bwdb.prevHour ts <= ts + Hour
  /\ ts < Bwdb.prevDay ts <= ts + 24 * Hour
  /\ Bwdb.prevMon ts < startOfMonth ts <= ts.
Proof.
  intros Hy.
  rewrite prevHour_spec, prevDay_spec, prevMon_spec by lia.
  do 3 (split; [done|]). split; [|split].
  - unfold startOfHour, Hour, Minute, Second, Nanosecond.
    Z.div_mod_to_equations. lia.
  - unfold startOfDay, Hour, Minute, Second, Nanosecond.
    Z.div_mod_to_equations. lia.
  - split; [apply startOfPrevMonth_lt|apply startOfMonth_le].
Qed.

Lemma prev_helpers_cutoffs_witness :
  let ts := Date 2016 2 15 12 30 in
  Bwdb.prevHour ts = Date 2016 2 15 13 0
  /\ Bwdb.prevDay ts = Date 2016 2 16 0 0
  /\ Bwdb.prevMon ts = Date 2016 1 1 0 0.
Proof.
  intros ts.
  destruct (prev_helpers_cutoffs ts) as (-> & -> & -> & _); [by vm_compute|].
  by vm_compute.
Defined.

(** ** The live set *)

Lemma addInOrder_open (fault : StoreOp -> bool) (ss : list BWSample) :
  forall d d' : Bwdb.bwdb,
    addInOrder fault d ss = Some d' -> Bwdb.open d = true ->
    Bwdb.open d' = true.
Proof.
  induction ss as [|s ss IH]; intros d d' Hrun Hopen.
  - by injection Hrun as <-.
  - cbn [addInOrder] in Hrun. rewrite Hopen in Hrun. cbn [andb] in Hrun.
    destruct (Sample.After s (Bwdb.last d)) eqn:Hafter; [|done].
    pose proof (Add_in_order fault d s Hopen Hafter) as Hadd. cbv zeta in Hadd.
    destruct (Bwdb.Add fault d s) as [d1 [e|]] eqn:E; [done|].
    apply (IH d1 d' Hrun).
    destruct (bolt.Batch _ _ _) as [st [e|]]; cbn [snd] in Hadd;
      by injection Hadd as ->.
Qed.

(** After samples are added in order, each without error, [LiveSet] returns
    the samples added, the newest first, followed by what the ring held
    before, the whole cut to the size of the ring. *)
Theorem LiveSet_is_the_latest (fault : StoreOp -> bool) (d d' : Bwdb.bwdb)
    (ss : list BWSample) :
  Bwdb.open d = true ->
  (length (Bwdb.hist d) <= Z.to_nat (Bwdb.histSize d))%nat ->
  addInOrder fault d ss = Some d' ->
  Bwdb.LiveSet d'
  = inr (take (Z.to_nat (Bwdb.histSize d)) (rev ss ++ Bwdb.hist d)).
Proof.
  intros Hopen Hlen Hrun. unfold Bwdb.LiveSet.
  rewrite (addInOrder_open fault ss d d' Hrun Hopen). cbn [negb].
  by destruct (addInOrder_ring fault ss d d' Hlen Hrun) as [_ ->].
Qed.

Lemma LiveSet_is_the_latest_witness :
  let s1 := mkBWSample (Date 2016 1 1 1 0) 1 1 in
  let s2 := mkBWSample (Date 2016 1 1 1 1) 2 2 in
  let s3 := mkBWSample (Date 2016 1 1 1 2) 3 3 in
  let d := Bwdb.mkBwdb true ∅ [] 2 zeroTime in
  exists d', addInOrder noFault d [s1; s2; s3] = Some d'
             /\ Bwdb.LiveSet d' = inr [s3; s2].
Proof.
  intros s1 s2 s3 d.
  assert (Hok : match addInOrder noFault d [s1; s2; s3] with
                | Some _ => true | None => false end = true) by (by vm_compute).
  destruct (addInOrder noFault d [s1; s2; s3]) as [d'|] eqn:E; [|discriminate Hok].
  exists d'. split; [done|].
  rewrite (LiveSet_is_the_latest noFault d d' [s1; s2; s3]); [done|done| |exact E].
  cbn. lia.
Defined.

(** An in-order [Add] that the store refuses has already put the sample in
    the live ring: the store is as it was, and [LiveSet] shows the sample
    first. *)
Theorem refused_Add_stays_in_the_ring (fault : StoreOp -> bool)
    (d d' : Bwdb.bwdb) (s : BWSample) (err : error) :
  Bwdb.open d = true ->
  Sample.After s (Bwdb.last d) = true ->
  0 < Bwdb.histSize d ->
  Bwdb.Add fault d s = (d', Some err) ->
  Bwdb.db d' = Bwdb.db d
  /\ Bwdb.open d' = true
  /\ exists rest, Bwdb.LiveSet d' = inr (s :: rest)
       /\ s :: rest = take (Z.to_nat (Bwdb.histSize d)) (s :: Bwdb.hist d).
Proof.
  intros Hopen Hafter Hsize Hrun.
  pose proof (Add_in_order fault d s Hopen Hafter) as Hadd. cbv zeta in Hadd.
  rewrite Hrun in Hadd.
  destruct (bolt.Batch _ _ _) as [st [e|]]; cbn [snd] in Hadd; [|done].
  injection Hadd as -> _. cbn [Bwdb.db Bwdb.open]. do 2 (split; [done|]).
  unfold Bwdb.LiveSet. cbn [Bwdb.open Bwdb.hist negb].
  destruct (Z.to_nat (Bwdb.histSize d)) as [|n] eqn:En; [lia|].
  cbn [take]. by eexists.
Qed.

Lemma refused_Add_stays_in_the_ring_witness :
  let fault := fun op => match op with OpCommit => true | _ => false end in
  let d := Bwdb.mkBwdb true ∅ [] 60 zeroTime in
  let s := mkBWSample (Date 2016 1 1 1 0) 1 1 in
  Bwdb.db (Bwdb.Add fault d s).1 = ∅
  /\ Bwdb.LiveSet (Bwdb.Add fault d s).1 = inr [s].
Proof.
  intros fault d s.
  assert (Hrun : Bwdb.Add fault d s
                 = ((Bwdb.Add fault d s).1, Some (errStorage OpCommit))).
  { apply injective_projections; [done|]. by vm_compute. }
  destruct (refused_Add_stays_in_the_ring fault d _ s _ eq_refl eq_refl
              ltac:(done) Hrun) as (Hdb & _ & rest & HL & Hrest).
  split; [exact Hdb|]. rewrite HL. f_equal. exact Hrest.
Defined.

(** ** The sampler, over a run of calls *)

Lemma parseDigits_range (l : list byte) :
  forall acc n, is_u64 acc -> Ifmon.parseDigits l acc = inr n -> is_u64 n.
Proof.
  induction l as [|b l IH]; intros acc n Hacc Hp; cbn [Ifmon.parseDigits] in Hp.
  - by injection Hp as <-.
  - cbv zeta in Hp.
    destruct ((48 <=? Z_of_byte b) && (Z_of_byte b <=? 57)) eqn:Hd; [|done].
    apply andb_true_iff in Hd as [H1 H2].
    apply Z.leb_le in H1. apply Z.leb_le in H2.
    destruct (2 ^ 64 <=? acc * 10 + (Z_of_byte b - 48)) eqn:Hr; [done|].
    apply Z.leb_gt in Hr. apply (IH (acc * 10 + (Z_of_byte b - 48))); [|exact Hp].
    unfold is_u64 in *. lia.
Qed.

Lemma getFioInt_range (w : Ifmon.World) (fio : option Ifmon.File) (n : Z) :
  Ifmon.getFioInt w fio = inr n -> is_u64 n.
Proof.
  unfold Ifmon.getFioInt. destruct fio as [f|]; [|done].
  destruct (Ifmon.file_Seek w f) as [err|off]; [done|].
  destruct (negb (off =? 0)); [done|].
  destruct (Ifmon.file_Read w f) as [err|bytes]; [done|]. cbv zeta.
  destruct (_ || _); [done|]. unfold Ifmon.ParseUint.
  destruct (take _ _) as [|b l]; [done|].
  apply parseDigits_range. unfold is_u64. lia.
Qed.

Lemma reopenInterfaces_ok (w : Ifmon.World) (iface : Ifmon.Iface) :
  sampler_ok iface -> sampler_ok (Ifmon.reopenInterfaces w iface).1.
Proof.
  intros Hok. unfold Ifmon.reopenInterfaces.
  destruct (_ || _); [done|].
  destruct (Ifmon.os_Open w _) as [rx|]; [|done].
  destruct (Ifmon.os_Open w _) as [tx|]; [|done].
  destruct Hok as (_ & ? & ?). by split.
Qed.

Lemma GetStats_ok (w : Ifmon.World) (iface : Ifmon.Iface) :
  sampler_ok iface ->
  sampler_ok (Ifmon.GetStats w iface).1
  /\ is_u64 (Ifmon.GetStats w iface).2.1.1
  /\ is_u64 (Ifmon.GetStats w iface).2.1.2.
Proof.
  intros Hok. unfold Ifmon.GetStats.
  assert (Hz : is_u64 0) by (unfold is_u64; lia).
  assert (Hc : forall i, sampler_ok (Ifmon.closeInterfaces i)) by (by split).
  destruct (Ifmon.isNil (Ifmon.fioSend iface) || Ifmon.isNil (Ifmon.fioRecv iface)).
  - pose proof (reopenInterfaces_ok w iface Hok) as Hok'.
    destruct (Ifmon.reopenInterfaces w iface) as [iface' [e|]]; cbn [fst] in Hok';
      [by split|].
    destruct (Ifmon.getFioInt w (Ifmon.fioRecv iface')) as [e|rx] eqn:Erx;
      [by split|].
    destruct (Ifmon.getFioInt w (Ifmon.fioSend iface')) as [e|tx] eqn:Etx;
      [by split|].
    apply getFioInt_range in Erx, Etx. cbn [fst snd].
    destruct Hok' as (Hp & _ & _).
    split; [by split|]. split.
    + destruct (_ =? 0); [done|apply u64_range].
    + destruct (_ =? 0); [done|apply u64_range].
  - destruct (Ifmon.getFioInt w (Ifmon.fioRecv iface)) as [e|rx] eqn:Erx;
      [by split|].
    destruct (Ifmon.getFioInt w (Ifmon.fioSend iface)) as [e|tx] eqn:Etx;
      [by split|].
    apply getFioInt_range in Erx, Etx. cbn [fst snd].
    destruct Hok as (Hp & _ & _).
    split; [by split|]. split.
    + destruct (_ =? 0); [done|apply u64_range].
    + destruct (_ =? 0); [done|apply u64_range].
Qed.

Lemma Iface_Close_ok (w : Ifmon.World) (iface : Ifmon.Iface) :
  sampler_ok iface -> sampler_ok (Ifmon.Close w iface).1.
Proof.
  intros Hok. unfold Ifmon.Close. destruct (negb _); [done|].
  destruct (Ifmon.closeFile w _); [done|].
  destruct (Ifmon.closeFile w _); [done|].
  destruct Hok as (_ & ? & ?). by split.
Qed.

Lemma ifcalls_ok (wcs : list (Ifmon.World * IfCall)) :
  forall iface, sampler_ok iface -> sampler_ok (ifcalls iface wcs).
Proof.
  unfold ifcalls.
  induction wcs as [|[w c] wcs IH]; intros iface Hok; [done|].
  cbn [foldl]. apply IH. unfold ifcall. cbn [fst snd].
  destruct c; [by apply GetStats_ok|by apply Iface_Close_ok].
Qed.

(** Whatever calls were made on a sampler since [NewIfmon], and whatever
    the operating system answered: it holds both files or none, so that
    reopening never finds it half open; its last counters are [uint64]s;
    and [GetStats] returns no error and two [uint64]s. *)
Theorem sampler_stays_consistent (w0 w : Ifmon.World) (name alias : string)
    (wcs : list (Ifmon.World * IfCall)) :
  let iface := ifcalls (Ifmon.NewIfmon w0 name alias) wcs in
  sampler_ok iface
  /\ (Ifmon.fioSend iface = None ->
      (Ifmon.reopenInterfaces w iface).2 <> Some Ifmon.ErrInterfaceOpen)
  /\ (Ifmon.GetStats w iface).2.2 = None
  /\ is_u64 (Ifmon.GetStats w iface).2.1.1
  /\ is_u64 (Ifmon.GetStats w iface).2.1.2.
Proof.
  intros iface.
  assert (Hok : sampler_ok iface).
  { apply ifcalls_ok. unfold Ifmon.NewIfmon. apply reopenInterfaces_ok.
    split; [done|]. unfold is_u64. cbn. lia. }
  split; [exact Hok|]. split; [|split].
  - intros Hs. destruct Hok as (Hp & _). rewrite Hs in Hp.
    unfold Ifmon.reopenInterfaces. rewrite Hs, <- Hp. cbn [Ifmon.isNil negb orb].
    destruct (Ifmon.os_Open w _); [|done]. by destruct (Ifmon.os_Open w _).
  - unfold Ifmon.GetStats.
    destruct (if _ || _ then _ else _) as [i [e|]]; [done|].
    destruct (Ifmon.getFioInt w _); [done|].
    by destruct (Ifmon.getFioInt w _).
  - apply (GetStats_ok w iface Hok).
Qed.



(** [Close] of a sampler: [ErrClosed] once it is closed; [os.ErrInvalid],
    and the sampler stays open, while it holds no file (after a read that
    failed, or before the files could first be opened); any error leaves the
    sampler as it was; without error both files are dropped, the last
    counters are kept, and every later [Close] is [ErrClosed]. *)
Theorem Iface_Close_edges (w w' : Ifmon.World) (iface : Ifmon.Iface) :
  let r := Ifmon.Close w iface in
  (Ifmon.open iface = false -> r = (iface, Some Ifmon.ErrClosed))
  /\ (Ifmon.open iface = true -> Ifmon.fioSend iface = None ->
      r = (iface, Some Ifmon.ErrInvalid))
  /\ (r.2 <> None -> r.1 = iface)
  /\ (r.2 = None ->
      Ifmon.open iface = true
      /\ Ifmon.open r.1 = false
      /\ Ifmon.fioSend r.1 = None /\ Ifmon.fioRecv r.1 = None
      /\ Ifmon.lastSend r.1 = Ifmon.lastSend iface
      /\ Ifmon.lastRecv r.1 = Ifmon.lastRecv iface
      /\ Ifmon.Close w' r.1 = (r.1, Some Ifmon.ErrClosed)).
Proof.
  unfold Ifmon.Close. cbv zeta. split; [|split; [|split]].
  - by intros ->.
  - by intros -> ->.
  - destruct (negb _); [done|]. destruct (Ifmon.closeFile w _); [done|].
    by destruct (Ifmon.closeFile w _).
  - destruct (Ifmon.open iface); [|done]. cbn [negb].
    destruct (Ifmon.closeFile w _); [done|].
    by destruct (Ifmon.closeFile w _).
Qed.

(** [getFioInt] on an open file returns a number exactly when the seek
    answers offset 0 and the bytes read, at most 64 of them, are decimal
    digits that [strconv.ParseUint] takes followed by a newline; the number
    is a [uint64]. A seek to another offset is [ErrFailedSeek], and bytes
    that do not end in a newline, or hold nothing before it, are
    [ErrInvalidData]. *)
Theorem getFioInt_reads_a_decimal_line (w : Ifmon.World) (f : Ifmon.File) :
  (forall n,
     Ifmon.getFioInt w (Some f) = inr n <->
     Ifmon.file_Seek w f = inr 0
     /\ exists bytes digits,
          Ifmon.file_Read w f = inr bytes
          /\ take 64 bytes = digits ++ [Byte.x0a]
          /\ Ifmon.ParseUint digits = inr n)
  /\ (forall n, Ifmon.getFioInt w (Some f) = inr n -> is_u64 n)
  /\ (forall off, Ifmon.file_Seek w f = inr off -> off <> 0 ->
      Ifmon.getFioInt w (Some f) = inl Ifmon.ErrFailedSeek)
  /\ (forall bytes, Ifmon.file_Seek w f = inr 0 ->
      Ifmon.file_Read w f = inr bytes ->
      (last (take 64 bytes) <> Some Byte.x0a \/ (length bytes < 2)%nat) ->
      Ifmon.getFioInt w (Some f) = inl Ifmon.ErrInvalidData).
Proof.
  assert (Hlast : forall (l : list byte) (d : byte),
            List.last l d = default d (last l)).
  { induction l as [|x l IH]; intros d; [done|].
    destruct l as [|y l]; [done|].
    rewrite last_cons_cons. change (List.last (x :: y :: l) d)
      with (List.last (y :: l) d). apply IH. }
  assert (Hnl : forall b : byte, (Z_of_byte b =? 10) = true <-> b = Byte.x0a).
  { intros b. split; [|by intros ->].
    destruct b; vm_compute; congruence. }
  split; [|split; [|split]].
  - intros n. unfold Ifmon.getFioInt. split.
    + destruct (Ifmon.file_Seek w f) as [err|off]; [done|].
      destruct (off =? 0) eqn:Eo; [|done]. apply Z.eqb_eq in Eo as ->.
      cbn [negb]. destruct (Ifmon.file_Read w f) as [err|bytes]; [done|].
      cbv zeta. destruct (_ || _) eqn:Ec; [done|].
      apply orb_false_iff in Ec as [Ec1 Ec2].
      apply negb_false_iff in Ec1. rewrite Hlast in Ec1.
      intros Hp. split; [done|].
      destruct (take 64 bytes) as [|b0 bt] eqn:Et using rev_ind; [done|].
      clear IHbt. rewrite last_snoc in Ec1. cbn [default from_option id] in Ec1.
      apply Hnl in Ec1 as ->.
      exists bytes, bt. split; [done|]. split; [done|].
      rewrite length_app in Hp. cbn [length] in Hp.
      replace (length bt + 1 - 1)%nat with (length bt) in Hp by lia.
      by rewrite take_app_length in Hp.
    + intros (-> & bytes & digits & -> & Ht & Hp). cbn [Z.eqb negb].
      cbv zeta. rewrite Ht, Hlast, last_snoc. cbn [default from_option id].
      replace (Z_of_byte Byte.x0a =? 10) with true by done. cbn [negb orb].
      rewrite length_app. cbn [length].
      destruct digits as [|d0 ds]; [done|].
      replace (length (d0 :: ds) + 1 <? 2)%nat with false
        by (symmetry; apply Nat.ltb_ge; cbn [length]; lia).
      replace (length (d0 :: ds) + 1 - 1)%nat with (length (d0 :: ds)) by lia.
      by rewrite take_app_length.
  - intros n. apply getFioInt_range.
  - intros off Hs Hoff. unfold Ifmon.getFioInt. rewrite Hs.
    by replace (off =? 0) with false by (symmetry; by apply Z.eqb_neq).
  - intros bytes Hs Hr Hbad. unfold Ifmon.getFioInt. rewrite Hs, Hr.
    cbn [Z.eqb negb]. cbv zeta. rewrite Hlast.
    destruct Hbad as [Hbad|Hbad].
    + destruct (last (take 64 bytes)) as [b|] eqn:El; cbn [default from_option id].
      * destruct (Z_of_byte b =? 10) eqn:Eb; [|done].
        apply Hnl in Eb as ->. done.
      * done.
    + replace (length (take 64 bytes) <? 2)%nat with true; [by rewrite orb_true_r|].
      symmetry. apply Nat.ltb_lt. rewrite length_take. lia.
Qed.

Lemma getFioInt_reads_a_decimal_line_witness :
  let w := Ifmon.mkWorld (fun _ => Some 3) (fun _ => inr 0)
             (fun _ => inr [Byte.x35; Byte.x35; Byte.x0a]) (fun _ => None) in
  Ifmon.getFioInt w (Some 3) = inr 55.
Proof.
  intros w.
  destruct (getFioInt_reads_a_decimal_line w 3) as (H & _).
  apply H. split; [done|].
  exists [Byte.x35; Byte.x35; Byte.x0a], [Byte.x35; Byte.x35]. done.
Defined.

(** ** The live fan-out: ids *)

Section FeederIds.

Context {C : Type} `{Live.LiveConsumer C}.

Lemma serviceOne_dom (name : string) (s : BWSample) (m : gmap Z C)
    (evs : list Live.Event) (k j : Z) :
  is_Some ((Live.serviceOne name s (m, evs) k).1 !! j) -> is_Some (m !! j).
Proof.
  unfold Live.serviceOne. cbn [fst snd].
  destruct (m !! k) as [v|] eqn:Hk; [|done].
  destruct (Live.Write v name s) as [v' [err|]]; cbn [fst].
  - destruct (decide (j = k)) as [->|Hne].
    + by rewrite lookup_delete_eq; intros [].
    + by rewrite lookup_delete_ne.
  - destruct (decide (j = k)) as [->|Hne]; [by rewrite Hk|].
    by rewrite lookup_insert_ne.
Qed.

Lemma service_fold_dom (name : string) (s : BWSample) (order : list Z) :
  forall (m : gmap Z C) (evs : list Live.Event) (j : Z),
    is_Some ((foldl (Live.serviceOne name s) (m, evs) order).1 !! j) ->
    is_Some (m !! j).
Proof.
  induction order as [|k order IH]; intros m evs j Hj; [done|].
  cbn [foldl] in Hj.
  rewrite (surjective_pairing (Live.serviceOne name s (m, evs) k)) in Hj.
  apply IH in Hj. by apply serviceOne_dom in Hj.
Qed.

(** Ids are handed out fresh. On a feeder whose ids in use are positive and
    at most the last one handed out (as on a new feeder, and after every
    call), and below the largest [int]: [RegisterLiveFeeder] returns the next
    id, which is in use by no subscriber, adds the subscriber under it and
    touches no other; taking the subscriber out again under that id calls its
    [Close] once, hands on its error, and leaves the subscribers as they were
    before it was added. *)
Theorem Register_gives_a_fresh_id (lf : Live.LiveFeeder C) (lc : C) :
  idsInUse lf ->
  Live.liveIds lf < 2 ^ 63 - 1 ->
  let r := Live.RegisterLiveFeeder lf lc in
  r.2 = (Live.liveIds lf + 1, None)
  /\ Live.liveConsumers lf !! r.2.1 = None
  /\ Live.liveConsumers r.1 !! r.2.1 = Some lc
  /\ (forall k, k <> r.2.1 ->
      Live.liveConsumers r.1 !! k = Live.liveConsumers lf !! k)
  /\ idsInUse r.1
  /\ Live.DeregisterLiveFeeder r.1 r.2.1
     = (Live.mkLiveFeeder (Live.liveIds lf + 1) (Live.liveConsumers lf),
        [Live.EvClose r.2.1 (Live.Close lc).2], (Live.Close lc).2)
  /\ idsInUse (Live.NewLiveFeeder (C := C))
  /\ (forall id, idsInUse (Live.DeregisterLiveFeeder lf id).1.1)
  /\ (forall order name s,
        idsInUse (Live.ServiceLiveFeeders order lf name s).1.1).
Proof.
  intros [Hpos Hin] Hmax. unfold Live.RegisterLiveFeeder. cbv zeta.
  cbn [fst snd Live.liveConsumers Live.liveIds].
  rewrite i64_small by (unfold is_i64; lia).
  assert (Hfresh : Live.liveConsumers lf !! (Live.liveIds lf + 1) = None).
  { destruct (Live.liveConsumers lf !! (Live.liveIds lf + 1)) eqn:E; [|done].
    destruct (Hin (Live.liveIds lf + 1)); [eauto|lia]. }
  split; [done|]. split; [done|]. split; [apply lookup_insert_eq|].
  split; [intros k Hk; by apply lookup_insert_ne|]. split; [|split; [|split; [|split]]].
  - split; cbn [Live.liveIds Live.liveConsumers]; [lia|]. intros k Hk.
    destruct (decide (k = Live.liveIds lf + 1)) as [->|Hne]; [lia|].
    rewrite lookup_insert_ne in Hk by done. apply Hin in Hk. lia.
  - unfold Live.DeregisterLiveFeeder. cbn [Live.liveConsumers Live.liveIds].
    rewrite lookup_insert_eq. by rewrite delete_insert_eq, delete_id.
  - split; cbn [Live.NewLiveFeeder Live.liveIds Live.liveConsumers]; [done|].
    intros k Hk. rewrite lookup_empty in Hk. by destruct Hk.
  - intros id. unfold Live.DeregisterLiveFeeder.
    destruct (Live.liveConsumers lf !! id) eqn:E; cbn [fst]; [|by split].
    split; cbn [Live.liveIds Live.liveConsumers]; [done|]. intros k Hk.
    apply Hin. destruct (decide (k = id)) as [->|Hne].
    + rewrite lookup_delete_eq in Hk. by destruct Hk.
    + by rewrite lookup_delete_ne in Hk.
  - intros order name s. unfold Live.ServiceLiveFeeders.
    pose proof (service_fold_dom name s order (Live.liveConsumers lf) []) as Hd.
    destruct (foldl _ _ _) as [m evs]. cbn [fst snd] in *.
    split; cbn [Live.liveIds Live.liveConsumers]; [done|]. intros k Hk.
    apply Hin. by apply Hd.
Qed.

End FeederIds.

Lemma Register_gives_a_fresh_id_witness :
  let lf := Live.mkLiveFeeder 2 (<[1 := 0%nat]> (<[2 := 5%nat]> ∅)) in
  (Live.RegisterLiveFeeder lf 7%nat).2 = (3, None)
  /\ Live.liveConsumers lf !! 3 = None.
Proof.
  intros lf.
  destruct (Register_gives_a_fresh_id lf 7%nat) as (H1 & H2 & _).
  - split; [done|]. intros k [v Hv]. cbn [Live.liveConsumers Live.liveIds lf] in *.
    destruct (decide (k = 1)) as [->|H1]; [lia|].
    rewrite lookup_insert_ne in Hv by done.
    destruct (decide (k = 2)) as [->|H2]; [lia|].
    rewrite lookup_insert_ne in Hv by done. by rewrite lookup_empty in Hv.
  - cbn. lia.
  - split; [exact H1|]. rewrite H1 in H2. exact H2.
Defined.

(** ** The websocket subscriber *)

Lemma wsStep_open (wsf : WS.liveWSFeeder) (st : WsStep) :
  wsOpen wsf -> wsOpen (wsStep wsf st).
Proof.
  intros (Hc & Hp & Hb). destruct st as [name s|]; cbn [wsStep].
  - unfold WS.Write. rewrite Hc.
    destruct (length (WS.ch wsf) <? WS.chanBufferSize)%nat eqn:E;
      [|exact (conj Hc (conj Hp Hb))].
    apply Nat.ltb_lt in E. cbn [fst]. split; [done|]. split; [done|].
    cbn [WS.ch]. rewrite length_app. cbn [length]. lia.
  - unfold wsRecv. destruct (WS.ch wsf) as [|x rest] eqn:E; cbn [snd].
    + split; [done|]. split; [done|]. rewrite E. cbn [length]. lia.
    + split; [done|]. split; [done|]. cbn [WS.ch]. cbn [length] in Hb. lia.
Qed.

Lemma ws_service_fold (name : string) (s : BWSample) (order : list Z) :
  forall (m : gmap Z WS.liveWSFeeder) (evs : list Live.Event),
    (forall k v, m !! k = Some v -> wsOpen v) ->
    let r := foldl (Live.serviceOne name s) (m, evs) order in
    (forall k, is_Some (r.1 !! k) <-> is_Some (m !! k))
    /\ (forall k v, r.1 !! k = Some v -> wsOpen v)
    /\ (forall k e, Live.EvClose k e ∈ r.2 -> Live.EvClose k e ∈ evs)
    /\ (forall k e, Live.EvWrite k e ∈ r.2 ->
          e = None \/ Live.EvWrite k e ∈ evs).
Proof.
  induction order as [|k0 order IH]; intros m evs Hopen; cbv zeta.
  - cbn [foldl fst snd]. split; [done|]. split; [done|]. split; [done|].
    intros k e He. by right.
  - cbn [foldl].
    assert (Hone : (forall k, is_Some ((Live.serviceOne name s (m, evs) k0).1 !! k)
                              <-> is_Some (m !! k))
                   /\ (forall k v, (Live.serviceOne name s (m, evs) k0).1 !! k
                                   = Some v -> wsOpen v)
                   /\ ((Live.serviceOne name s (m, evs) k0).2 = evs
                       \/ (Live.serviceOne name s (m, evs) k0).2
                          = evs ++ [Live.EvWrite k0 None])).
    { unfold Live.serviceOne. cbn [fst snd].
      destruct (m !! k0) as [v|] eqn:Hk; [|by split; [|split; [|left]]].
      change (Live.Write v name s) with (WS.Write v name s).
      pose proof (wsStep_open v (WsWrite name s) (Hopen k0 v Hk)) as Hv.
      cbn [wsStep] in Hv.
      assert (Hw : (WS.Write v name s).2 = None).
      { unfold WS.Write. destruct (WS.closed v); [done|].
        by destruct (_ <? _)%nat. }
      destruct (WS.Write v name s) as [v' e]. cbn [fst snd] in Hw, Hv. subst e.
      cbn [fst snd]. split; [|split; [|by right]].
      - intros k. destruct (decide (k = k0)) as [->|Hne].
        + rewrite lookup_insert_eq, Hk. split; eauto.
        + by rewrite lookup_insert_ne.
      - intros k v0. destruct (decide (k = k0)) as [->|Hne].
        + rewrite lookup_insert_eq. by intros [= <-].
        + rewrite lookup_insert_ne by done. apply Hopen. }
    destruct Hone as (Hdom1 & Hopen1 & Hev1).
    specialize (IH (Live.serviceOne name s (m, evs) k0).1
                   (Live.serviceOne name s (m, evs) k0).2 Hopen1).
    rewrite <- surjective_pairing in IH. cbv zeta in IH.
    destruct IH as (Hdom & Hopen2 & Hclose & Hwrite).
    split; [|split; [exact Hopen2|split]].
    + intros k. by rewrite Hdom, Hdom1.
    + intros k e He. apply Hclose in He.
      destruct Hev1 as [Hev|Hev]; rewrite Hev in He; [done|].
      apply elem_of_app in He as [He|He]; [done|].
      apply list_elem_of_singleton in He. discriminate He.
    + intros k e He. apply Hwrite in He as [He|He]; [by left|].
      destruct Hev1 as [Hev|Hev]; rewrite Hev in He; [by right|].
      apply elem_of_app in He as [He|He]; [by right|].
      apply list_elem_of_singleton in He. injection He as _ ->. by left.
Qed.

(** [ServiceLiveFeeders] over websocket subscribers whose channels are open
    takes none out, closes none and sees no failed write, and leaves every
    channel open and within its capacity: a subscriber that does not keep up
    loses samples, not its subscription. *)
Theorem websocket_subscriber_is_never_dropped
    (lf : Live.LiveFeeder WS.liveWSFeeder) (order : list Z) (name : string)
    (s : BWSample) :
  (forall k v, Live.liveConsumers lf !! k = Some v -> wsOpen v) ->
  let r := Live.ServiceLiveFeeders order lf name s in
  (forall k, is_Some (Live.liveConsumers r.1.1 !! k)
             <-> is_Some (Live.liveConsumers lf !! k))
  /\ (forall k v, Live.liveConsumers r.1.1 !! k = Some v -> wsOpen v)
  /\ (forall k e, Live.EvClose k e ∉ r.1.2)
  /\ (forall k e, Live.EvWrite k e ∈ r.1.2 -> e = None).
Proof.
  intros Hopen. cbv zeta. unfold Live.ServiceLiveFeeders.
  pose proof (ws_service_fold name s order (Live.liveConsumers lf) [] Hopen) as Hf.
  cbv zeta in Hf. destruct (foldl _ _ order) as [m evs].
  cbn [fst snd Live.liveConsumers] in *.
  destruct Hf as (Hdom & Hopen' & Hclose & Hwrite).
  split; [exact Hdom|]. split; [exact Hopen'|]. split.
  - intros k e He. apply Hclose in He. by apply elem_of_nil in He.
  - intros k e He. apply Hwrite in He as [He|He]; [done|].
    by apply elem_of_nil in He.
Qed.

Lemma websocket_subscriber_is_never_dropped_witness :
  let full := WS.mkFeeder (replicate 8 (WS.mkNamed "eth0" NewBwSample)) false false in
  let lf := Live.mkLiveFeeder 2 (<[1 := full]> (<[2 := WS.newFeeder]> ∅)) in
  let r := Live.ServiceLiveFeeders [1; 2] lf "eth0" NewBwSample in
  is_Some (Live.liveConsumers r.1.1 !! 1) /\ forall k e, Live.EvClose k e ∉ r.1.2.
Proof.
  intros full lf r.
  destruct (websocket_subscriber_is_never_dropped lf [1; 2] "eth0" NewBwSample)
    as (Hdom & _ & Hclose & _).
  - intros k v Hv. cbn [Live.liveConsumers lf] in Hv.
    destruct (decide (k = 1)) as [->|H1].
    + rewrite lookup_insert_eq in Hv. injection Hv as <-.
      split; [done|]. split; [done|]. vm_compute. lia.
    + rewrite lookup_insert_ne in Hv by done.
      destruct (decide (k = 2)) as [->|H2].
      * rewrite lookup_insert_eq in Hv. injection Hv as <-.
        split; [done|]. split; [done|]. vm_compute. lia.
      * rewrite lookup_insert_ne in Hv by done. by rewrite lookup_empty in Hv.
  - split; [|exact Hclose]. apply Hdom. cbn [Live.liveConsumers lf].
    rewrite lookup_insert_eq. by eexists.
Defined.


(** ** Stored values keep their size *)

Lemma wellSized_insert (st : Store) (b : string) (m : Bucket) :
  wellSized st ->
  (forall k v, m !! k = Some v -> length v = bwSampleSize) ->
  wellSized (<[b := m]> st).
Proof.
  intros Hst Hm b' k v. destruct (decide (b' = b)) as [->|Hne].
  - rewrite bucketOf_insert. apply Hm.
  - rewrite bucketOf_insert_ne by done. apply Hst.
Qed.

Lemma merged_sized (old : option (list byte)) (s : BWSample) (v : list byte) :
  merged old s = inr v -> length v = bwSampleSize.
Proof.
  unfold merged. destruct old as [v0|].
  - destruct (Sample.Decode newVar v0); [done|]. intros [= <-]. apply length_Encode.
  - intros [= <-]. apply length_Encode.
Qed.

Section Sized.

Variable fault : StoreOp -> bool.

Lemma keeps_bind {A B : Type} (m : Tx A) (k : A -> Tx B) :
  keepsSized m -> (forall a, keepsSized (k a)) -> keepsSized (tx_bind m k).
Proof.
  intros Hm Hk st b st' Hrun Hst.
  apply tx_bind_inr in Hrun as (a & st1 & H1 & H2).
  eapply Hk; [exact H2|]. eapply Hm; [exact H1|exact Hst].
Qed.

Lemma keeps_ret {A : Type} (a : A) : keepsSized (tx_ret a).
Proof. by intros st a' st' [= _ <-]. Qed.

Lemma keeps_create (b : string) :
  keepsSized (bolt.CreateBucketIfNotExists fault b).
Proof.
  intros st u st' Hrun Hst b' k v. apply create_inr in Hrun as (_ & Hb & _).
  rewrite Hb. apply Hst.
Qed.

Lemma keeps_delete (b k : string) : keepsSized (bolt.Delete fault b k).
Proof.
  intros st u st' Hrun Hst. rewrite Delete_eq in Hrun.
  destruct (fault _); [done|]. injection Hrun as _ <-.
  apply wellSized_insert; [done|]. intros k' v Hv.
  apply lookup_delete_Some in Hv as [_ Hv]. by apply (Hst b k').
Qed.

Lemma keeps_updateVal (b k : string) (s : BWSample) :
  keepsSized (Bwdb.updateVal fault b k s).
Proof.
  intros st u st' Hrun Hst. apply updateVal_inr in Hrun as (v & M & ->).
  apply wellSized_insert; [done|]. intros k' v' Hv.
  destruct (decide (k' = k)) as [->|Hne].
  - rewrite lookup_insert_eq in Hv. injection Hv as <-. by apply merged_sized in M.
  - rewrite lookup_insert_ne in Hv by done. by apply (Hst b k').
Qed.

Lemma keeps_forEachList {A : Type} (fn : A -> string -> list byte -> Tx A)
    (l : list (string * list byte)) :
  (forall a k v, keepsSized (fn a k v)) ->
  forall a, keepsSized (bolt.forEachList fn l a).
Proof.
  intros Hfn. induction l as [|[k v] l IH]; intros a; cbn [bolt.forEachList].
  - apply keeps_ret.
  - apply keeps_bind; [apply Hfn|exact IH].
Qed.

Lemma keeps_ForEach {A : Type} (b : string)
    (fn : A -> string -> list byte -> Tx A) (a : A) :
  (forall a k v, keepsSized (fn a k v)) -> keepsSized (bolt.ForEach b fn a).
Proof.
  intros Hfn st a' st' Hrun. unfold bolt.ForEach in Hrun.
  exact (keeps_forEachList fn (entries (bucketOf st b)) Hfn a st a' st' Hrun).
Qed.

Lemma keeps_sumAndShift (P D K : string) :
  keepsSized (Bwdb.sumAndShift fault P D K).
Proof.
  unfold Bwdb.sumAndShift. apply keeps_bind; [|intros a; apply keeps_updateVal].
  apply keeps_ForEach. intros a k v.
  destruct (Sample.Decode newVar v); [done|]. cbn [Sample.Add]. cbv zeta.
  apply keeps_bind; [apply keeps_delete|intros; apply keeps_ret].
Qed.

Lemma keeps_shiftEntry (src dst : string) (tcheck : Time) (keyFmt : Layout)
    (a : BWSample) (k : string) (v : list byte) :
  keepsSized (Bwdb.shiftEntry fault src dst tcheck keyFmt a k v).
Proof.
  unfold Bwdb.shiftEntry. destruct (Sample.Decode a v); [done|].
  destruct (Before _ _); [|apply keeps_ret].
  apply keeps_bind; [apply keeps_delete|intros _].
  apply keeps_bind; [apply keeps_updateVal|intros; apply keeps_ret].
Qed.

Lemma keeps_if {A : Type} (c : bool) (m m' : Tx A) :
  keepsSized m -> keepsSized m' -> keepsSized (if c then m else m').
Proof. by destruct c. Qed.

Lemma keeps_addBatch (t : Time) (s : BWSample) :
  keepsSized (Bwdb.addBatch fault t s).
Proof.
  unfold Bwdb.addBatch. cbv zeta.
  do 4 (apply keeps_bind; [apply keeps_create|intros _]).
  do 3 (apply keeps_bind;
        [apply keeps_if; [apply keeps_sumAndShift|apply keeps_ret]|intros _]).
  do 3 (apply keeps_bind; [apply keeps_updateVal|intros _]).
  apply keeps_updateVal.
Qed.

Lemma keeps_Batch (fn : Tx unit) (st : Store) :
  keepsSized fn -> wellSized st -> wellSized (bolt.Batch fault fn st).1.
Proof.
  intros Hfn Hst. destruct (Batch_cases fault fn st) as [[e ->]|(st' & Hrun & ->)];
    [done|]. by apply (Hfn st tt st').
Qed.

Lemma keeps_shiftIfOlder (src dst : string) (tcheck : Time) (keyFmt : Layout)
    (st : Store) :
  wellSized st -> wellSized (Bwdb.shiftIfOlder fault src dst tcheck keyFmt st).1.
Proof.
  intros Hst. unfold Bwdb.shiftIfOlder. apply keeps_Batch; [|done].
  apply keeps_bind; [apply keeps_create|intros _].
  apply keeps_bind; [apply keeps_create|intros _].
  apply keeps_bind; [|intros; apply keeps_ret].
  apply keeps_ForEach. intros. apply keeps_shiftEntry.
Qed.

Lemma keeps_purge_fold (names : list string) :
  keepsSized
    (foldr
       (fun name (rest : Tx unit) =>
          bolt.ForEach name (fun _ k _ => bolt.Delete fault name k) tt ;;; rest)
       (tx_ret tt) names).
Proof.
  induction names as [|name names IH]; cbn [foldr]; [apply keeps_ret|].
  apply keeps_bind; [|by intros _].
  apply keeps_ForEach. intros. apply keeps_delete.
Qed.

Lemma call_sized (d : Bwdb.bwdb) (c : Call) :
  wellSized (Bwdb.db d) -> wellSized (Bwdb.db (call fault d c).1).
Proof.
  intros Hst. destruct c as [s|s|ts| |e]; cbn [call].
  - unfold Bwdb.Add. destruct (negb (Bwdb.open d)); [done|].
    destruct (negb (Sample.After s (Bwdb.last d))).
    + unfold Bwdb.addOutOfOrder. destruct (negb (Bwdb.open d)); [done|].
      match goal with
      | |- context [bolt.Batch fault ?fn ?st] =>
          assert (Hk : keepsSized fn);
          [|pose proof (keeps_Batch fn st Hk Hst) as Hb;
            by destruct (bolt.Batch fault fn st)]
      end.
      repeat apply keeps_if;
        (apply keeps_bind; [apply keeps_create|intros _; apply keeps_updateVal]).
    + cbv zeta.
      match goal with
      | |- context [bolt.Batch fault ?fn ?st] =>
          pose proof (keeps_Batch fn st ltac:(apply keeps_addBatch)) as Hb;
          destruct (bolt.Batch fault fn st) as [st' [e|]]
      end.
      * by destruct (TimeEq _ _).
      * cbn [fst Bwdb.set_db Bwdb.set_last Bwdb.db] in *. apply Hb.
        by destruct (TimeEq _ _).
  - unfold Bwdb.AddRand, Bwdb.addOutOfOrder.
    destruct (negb (Bwdb.open d)); [done|].
    match goal with
    | |- context [bolt.Batch fault ?fn ?st] =>
        assert (Hk : keepsSized fn);
        [|pose proof (keeps_Batch fn st Hk Hst) as Hb;
          by destruct (bolt.Batch fault fn st)]
    end.
    repeat apply keeps_if;
      (apply keeps_bind; [apply keeps_create|intros _; apply keeps_updateVal]).
  - unfold Bwdb.Rebase. destruct (negb (Bwdb.open d)); [done|].
    pose proof (keeps_shiftIfOlder bktMin bktHour (Bwdb.prevHour ts) hourFmt
                  _ Hst) as H1.
    destruct (Bwdb.shiftIfOlder _ _ _ _ _ _) as [st1 [e1|]]; [done|].
    cbn [fst] in H1.
    pose proof (keeps_shiftIfOlder bktHour bktDay (Bwdb.prevDay ts) dayFmt
                  _ H1) as H2.
    destruct (Bwdb.shiftIfOlder _ _ _ _ _ st1) as [st2 [e2|]]; [done|].
    cbn [fst] in H2.
    pose proof (keeps_shiftIfOlder bktDay bktMon (Bwdb.prevMon ts) monFmt
                  _ H2) as H3.
    by destruct (Bwdb.shiftIfOlder _ _ _ _ _ st2) as [st3 [e3|]].
  - unfold Bwdb.purge. destruct (negb (Bwdb.open d)); [done|].
    cbn [Bwdb.set_last Bwdb.set_hist Bwdb.db].
    match goal with
    | |- context [bolt.Batch fault ?fn ?st] =>
        assert (Hk : keepsSized fn);
        [|pose proof (keeps_Batch fn st Hk Hst) as Hb;
          by destruct (bolt.Batch fault fn st)]
    end.
    intros st a st' Hrun. by apply (keeps_purge_fold (bucketNames st) st a st').
  - unfold Bwdb.Close. destruct (negb (Bwdb.open d)); [done|]. by destruct e.
Qed.

End Sized.

Section RunsSized.

Variable fault : StoreOp -> bool.
Hypothesis no_fault : forall op, fault op = false.

Lemma runs_of {A : Type} (m : Tx A) :
  keepsSized m ->
  (forall st, wellSized st -> exists a st', m st = inr (a, st')) ->
  runsSized m.
Proof.
  intros Hk Hr st Hst. destruct (Hr st Hst) as (a & st' & Hrun).
  exists a, st'. split; [done|]. by apply (Hk st a st').
Qed.

Lemma runs_bind {A B : Type} (m : Tx A) (k : A -> Tx B) :
  runsSized m -> (forall a, runsSized (k a)) -> runsSized (tx_bind m k).
Proof.
  intros Hm Hk st Hst. destruct (Hm st Hst) as (a & st1 & H1 & Hst1).
  destruct (Hk a st1 Hst1) as (b & st' & H2 & Hst').
  exists b, st'. split; [|done]. unfold tx_bind. by rewrite H1.
Qed.

Lemma runs_ret {A : Type} (a : A) : runsSized (tx_ret a).
Proof. intros st Hst. by exists a, st. Qed.

Lemma runs_create (b : string) :
  runsSized (bolt.CreateBucketIfNotExists fault b).
Proof.
  apply runs_of; [apply keeps_create|]. intros st _.
  rewrite CreateBucketIfNotExists_eq, no_fault. eauto.
Qed.

Lemma runs_delete (b k : string) : runsSized (bolt.Delete fault b k).
Proof.
  apply runs_of; [apply keeps_delete|]. intros st _.
  rewrite Delete_eq, no_fault. eauto.
Qed.

Lemma runs_updateVal (b k : string) (s : BWSample) :
  runsSized (Bwdb.updateVal fault b k s).
Proof.
  apply runs_of; [apply keeps_updateVal|]. intros st Hst.
  rewrite updateVal_eq, no_fault. unfold merged.
  destruct (bucketOf st b !! k) as [v0|] eqn:E; [|eauto].
  destruct (Decode_length newVar v0 (Hst b k v0 E)) as [s0 ->]. eauto.
Qed.

Lemma runs_forEachList {A : Type} (fn : A -> string -> list byte -> Tx A)
    (l : list (string * list byte)) :
  (forall a k v, length v = bwSampleSize -> runsSized (fn a k v)) ->
  (forall k v, (k, v) ∈ l -> length v = bwSampleSize) ->
  forall a, runsSized (bolt.forEachList fn l a).
Proof.
  intros Hfn. induction l as [|[k v] l IH]; intros Hl a; cbn [bolt.forEachList].
  - apply runs_ret.
  - apply runs_bind.
    + apply Hfn. apply (Hl k). by apply elem_of_cons; left.
    + apply IH. intros k' v' Hin. apply (Hl k'). by apply elem_of_cons; right.
Qed.

Lemma runs_ForEach {A : Type} (b : string)
    (fn : A -> string -> list byte -> Tx A) (a : A) :
  (forall a k v, length v = bwSampleSize -> runsSized (fn a k v)) ->
  runsSized (bolt.ForEach b fn a).
Proof.
  intros Hfn st Hst. unfold bolt.ForEach.
  apply (runs_forEachList fn (entries (bucketOf st b)) Hfn); [|done].
  intros k v Hin. apply elem_of_entries in Hin. by apply (Hst b k).
Qed.

Lemma runs_sumAndShift (P D K : string) :
  runsSized (Bwdb.sumAndShift fault P D K).
Proof.
  unfold Bwdb.sumAndShift. apply runs_bind; [|intros a; apply runs_updateVal].
  apply runs_ForEach. intros a k v Hv.
  destruct (Decode_length newVar v Hv) as [sx ->]. cbn [Sample.Add]. cbv zeta.
  apply runs_bind; [apply runs_delete|intros; apply runs_ret].
Qed.

Lemma runs_shiftEntry (src dst : string) (tcheck : Time) (keyFmt : Layout)
    (a : BWSample) (k : string) (v : list byte) :
  length v = bwSampleSize ->
  runsSized (Bwdb.shiftEntry fault src dst tcheck keyFmt a k v).
Proof.
  intros Hv. unfold Bwdb.shiftEntry.
  destruct (Decode_length a v Hv) as [s ->].
  destruct (Before _ _); [|apply runs_ret].
  apply runs_bind; [apply runs_delete|intros _].
  apply runs_bind; [apply runs_updateVal|intros; apply runs_ret].
Qed.

Lemma runs_if {A : Type} (c : bool) (m m' : Tx A) :
  runsSized m -> runsSized m' -> runsSized (if c then m else m').
Proof. by destruct c. Qed.

Lemma runs_addBatch (t : Time) (s : BWSample) :
  runsSized (Bwdb.addBatch fault t s).
Proof.
  unfold Bwdb.addBatch. cbv zeta.
  do 4 (apply runs_bind; [apply runs_create|intros _]).
  do 3 (apply runs_bind;
        [apply runs_if; [apply runs_sumAndShift|apply runs_ret]|intros _]).
  do 3 (apply runs_bind; [apply runs_updateVal|intros _]).
  apply runs_updateVal.
Qed.

Lemma runs_Batch (fn : Tx unit) (st : Store) :
  runsSized fn -> wellSized st -> (bolt.Batch fault fn st).2 = None.
Proof.
  intros Hfn Hst. destruct (Hfn st Hst) as ([] & st' & Hrun & _).
  unfold bolt.Batch. by rewrite Hrun, no_fault.
Qed.

Lemma runs_shiftIfOlder (src dst : string) (tcheck : Time) (keyFmt : Layout)
    (st : Store) :
  wellSized st -> (Bwdb.shiftIfOlder fault src dst tcheck keyFmt st).2 = None.
Proof.
  intros Hst. unfold Bwdb.shiftIfOlder. apply runs_Batch; [|done].
  apply runs_bind; [apply runs_create|intros _].
  apply runs_bind; [apply runs_create|intros _].
  apply runs_bind; [|intros; apply runs_ret].
  apply runs_ForEach. intros. by apply runs_shiftEntry.
Qed.

Lemma runs_addOutOfOrder (d : Bwdb.bwdb) (s : BWSample) :
  Bwdb.open d = true -> wellSized (Bwdb.db d) ->
  (Bwdb.addOutOfOrder fault d s).2 = None.
Proof.
  intros Hopen Hst. unfold Bwdb.addOutOfOrder. rewrite Hopen. cbn [negb].
  match goal with
  | |- context [bolt.Batch fault ?fn ?st] =>
      assert (Hk : runsSized fn);
      [|pose proof (runs_Batch fn st Hk Hst) as Hb;
        by destruct (bolt.Batch fault fn st)]
  end.
  repeat apply runs_if;
    (apply runs_bind; [apply runs_create|intros _; apply runs_updateVal]).
Qed.

Lemma call_runs (d : Bwdb.bwdb) (c : Call) :
  Bwdb.open d = true -> wellSized (Bwdb.db d) ->
  (forall e, c <> CallClose (Some e)) ->
  (call fault d c).2 = None.
Proof.
  intros Hopen Hst Hc. destruct c as [s|s|ts| |e]; cbn [call].
  - unfold Bwdb.Add. rewrite Hopen. cbn [negb].
    destruct (negb (Sample.After s (Bwdb.last d)));
      [by apply runs_addOutOfOrder|].
    cbv zeta.
    match goal with
    | |- context [bolt.Batch fault ?fn ?st] =>
        pose proof (runs_Batch fn st ltac:(apply runs_addBatch)) as Hb;
        destruct (bolt.Batch fault fn st) as [st' [e|]]; [|done]
    end.
    cbn [snd] in Hb. exfalso. assert (Some e = None); [|done]. apply Hb.
    by destruct (TimeEq _ _).
  - by apply runs_addOutOfOrder.
  - unfold Bwdb.Rebase. rewrite Hopen. cbn [negb].
    pose proof (runs_shiftIfOlder bktMin bktHour (Bwdb.prevHour ts) hourFmt
                  _ Hst) as R1.
    pose proof (keeps_shiftIfOlder fault bktMin bktHour (Bwdb.prevHour ts)
                  hourFmt _ Hst) as H1.
    destruct (Bwdb.shiftIfOlder _ _ _ _ _ _) as [st1 [e1|]]; [done|].
    cbn [fst] in H1.
    pose proof (runs_shiftIfOlder bktHour bktDay (Bwdb.prevDay ts) dayFmt
                  _ H1) as R2.
    pose proof (keeps_shiftIfOlder fault bktHour bktDay (Bwdb.prevDay ts)
                  dayFmt _ H1) as H2.
    destruct (Bwdb.shiftIfOlder _ _ _ _ _ st1) as [st2 [e2|]]; [done|].
    cbn [fst] in H2.
    pose proof (runs_shiftIfOlder bktDay bktMon (Bwdb.prevMon ts) monFmt
                  _ H2) as R3.
    by destruct (Bwdb.shiftIfOlder _ _ _ _ _ st2) as [st3 [e3|]].
  - unfold Bwdb.purge. rewrite Hopen. cbn [negb].
    cbn [Bwdb.set_last Bwdb.set_hist Bwdb.db].
    match goal with
    | |- context [bolt.Batch fault ?fn ?st] =>
        destruct (purge_fold_total fault (bucketNames st) no_fault st)
          as [st' Hrun];
        unfold bolt.Batch
    end.
    by rewrite Hrun, no_fault.
  - unfold Bwdb.Close. rewrite Hopen. cbn [negb].
    destruct e as [e|]; [by destruct (Hc e)|done].
Qed.

End RunsSized.

Lemma calls_sized (fault : StoreOp -> bool) (cs : list Call) :
  forall d, wellSized (Bwdb.db d) -> wellSized (Bwdb.db (calls fault d cs)).
Proof.
  unfold calls. induction cs as [|c cs IH]; intros d Hst; [done|].
  cbn [foldl]. apply IH. by apply call_sized.
Qed.

(** The size of the stored values is an invariant of the engine: on a store
    whose values all have the size of an encoded sample (as an empty store),
    every call leaves such a store, whatever the store fails; while the store
    fails no call, [Add], [AddRand], [Rebase] and [purge] on the open engine
    return no error, and so does [Close] when the store closes; and a bucket
    that exists reads back, one sample for each key. *)
Theorem well_sized_store_never_fails (fault : StoreOp -> bool)
    (d : Bwdb.bwdb) (cs : list Call) (c : Call) (b : string) :
  wellSized (Bwdb.db d) ->
  let d' := calls fault d cs in
  wellSized (Bwdb.db d')
  /\ ((forall op, fault op = false) -> Bwdb.open d' = true ->
      (forall e, c <> CallClose (Some e)) ->
      (call fault d' c).2 = None)
  /\ (Bwdb.open d' = true -> is_Some (Bwdb.db d' !! b) ->
      exists es, Bwdb.pullSet d' b = inr es
                 /\ length es = size (bucketOf (Bwdb.db d') b)).
Proof.
  intros Hst d'. assert (Hst' : wellSized (Bwdb.db d')) by (by apply calls_sized).
  split; [done|]. split.
  - intros Hf Hopen Hc. by apply call_runs.
  - intros Hopen [m Hm]. unfold Bwdb.pullSet. rewrite Hopen, Hm. cbn [negb].
    unfold bolt.ForEach.
    assert (Hb : bucketOf (Bwdb.db d') b = m) by (unfold bucketOf; by rewrite Hm).
    rewrite Hb.
    pose proof (pull_walk (entries m) [] (Bwdb.db d')) as Hw.
    destruct (bolt.forEachList _ (entries m) [] (Bwdb.db d')) as [err|[r st']].
    + destruct Hw as (_ & k & v & Hin & Hlen). exfalso. apply Hlen.
      apply elem_of_entries in Hin. apply (Hst' b k). by rewrite Hb.
    + destruct Hw as (_ & es & Hes & ->). exists es. split; [done|].
      unfold decodesTo in Hes. rewrite <- (Forall2_length _ _ _ Hes).
      rewrite (Permutation_length (entries_perm m)). apply length_map_to_list.
Qed.

Lemma well_sized_store_never_fails_witness :
  let d := Bwdb.mkBwdb true ∅ [] 20 zeroTime in
  let s1 := mkBWSample (Date 2016 1 1 1 0) 1 1 in
  let s2 := mkBWSample (Date 2016 1 1 2 0) 2 2 in
  (call noFault (calls noFault d [CallAdd s1; CallRebase (Ts s2)]) (CallAdd s2)).2
  = None.
Proof.
  intros d s1 s2.
  destruct (well_sized_store_never_fails noFault d
              [CallAdd s1; CallRebase (Ts s2)] (CallAdd s2) bktMin)
    as (_ & Hrun & _).
  - intros b k v Hv. unfold bucketOf in Hv. cbn [Bwdb.db d] in Hv.
    rewrite lookup_empty in Hv. cbn [default from_option] in Hv.
    by rewrite lookup_empty in Hv.
  - apply Hrun; [done| |done]. by vm_compute.
Defined.

(** ** The sampler: what the deltas add up to *)

(** Over a run of [GetStats] calls that each read both counters, none of
    the readings 0, on a sampler that has read before: the bytes reported
    add up, modulo 2^64, to the advance of each counter from the reading the
    sampler held to the last reading of the run, which is the one it holds
    afterwards. *)
Theorem deltas_add_up (iface : Ifmon.Iface)
    (steps : list (Ifmon.World * (Z * Z))) :
  0 < Ifmon.lastSend iface -> 0 < Ifmon.lastRecv iface ->
  readsAll iface steps ->
  let r := getStatsAll iface steps.*1 in
  u64 (sumZ r.2.*1) = u64 (Ifmon.lastSend r.1 - Ifmon.lastSend iface)
  /\ u64 (sumZ r.2.*2) = u64 (Ifmon.lastRecv r.1 - Ifmon.lastRecv iface)
  /\ Ifmon.lastSend r.1 = default (Ifmon.lastSend iface) (last steps.*2.*2)
  /\ Ifmon.lastRecv r.1 = default (Ifmon.lastRecv iface) (last steps.*2.*1).
Proof.
  revert iface.
  induction steps as [|[w [rx tx]] steps IH]; intros iface Hs Hr Hall; cbv zeta.
  - cbn. rewrite !Z.sub_diag. done.
  - cbn [readsAll] in Hall. destruct Hall as (Hread & Hrx & Htx & Hall).
    pose proof (GetStats_reads w iface rx tx Hread) as (Hres & Hls & Hlr).
    cbv zeta in Hres, Hls, Hlr.
    replace (Ifmon.lastSend iface =? 0) with false in Hres
      by (symmetry; apply Z.eqb_neq; lia).
    replace (Ifmon.lastRecv iface =? 0) with false in Hres
      by (symmetry; apply Z.eqb_neq; lia).
    rewrite !fmap_cons. cbn [fst snd getStatsAll]. rewrite !fmap_cons.
    specialize (IH (Ifmon.GetStats w iface).1).
    rewrite Hls, Hlr in IH. specialize (IH Htx Hrx Hall). cbv zeta in IH.
    destruct IH as (IHs & IHr & IHls & IHlr).
    rewrite Hres. cbn [fst snd sumZ foldr].
    fold (sumZ (getStatsAll (Ifmon.GetStats w iface).1 steps.*1).2.*1).
    fold (sumZ (getStatsAll (Ifmon.GetStats w iface).1 steps.*1).2.*2).
    split; [|split; [|split]].
    + apply u64_diff in IHs as [k1 IHs]. rewrite IHs.
      destruct (u64_diff (u64 (tx - Ifmon.lastSend iface)) (tx - Ifmon.lastSend iface))
        as [k2 Hk2]; [apply u64_small, u64_range|]. rewrite Hk2.
      apply (u64_of_diff _ _ (k1 + k2)). lia.
    + apply u64_diff in IHr as [k1 IHr]. rewrite IHr.
      destruct (u64_diff (u64 (rx - Ifmon.lastRecv iface)) (rx - Ifmon.lastRecv iface))
        as [k2 Hk2]; [apply u64_small, u64_range|]. rewrite Hk2.
      apply (u64_of_diff _ _ (k1 + k2)). lia.
    + rewrite IHls, last_cons. by destruct (last steps.*2.*2).
    + rewrite IHlr, last_cons. by destruct (last steps.*2.*1).
Qed.

Lemma deltas_add_up_witness :
  let w1 := Ifmon.mkWorld (fun _ => None) (fun _ => inr 0)
              (fun f => if f =? 3
                        then inr [Byte.x35; Byte.x35; Byte.x0a]
                        else inr [Byte.x31; Byte.x31; Byte.x30; Byte.x0a])
              (fun _ => None) in
  let w2 := Ifmon.mkWorld (fun _ => None) (fun _ => inr 0)
              (fun f => if f =? 3
                        then inr [Byte.x36; Byte.x30; Byte.x0a]
                        else inr [Byte.x32; Byte.x30; Byte.x30; Byte.x0a])
              (fun _ => None) in
  let iface := Ifmon.mkIface "eth0" "" (Some 4) (Some 3) 100 50 true in
  let r := getStatsAll iface [w1; w2] in
  r.2 = [(10, 5); (90, 5)]
  /\ u64 (sumZ r.2.*1) = u64 (200 - 100)
  /\ u64 (sumZ r.2.*2) = u64 (60 - 50).
Proof.
  intros w1 w2 iface r.
  destruct (deltas_add_up iface [(w1, (55, 110)); (w2, (60, 200))])
    as (Hs & Hr & Hls & Hlr).
  - cbn. lia.
  - cbn. lia.
  - cbn [readsAll]. split; [|split; [lia|split; [lia|]]].
    + exists iface. by vm_compute.
    + split; [|split; [lia|split; [lia|done]]].
      eexists. by vm_compute.
  - cbv zeta in Hs, Hr, Hls, Hlr. cbn [fmap list_fmap fst snd] in Hs, Hr, Hls, Hlr.
    fold r in Hs, Hr, Hls, Hlr.
    split; [by vm_compute|]. split.
    + rewrite Hs, Hls. done.
    + rewrite Hr, Hlr. done.
Defined.

(** ** Rolling an hour up *)

Section Rollover.

Variable fault : StoreOp -> bool.

Variables (f : list byte -> Z) (g : BWSample -> Z).
Hypothesis f_decoded : forall v s, Sample.Decode newVar v = inr s -> f v = g s.
Hypothesis f_merged : forall old s v,
  merged old s = inr v -> u64 (f v) = u64 (default 0 (f <$> old) + g s).
Hypothesis g_accumulated : forall es,
  g (accumulated es) = u64 (foldr (fun s a => g s + a) 0 es).

(** The time whose hour, day and month the samples of the run fall in. *)
Variable t1 : Time.

Lemma keyCount_insert (st : Store) (b k : string) (s : BWSample) (m : Bucket)
    (v : list byte) (n : Z) :
  merged (bucketOf st b !! k) s = inr v ->
  u64 (keyCount f st b k) = u64 n ->
  u64 (default 0 (f <$> <[k := v]> (bucketOf st b) !! k)) = u64 (n + g s).
Proof.
  intros M Hn. rewrite lookup_insert_eq. cbn [fmap option_fmap option_map default].
  change (u64 (f v) = u64 (n + g s)). rewrite (f_merged _ _ _ M).
  fold (keyCount f st b k). by apply u64_cong_r.
Qed.

Lemma Add_same_hour (d d' : Bwdb.bwdb) (s : BWSample) (n : Z) :
  holdsHour f t1 d n ->
  Sample.After s (Bwdb.last d) = true ->
  samePeriod s t1 ->
  Bwdb.Add fault d s = (d', None) ->
  holdsHour f t1 d' (n + g s) /\ Bwdb.last d' = Ts s.
Proof.
  intros (Ho & Hl & Hmin & Hhour & Hday) Ha (Lh & Ld & Lm) Hadd.
  rewrite Add_in_order in Hadd by done. cbv zeta in Hadd.
  set (t := if TimeEq (Bwdb.last d) zeroTime then Ts s else Bwdb.last d) in *.
  assert (Ht : Sample.TimeLabel s hourFmt = Format hourFmt t
               /\ Sample.TimeLabel s dayFmt = Format dayFmt t
               /\ Sample.TimeLabel s monFmt = Format monFmt t).
  { subst t. destruct (TimeEq (Bwdb.last d) zeroTime) eqn:Et; [done|].
    destruct Hl as [Hl|(Lh' & Ld' & Lm')].
    - rewrite Hl in Et. unfold TimeEq in Et. by rewrite Z.eqb_refl in Et.
    - unfold Sample.TimeLabel in Lh', Ld', Lm'. cbn [Ts] in Lh', Ld', Lm'.
      by rewrite Lh, Ld, Lm, Lh', Ld', Lm'. }
  destruct Ht as (Th & Td & Tm).
  destruct (Batch_cases fault (Bwdb.addBatch fault t s) (Bwdb.db d))
    as [[err Hb]|(st' & Hfn & Hb)]; rewrite Hb in Hadd; cbn [fst snd] in Hadd;
    [done|]. injection Hadd as <-. cbn [Bwdb.db Bwdb.last].
  split; [|done].
  apply addBatch_inr in Hfn as (st4 & st7 & B4 & F4 & Hshift & Hup).
  rewrite Th, Td, Tm, !String.eqb_refl in Hshift. cbn [negb] in Hshift.
  injection Hshift as <-.
  apply four_updates in Hup as [Hfour _].
  destruct (Hfour bktMin minFmt) as (v1 & M1 & B1); [by apply elem_of_cons; left|].
  destruct (Hfour bktHour hourFmt) as (v2 & M2 & B2);
    [apply elem_of_cons; right; by apply elem_of_cons; left|].
  destruct (Hfour bktDay dayFmt) as (v3 & M3 & B3);
    [do 2 (apply elem_of_cons; right); by apply elem_of_cons; left|].
  rewrite B4 in M1, M2, M3, B1, B2, B3.
  unfold holdsHour. cbn [Bwdb.open Bwdb.last Bwdb.db].
  split; [done|]. split.
  { right. unfold samePeriod, Sample.TimeLabel in *. by cbn [Ts]. }
  split; [|split].
  - rewrite B1. rewrite (updateVal_total f g f_merged bktMin _ s _ v1 M1).
    by apply u64_cong_r.
  - unfold keyCount. rewrite B2. unfold Sample.TimeLabel in Lh. rewrite Lh in *.
    by apply (keyCount_insert _ _ _ s (bucketOf (Bwdb.db d) bktHour)).
  - unfold keyCount. rewrite B3. unfold Sample.TimeLabel in Ld. rewrite Ld in *.
    by apply (keyCount_insert _ _ _ s (bucketOf (Bwdb.db d) bktDay)).
Qed.

Lemma addInOrder_same_hour (ss : list BWSample) :
  forall (d d' : Bwdb.bwdb) (n : Z),
    holdsHour f t1 d n ->
    (forall s, s ∈ ss -> samePeriod s t1) ->
    addInOrder fault d ss = Some d' ->
    holdsHour f t1 d' (n + sumOf g ss).
Proof.
  induction ss as [|s ss IH]; intros d d' n Hd Hss Hrun.
  - injection Hrun as <-. unfold sumOf. cbn [foldr]. by rewrite Z.add_0_r.
  - cbn [addInOrder] in Hrun.
    destruct (Bwdb.open d && Sample.After s (Bwdb.last d)) eqn:E; [|done].
    apply andb_true_iff in E as [_ Ha].
    destruct (Bwdb.Add fault d s) as [d1 [e|]] eqn:Hadd; [done|].
    destruct (Add_same_hour d d1 s n Hd Ha) as [Hd1 _];
      [apply Hss; by apply elem_of_cons; left|done|].
    unfold sumOf. cbn [foldr]. fold (sumOf g ss). rewrite Z.add_assoc.
    apply (IH d1 d' _ Hd1); [|done].
    intros s0 Hs0. apply Hss. by apply elem_of_cons; right.
Qed.

Lemma Add_next_hour (d d' : Bwdb.bwdb) (s : BWSample) (n : Z) :
  holdsHour f t1 d n ->
  Bwdb.last d <> zeroTime ->
  Sample.After s (Bwdb.last d) = true ->
  Sample.TimeLabel s hourFmt <> Format hourFmt t1 ->
  Sample.TimeLabel s dayFmt = Format dayFmt t1 ->
  Sample.TimeLabel s monFmt = Format monFmt t1 ->
  Bwdb.Add fault d s = (d', None) ->
  bucketOf (Bwdb.db d') bktMin = {[ Sample.TimeLabel s minFmt := Sample.Encode s ]}
  /\ (exists v, bucketOf (Bwdb.db d') bktHour !! Format hourFmt t1 = Some v
        /\ (exists h, Sample.Decode newVar v = inr h)
        /\ u64 (f v) = u64 (2 * n))
  /\ (exists v, bucketOf (Bwdb.db d') bktDay !! Format dayFmt t1 = Some v
        /\ (exists h, Sample.Decode newVar v = inr h)
        /\ u64 (f v) = u64 (n + g s)).
Proof.
  intros (Ho & Hl & Hmin & Hhour & Hday) Hnz Ha Lh Ld Lm Hadd.
  rewrite Add_in_order in Hadd by done. cbv zeta in Hadd.
  replace (TimeEq (Bwdb.last d) zeroTime) with false in Hadd
    by (symmetry; by apply Z.eqb_neq).
  destruct Hl as [Hl|(Lh' & Ld' & Lm')]; [done|].
  unfold Sample.TimeLabel in Lh', Ld', Lm'. cbn [Ts] in Lh', Ld', Lm'.
  destruct (Batch_cases fault (Bwdb.addBatch fault (Bwdb.last d) s) (Bwdb.db d))
    as [[err Hb]|(st' & Hfn & Hb)]; rewrite Hb in Hadd; cbn [fst snd] in Hadd;
    [done|]. injection Hadd as <-. cbn [Bwdb.db].
  apply addBatch_inr in Hfn as (st4 & st7 & B4 & F4 & Hshift & Hup).
  rewrite Lh', Ld', Lm', Ld, Lm, !String.eqb_refl in Hshift.
  replace (Sample.TimeLabel s hourFmt =? Format hourFmt t1)%string with false
    in Hshift by (symmetry; by apply String.eqb_neq).
  cbn [negb] in Hshift.
  apply tx_bind_inr in Hshift as ([] & st5 & Hs & Hrest).
  injection Hrest as <-.
  pose proof (sumAndShift_inr fault bktMin bktHour _ _ _ ltac:(done) Hs)
    as (Emin & Fr & es & v & Hes & M & EH).
  apply four_updates in Hup as [Hfour _].
  destruct (Hfour bktMin minFmt) as (v1 & M1 & B1); [by apply elem_of_cons; left|].
  destruct (Hfour bktHour hourFmt) as (v2 & M2 & B2);
    [apply elem_of_cons; right; by apply elem_of_cons; left|].
  destruct (Hfour bktDay dayFmt) as (v3 & M3 & B3);
    [do 2 (apply elem_of_cons; right); by apply elem_of_cons; left|].
  assert (ED : bucketOf st5 bktDay = bucketOf (Bwdb.db d) bktDay).
  { rewrite <- B4. apply bucketOf_lookup_eq. by apply Fr. }
  rewrite B4 in M, EH, Hes.
  split; [|split].
  - rewrite B1. rewrite Emin in M1 |- *. rewrite lookup_empty in M1.
    cbn [merged] in M1. injection M1 as <-. done.
  - exists v. split; [|split].
    + rewrite B2, EH. rewrite lookup_insert_ne by (by unfold Sample.TimeLabel in Lh).
      apply lookup_insert_eq.
    + by apply merged_decodes in M.
    + rewrite (f_merged _ _ _ M). fold (keyCount f (Bwdb.db d) bktHour (Format hourFmt t1)).
      rewrite g_accumulated, <- (decoded_sum f g f_decoded _ _ Hes).
      rewrite (sumList_perm f _ _ (entries_perm (bucketOf (Bwdb.db d) bktMin))).
      fold (bucketSum f (bucketOf (Bwdb.db d) bktMin)).
      apply u64_diff in Hmin as [k1 Hmin]. apply u64_diff in Hhour as [k2 Hhour].
      destruct (u64_diff (u64 (bucketSum f (bucketOf (Bwdb.db d) bktMin)))
                         (bucketSum f (bucketOf (Bwdb.db d) bktMin)))
        as [k3 Hk3]; [apply u64_small, u64_range|].
      rewrite Hk3, Hhour, Hmin. apply (u64_of_diff _ _ (k1 + k2 + k3)). lia.
  - exists v3. split; [|split].
    + rewrite B3. unfold Sample.TimeLabel in Ld. rewrite Ld. apply lookup_insert_eq.
    + by apply merged_decodes in M3.
    + rewrite (f_merged _ _ _ M3). rewrite ED.
      unfold Sample.TimeLabel in Ld. rewrite Ld.
      fold (keyCount f (Bwdb.db d) bktDay (Format dayFmt t1)).
      by apply u64_cong_r.
Qed.

End Rollover.

Lemma counts_of_decoded (v : list byte) (h : BWSample) :
  Sample.Decode newVar v = inr h ->
  upOf v = BytesUp h /\ downOf v = BytesDown h
  /\ u64 (BytesUp h) = BytesUp h /\ u64 (BytesDown h) = BytesDown h.
Proof.
  intros Hd. unfold upOf, downOf. rewrite Hd.
  destruct (Decode_ranges _ _ _ Hd) as (_ & Hu & Hdn).
  by rewrite !u64_small.
Qed.

(** Rolling an hour up counts it twice. Samples are added in order to a new
    engine on an empty store, all in one hour, and then a sample of a later
    hour of the same day, every [Add] returning nil. At that last [Add] the
    entry of the hour that ended already holds the sum of its samples, and
    the sum of the minute bucket is added to it once more: it holds twice the
    bytes of the hour (modulo 2^64), while the entry of the day holds every
    sample once and the minute bucket only the last sample. *)
Theorem rollover_counts_the_hour_twice (fault : StoreOp -> bool) (L : Z)
    (t1 : Time) (ss : list BWSample) (sl s' : BWSample) (d1 d2 : Bwdb.bwdb) :
  (forall s, s ∈ ss -> samePeriod s t1) ->
  last ss = Some sl -> Ts sl <> zeroTime ->
  addInOrder fault (Bwdb.mkBwdb true ∅ [] L zeroTime) ss = Some d1 ->
  Sample.After s' (Ts sl) = true ->
  Sample.TimeLabel s' hourFmt <> Format hourFmt t1 ->
  Sample.TimeLabel s' dayFmt = Format dayFmt t1 ->
  Sample.TimeLabel s' monFmt = Format monFmt t1 ->
  Bwdb.Add fault d1 s' = (d2, None) ->
  (exists v h,
     bucketOf (Bwdb.db d2) bktHour !! Format hourFmt t1 = Some v
     /\ Sample.Decode newVar v = inr h
     /\ BytesUp h = u64 (2 * sumUp ss)
     /\ BytesDown h = u64 (2 * sumDown ss))
  /\ (exists v h,
        bucketOf (Bwdb.db d2) bktDay !! Format dayFmt t1 = Some v
        /\ Sample.Decode newVar v = inr h
        /\ BytesUp h = u64 (sumUp ss + BytesUp s')
        /\ BytesDown h = u64 (sumDown ss + BytesDown s'))
  /\ bucketOf (Bwdb.db d2) bktMin
     = {[ Sample.TimeLabel s' minFmt := Sample.Encode s' ]}.
Proof.
  intros Hss Hlast Hnz Hrun Ha Lh Ld Lm Hadd.
  set (d0 := Bwdb.mkBwdb true ∅ [] L zeroTime) in *.
  assert (Hl1 : Bwdb.last d1 = Ts sl)
    by apply (addInOrder_last fault ss d0 d1 sl Hrun Hlast).
  assert (H0 : forall f0, holdsHour f0 t1 d0 0).
  { intros f0. split; [done|]. split; [by left|].
    unfold keyCount, bucketOf. cbn [Bwdb.db d0]. rewrite !lookup_empty.
    cbn [default from_option]. rewrite !lookup_empty. by vm_compute. }
  assert (Hup : holdsHour upOf t1 d1 (0 + sumOf BytesUp ss)).
  { apply (addInOrder_same_hour fault upOf BytesUp) with (d := d0); try done.
    intros old s v Hm. by apply upOf_merged in Hm as [? _]. }
  assert (Hdn : holdsHour downOf t1 d1 (0 + sumOf BytesDown ss)).
  { apply (addInOrder_same_hour fault downOf BytesDown) with (d := d0); try done.
    intros old s v Hm. by apply upOf_merged in Hm as [_ ?]. }
  rewrite Z.add_0_l in Hup, Hdn. rewrite <- Hl1 in Ha, Hnz.
  destruct (Add_next_hour fault upOf BytesUp) with (t1 := t1) (d := d1) (d' := d2)
    (s := s') (n := sumOf BytesUp ss)
    as (Emin & (vh & Evh & [hh Dh] & Uh) & (vd & Evd & [hd Dd] & Ud)); try done.
  { intros v s Hd. unfold upOf. by rewrite Hd. }
  { intros old s v Hm. by apply upOf_merged in Hm as [? _]. }
  destruct (Add_next_hour fault downOf BytesDown) with (t1 := t1) (d := d1)
    (d' := d2) (s := s') (n := sumOf BytesDown ss)
    as (_ & (vh' & Evh' & _ & Uh') & (vd' & Evd' & _ & Ud')); try done.
  { intros v s Hd. unfold downOf. by rewrite Hd. }
  { intros old s v Hm. by apply upOf_merged in Hm as [_ ?]. }
  rewrite Evh in Evh'. injection Evh' as <-.
  rewrite Evd in Evd'. injection Evd' as <-.
  destruct (counts_of_decoded vh hh Dh) as (E1 & E2 & E3 & E4).
  destruct (counts_of_decoded vd hd Dd) as (E5 & E6 & E7 & E8).
  split; [|split; [|exact Emin]].
  - exists vh, hh. split; [done|]. split; [done|].
    rewrite <- E3, <- E4, <- E1, <- E2. by split.
  - exists vd, hd. split; [done|]. split; [done|].
    rewrite <- E7, <- E8, <- E5, <- E6. by split.
Qed.

Lemma rollover_counts_the_hour_twice_witness :
  let s1 := mkBWSample (Date 2016 1 1 1 0) 1 2 in
  let s2 := mkBWSample (Date 2016 1 1 1 30) 10 20 in
  let s' := mkBWSample (Date 2016 1 1 2 0) 1000 1000 in
  let d0 := Bwdb.mkBwdb true ∅ [] 20 zeroTime in
  exists d1 d2 v h,
    addInOrder noFault d0 [s1; s2] = Some d1
    /\ Bwdb.Add noFault d1 s' = (d2, None)
    /\ bucketOf (Bwdb.db d2) bktHour !! "0101201601"%string = Some v
    /\ Sample.Decode newVar v = inr h
    /\ BytesUp h = 22 /\ BytesDown h = 44.
Proof.
  intros s1 s2 s' d0.
  assert (Hss : forall s, s ∈ [s1; s2] -> samePeriod s (Ts s1)).
  { intros s Hs. apply elem_of_cons in Hs as [->|Hs]; [by vm_compute|].
    apply list_elem_of_singleton in Hs as ->. by vm_compute. }
  assert (Hnz : Ts s2 <> zeroTime) by (by vm_compute).
  assert (Ha : Sample.After s' (Ts s2) = true) by (by vm_compute).
  assert (Lh : Sample.TimeLabel s' hourFmt <> Format hourFmt (Ts s1))
    by (by vm_compute).
  assert (Ld : Sample.TimeLabel s' dayFmt = Format dayFmt (Ts s1))
    by (by vm_compute).
  assert (Lm : Sample.TimeLabel s' monFmt = Format monFmt (Ts s1))
    by (by vm_compute).
  assert (Hok : match addInOrder noFault d0 [s1; s2] with
                | Some d => match (Bwdb.Add noFault d s').2 with
                            | None => true | Some _ => false end
                | None => false end = true) by (by vm_compute).
  destruct (addInOrder noFault d0 [s1; s2]) as [d1|] eqn:E; [|discriminate Hok].
  destruct (Bwdb.Add noFault d1 s') as [d2 [e|]] eqn:E2; [discriminate Hok|].
  destruct (rollover_counts_the_hour_twice noFault 20 (Ts s1) [s1; s2] s2 s' d1 d2
              Hss eq_refl Hnz E Ha Lh Ld Lm E2)
    as ((v & h & Hv & Hd & Hu & Hdn) & _).
  exists d1, d2, v, h. split; [reflexivity|]. split; [exact E2|].
  split; [exact Hv|]. split; [exact Hd|]. split; [exact Hu|exact Hdn].
Defined.

(** ** Shifting by age: what arrives *)

Section ShiftArrives.

Variable fault : StoreOp -> bool.

Variables (f : list byte -> Z) (g : BWSample -> Z).
Hypothesis f_decoded : forall v s, Sample.Decode newVar v = inr s -> f v = g s.
Hypothesis f_merged : forall old s v,
  merged old s = inr v -> u64 (f v) = u64 (default 0 (f <$> old) + g s).

Lemma shift_walk_arrives (src dst : string) (tcheck : Time) (keyFmt : Layout)
    (K : string) (l : list (string * list byte)) :
  src <> dst ->
  forall (a a' : BWSample) (st st' : Store),
    bolt.forEachList (Bwdb.shiftEntry fault src dst tcheck keyFmt) l a st
    = inr (a', st') ->
    u64 (keyCount f st' dst K)
    = u64 (keyCount f st dst K + movedCount f tcheck keyFmt K l).
Proof.
  intros Hne. induction l as [|[k0 v0] l IH]; intros a a' st st' Hrun.
  - injection Hrun as _ <-. unfold movedCount. cbn [foldr]. by rewrite Z.add_0_r.
  - cbn [bolt.forEachList] in Hrun.
    apply tx_bind_inr in Hrun as (a1 & st1 & Hstep & Hrun).
    apply IH in Hrun. rewrite Hrun. clear IH Hrun.
    unfold movedCount. cbn [foldr snd]. fold (movedCount f tcheck keyFmt K l).
    unfold Bwdb.shiftEntry in Hstep. rewrite (Decode_receiver a newVar) in Hstep.
    destruct (Sample.Decode newVar v0) as [err|s0] eqn:Hd; [done|].
    destruct (Before (Sample.TS s0) tcheck) eqn:Hb; cbn [andb].
    + apply tx_bind_inr in Hstep as ([] & st2 & Hdel & Hstep).
      apply tx_bind_inr in Hstep as ([] & st3 & Hup & Hret).
      injection Hret as _ <-.
      rewrite Delete_eq in Hdel. destruct (fault _); [done|].
      injection Hdel as <-.
      apply updateVal_effect in Hup as (_ & (v & M & B) & _).
      rewrite bucketOf_insert_ne in M, B by done.
      unfold keyCount at 1. rewrite B.
      destruct (String.eqb (Format keyFmt (Sample.TS s0)) K) eqn:Ek.
      * apply String.eqb_eq in Ek. rewrite Ek in M |- *.
        rewrite lookup_insert_eq. cbn [fmap option_fmap option_map default].
        change (u64 (f v + movedCount f tcheck keyFmt K l)
                = u64 (keyCount f st dst K + (f v0 + movedCount f tcheck keyFmt K l))).
        apply f_merged in M. fold (keyCount f st dst K) in M.
        rewrite (f_decoded _ _ Hd).
        apply u64_diff in M as [k1 M]. rewrite M.
        apply (u64_of_diff _ _ k1). lia.
      * apply String.eqb_neq in Ek. by rewrite lookup_insert_ne.
    + by injection Hstep as _ <-.
Qed.

Lemma shiftIfOlder_arrives (src dst : string) (tcheck : Time)
    (keyFmt : Layout) (K : string) (st st' : Store) :
  src <> dst ->
  Bwdb.shiftIfOlder fault src dst tcheck keyFmt st = (st', None) ->
  u64 (keyCount f st' dst K)
  = u64 (keyCount f st dst K
         + movedCount f tcheck keyFmt K (entries (bucketOf st src))).
Proof.
  intros Hne Hrun. unfold Bwdb.shiftIfOlder in Hrun.
  destruct (Batch_cases fault
    (bolt.CreateBucketIfNotExists fault src;;;
     bolt.CreateBucketIfNotExists fault dst;;;
     bolt.ForEach src (Bwdb.shiftEntry fault src dst tcheck keyFmt) newVar;;;
     tx_ret ()) st) as [[err Hb]|(st2 & Hfn & Hb)];
    rewrite Hb in Hrun; [done|]. injection Hrun as Heq. subst st2. clear Hb.
  apply tx_bind_inr in Hfn as ([] & st1 & H1 & Hfn).
  apply tx_bind_inr in Hfn as ([] & st1' & H2 & Hfn).
  apply tx_bind_inr in Hfn as (a' & st3 & Hwalk & Hret).
  injection Hret as Heq. subst st3.
  apply create_inr in H1 as (_ & B1 & _). apply create_inr in H2 as (_ & B2 & _).
  unfold bolt.ForEach in Hwalk.
  apply (shift_walk_arrives src dst tcheck keyFmt K) in Hwalk; [|done].
  rewrite Hwalk. unfold keyCount. by rewrite !B2, !B1.
Qed.

End ShiftArrives.

(** [shiftIfOlder] that returns nil, for a source bucket other than the
    destination: under each key of the destination the byte counts grow,
    modulo 2^64, by the counts of exactly the source entries that were
    stamped before the cutoff and whose own timestamp formats to that key. *)
Theorem shiftIfOlder_fills_the_keys (fault : StoreOp -> bool)
    (src dst : string) (tcheck : Time) (keyFmt : Layout) (K : string)
    (st st' : Store) :
  src <> dst ->
  Bwdb.shiftIfOlder fault src dst tcheck keyFmt st = (st', None) ->
  u64 (keyCount upOf st' dst K)
  = u64 (keyCount upOf st dst K
         + movedCount upOf tcheck keyFmt K (entries (bucketOf st src)))
  /\ u64 (keyCount downOf st' dst K)
     = u64 (keyCount downOf st dst K
            + movedCount downOf tcheck keyFmt K (entries (bucketOf st src))).
Proof.
  intros Hne Hrun. split.
  - apply (shiftIfOlder_arrives fault upOf BytesUp); [| |done|done].
    + intros v s Hd. unfold upOf. by rewrite Hd.
    + intros old s v Hm. by apply upOf_merged in Hm as [? _].
  - apply (shiftIfOlder_arrives fault downOf BytesDown); [| |done|done].
    + intros v s Hd. unfold downOf. by rewrite Hd.
    + intros old s v Hm. by apply upOf_merged in Hm as [_ ?].
Qed.

Lemma shiftIfOlder_fills_the_keys_witness :
  let old1 := mkBWSample (Date 2016 1 1 1 0) 5 7 in
  let old2 := mkBWSample (Date 2016 1 1 1 30) 1 1 in
  let new := mkBWSample (Date 2016 1 1 3 0) 100 100 in
  let st : Store :=
    {[ bktMin := {[ "010120160100"%string := Sample.Encode old1;
                    "010120160130"%string := Sample.Encode old2;
                    "010120160300"%string := Sample.Encode new ]} ]} in
  let st' := (Bwdb.shiftIfOlder noFault bktMin bktHour (Date 2016 1 1 2 0)
                hourFmt st).1 in
  u64 (keyCount upOf st' bktHour "0101201601") = 6
  /\ u64 (keyCount downOf st' bktHour "0101201601") = 8.
Proof.
  intros old1 old2 new st st'.
  assert (Hrun : Bwdb.shiftIfOlder noFault bktMin bktHour (Date 2016 1 1 2 0)
                   hourFmt st = (st', None)).
  { apply injective_projections; [reflexivity|]. vm_compute. reflexivity. }
  destruct (shiftIfOlder_fills_the_keys noFault bktMin bktHour
              (Date 2016 1 1 2 0) hourFmt "0101201601" st st' ltac:(done) Hrun)
    as [-> ->].
  split; vm_compute; reflexivity.
Defined.
